(** * Ping-Schedule: the interview scheduling agent

    A shallow embedding of [scheduler_agent.py] (the negotiation engine:
    [SchedulerAgent] and its helpers) and of the correlation-token
    extraction of [email_client.py], with the properties of the
    specification stated and settled against it.

    Conventions.
    - A Python [str] is a Rocq [string] holding its UTF-8 bytes.  Slicing
      and the character classes of [re] ([\s], [\w], [\d]) and of
      [str.strip] are exact on ASCII text.
    - A naive [datetime] is the number of microseconds elapsed since
      0001-01-01T00:00:00, bounded like Python's type (years 1 to 9999); a
      [timedelta] is a number of microseconds.
    - Values decoded from JSON are terms of [json]; a Python exception is
      a value of [exn], and fallible code returns a [result].
    - The agent's collaborators (language model, calendar, mail transport,
      clock) are oracles of a [World]; every call is recorded in a log. *)

From Stdlib Require Import ZArith String Ascii List Lia Bool DecimalString.
From stdpp Require Import gmap strings list fin_maps.

Open Scope string_scope.
Open Scope Z_scope.

(* ===================================================================== *)
(** ** Text helpers *)
(* ===================================================================== *)

Definition chr (n : nat) : string := String (ascii_of_nat n) EmptyString.

(** The double quote and the line feed, which string literals avoid. *)
Definition dq : string := chr 34.
Definition nl : string := chr 10.

Definition digit (n : Z) : ascii := ascii_of_nat (48 + Z.to_nat n).

(** [pad w n]: the last [w] decimal digits of [n], most significant first
    (Python's ["%0wd"] for [0 <= n < 10^w]). *)
Fixpoint pad (w : nat) (n : Z) : string :=
  match w with
  | O => EmptyString
  | S w' => pad w' (n / 10) ++ String (digit (n mod 10)) EmptyString
  end.

(* ===================================================================== *)
(** ** [datetime]: instants, dates and formatting *)
(* ===================================================================== *)

Definition datetime := Z.
Definition timedelta := Z.

Definition US_PER_SECOND : Z := 1000000.
Definition US_PER_MINUTE : Z := 60 * US_PER_SECOND.
Definition US_PER_HOUR : Z := 60 * US_PER_MINUTE.
Definition US_PER_DAY : Z := 24 * US_PER_HOUR.

(** [date.max.toordinal()]: 9999-12-31. *)
Definition _MAXORDINAL : Z := 3652059.

(** The instants a Python [datetime] can hold. *)
Definition dt_in_range (t : datetime) : bool :=
  (0 <=? t) && (t <? _MAXORDINAL * US_PER_DAY).

Definition dt_valid (t : datetime) : Prop := 0 <= t < _MAXORDINAL * US_PER_DAY.

(** [timedelta(minutes=m)]: [None] stands for the [OverflowError] raised
    when the number of days exceeds 999999999 in magnitude. *)
Definition timedelta_minutes (m : Z) : option timedelta :=
  if (-999999999 <=? m / 1440) && (m / 1440 <=? 999999999)
  then Some (m * US_PER_MINUTE) else None.

Definition toordinal (t : datetime) : Z := t / US_PER_DAY + 1.
(** [t.date()], compared through its ordinal. *)
Definition date (t : datetime) : Z := toordinal t.
Definition hour (t : datetime) : Z := (t mod US_PER_DAY) / US_PER_HOUR.
Definition minute (t : datetime) : Z := (t mod US_PER_HOUR) / US_PER_MINUTE.
Definition second (t : datetime) : Z := (t mod US_PER_MINUTE) / US_PER_SECOND.
Definition microsecond (t : datetime) : Z := t mod US_PER_SECOND.
(** [t.weekday()]: Monday is 0; ordinal 1 is a Monday. *)
Definition weekday (t : datetime) : Z := (toordinal t + 6) mod 7.

(** [datetime.__add__]: [None] stands for the [OverflowError] raised
    outside the representable range. *)
Definition dt_add (t : datetime) (d : timedelta) : option datetime :=
  if dt_in_range (t + d) then Some (t + d) else None.

Definition _DI400Y : Z := 146097.
Definition _DI100Y : Z := 36524.
Definition _DI4Y : Z := 1461.

Definition _is_leap (y : Z) : bool :=
  (y mod 4 =? 0) && (negb (y mod 100 =? 0) || (y mod 400 =? 0)).

Definition _DAYS_IN_MONTH (m : Z) : Z :=
  if m =? 2 then 28
  else if (m =? 4) || (m =? 6) || (m =? 9) || (m =? 11) then 30
  else 31.

Definition _DAYS_BEFORE_MONTH (m : Z) : Z :=
  match m with
  | 1 => 0 | 2 => 31 | 3 => 59 | 4 => 90 | 5 => 120 | 6 => 151
  | 7 => 181 | 8 => 212 | 9 => 243 | 10 => 273 | 11 => 304 | 12 => 334
  | _ => 0
  end.

Definition _days_before_year (y : Z) : Z :=
  let y1 := y - 1 in y1 * 365 + y1 / 4 - y1 / 100 + y1 / 400.

Definition _days_before_month (y m : Z) : Z :=
  _DAYS_BEFORE_MONTH m + (if (2 <? m) && _is_leap y then 1 else 0).

Definition _ymd2ord (y m d : Z) : Z :=
  _days_before_year y + _days_before_month y m + d.

(** CPython's [_ord2ymd]: ordinal to (year, month, day). *)
Definition _ord2ymd (n0 : Z) : Z * Z * Z :=
  let n := n0 - 1 in
  let n400 := n / _DI400Y in
  let n := n mod _DI400Y in
  let year := n400 * 400 + 1 in
  let n100 := n / _DI100Y in
  let n := n mod _DI100Y in
  let n4 := n / _DI4Y in
  let n := n mod _DI4Y in
  let n1 := n / 365 in
  let n := n mod 365 in
  let year := year + n100 * 100 + n4 * 4 + n1 in
  if (n1 =? 4) || (n100 =? 4) then (year - 1, 12, 31)
  else
    let leapyear := (n1 =? 3) && (negb (n4 =? 24) || (n100 =? 3)) in
    let month := Z.shiftr (n + 50) 5 in
    let preceding :=
      _DAYS_BEFORE_MONTH month + (if (2 <? month) && leapyear then 1 else 0) in
    if n <? preceding then
      let month := month - 1 in
      let preceding :=
        preceding
        - (_DAYS_IN_MONTH month + (if (month =? 2) && leapyear then 1 else 0)) in
      (year, month, n - preceding + 1)
    else (year, month, n - preceding + 1).

Definition year (t : datetime) : Z := fst (fst (_ord2ymd (toordinal t))).
Definition month (t : datetime) : Z := snd (fst (_ord2ymd (toordinal t))).
Definition day (t : datetime) : Z := snd (_ord2ymd (toordinal t)).

(** [t.isoformat()]: the fraction is printed only when it is not zero. *)
Definition isoformat (t : datetime) : string :=
  pad 4 (year t) ++ "-" ++ pad 2 (month t) ++ "-" ++ pad 2 (day t) ++ "T"
  ++ pad 2 (hour t) ++ ":" ++ pad 2 (minute t) ++ ":" ++ pad 2 (second t)
  ++ (if microsecond t =? 0 then "" else "." ++ pad 6 (microsecond t)).

Definition day_name (wd : Z) : string :=
  match wd with
  | 0 => "Monday" | 1 => "Tuesday" | 2 => "Wednesday" | 3 => "Thursday"
  | 4 => "Friday" | 5 => "Saturday" | _ => "Sunday"
  end.

Definition month_name (m : Z) : string :=
  match m with
  | 1 => "January" | 2 => "February" | 3 => "March" | 4 => "April"
  | 5 => "May" | 6 => "June" | 7 => "July" | 8 => "August"
  | 9 => "September" | 10 => "October" | 11 => "November" | _ => "December"
  end.

(** One [strftime] directive (C locale; years are printed on four digits). *)
Definition strftime_directive (t : datetime) (c : ascii) : string :=
  if Ascii.eqb c "A" then day_name (weekday t)
  else if Ascii.eqb c "B" then month_name (month t)
  else if Ascii.eqb c "Y" then pad 4 (year t)
  else if Ascii.eqb c "m" then pad 2 (month t)
  else if Ascii.eqb c "d" then pad 2 (day t)
  else if Ascii.eqb c "H" then pad 2 (hour t)
  else if Ascii.eqb c "I" then
    pad 2 (if hour t mod 12 =? 0 then 12 else hour t mod 12)
  else if Ascii.eqb c "M" then pad 2 (minute t)
  else if Ascii.eqb c "S" then pad 2 (second t)
  else if Ascii.eqb c "p" then (if hour t <? 12 then "AM" else "PM")
  else String "%" (String c EmptyString).

(** [t.strftime(fmt)] for the directives the agent uses. *)
Fixpoint strftime (t : datetime) (fmt : string) : string :=
  match fmt with
  | EmptyString => EmptyString
  | String c rest =>
      if Ascii.eqb c "%" then
        match rest with
        | String d rest' => strftime_directive t d ++ strftime t rest'
        | EmptyString => String c EmptyString
        end
      else String c (strftime t rest)
  end.

(** [datetime(y, m, d, hh, mm, ss)], for writing concrete instants. *)
Definition mk_datetime (y m d hh mm ss : Z) : datetime :=
  (_ymd2ord y m d - 1) * US_PER_DAY + hh * US_PER_HOUR + mm * US_PER_MINUTE
  + ss * US_PER_SECOND.


(* ===================================================================== *)
(** ** Python strings *)
(* ===================================================================== *)

Definition code (c : ascii) : nat := nat_of_ascii c.

Definition in_range (lo hi : nat) (c : ascii) : bool :=
  (Nat.leb lo (code c)) && (Nat.leb (code c) hi).

(** [str.isspace] on ASCII: TAB..CR, FS..US and the space. *)
Definition is_space (c : ascii) : bool :=
  in_range 9 13 c || in_range 28 32 c.

Definition is_digit (c : ascii) : bool := in_range 48 57 c.

(** The class [\w] on ASCII. *)
Definition is_word (c : ascii) : bool :=
  in_range 97 122 c || in_range 65 90 c || is_digit c || Ascii.eqb c "_".

Definition lower (c : ascii) : ascii :=
  if in_range 65 90 c then ascii_of_nat (code c + 32) else c.

(** [s[:n]]. *)
Fixpoint str_take (n : nat) (s : string) : string :=
  match n, s with
  | S n', String c s' => String c (str_take n' s')
  | _, _ => EmptyString
  end.

Fixpoint lstrip (s : string) : string :=
  match s with
  | String c s' => if is_space c then lstrip s' else s
  | EmptyString => EmptyString
  end.

(** [rstrip] keeps a character when it is not a space or when something
    that is kept follows it. *)
Fixpoint rstrip (s : string) : string :=
  match s with
  | String c s' =>
      match rstrip s' with
      | EmptyString => if is_space c then EmptyString else String c EmptyString
      | r => String c r
      end
  | EmptyString => EmptyString
  end.

(** [s.strip()]. *)
Definition strip (s : string) : string := rstrip (lstrip s).

Fixpoint replace_from (old new : string) (skip : nat) (s : string) : string :=
  match s with
  | EmptyString => EmptyString
  | String c s' =>
      match skip with
      | S k => replace_from old new k s'
      | O =>
          if String.prefix old s
          then new ++ replace_from old new (String.length old - 1) s'
          else String c (replace_from old new O s')
      end
  end.

(** [s.replace(old, new)] for a non-empty [old]. *)
Definition str_replace (old new s : string) : string :=
  match old with
  | EmptyString => s
  | _ => replace_from old new O s
  end.

(** [s.split(sep)[0]] for a one-character separator. *)
Fixpoint split_head (sep : ascii) (s : string) : string :=
  match s with
  | String c s' => if Ascii.eqb c sep then EmptyString else String c (split_head sep s')
  | EmptyString => EmptyString
  end.

(** [sub in s]. *)
Fixpoint contains (sub s : string) : bool :=
  String.prefix sub s
  || match s with
     | String _ s' => contains sub s'
     | EmptyString => false
     end.

(** [sep.join(l)]. *)
Fixpoint join (sep : string) (l : list string) : string :=
  match l with
  | [] => EmptyString
  | [x] => x
  | x :: l' => x ++ sep ++ join sep l'
  end.

(* ===================================================================== *)
(** ** Regular expressions: the fragment of [re] the program uses *)
(* ===================================================================== *)

Module Re.

Inductive regex : Type :=
| Eps
| Chr (c : ascii)                 (** a literal character *)
| Set_ (p : ascii -> bool)        (** a class, one character *)
| Star (p : ascii -> bool)        (** greedy [p*] *)
| Plus (p : ascii -> bool)        (** greedy [p+] *)
| Seq (r1 r2 : regex)
| Group (r : regex)               (** the capturing group 1 *)
| WordB                           (** [\b] *)
| End_.                           (** [$] without MULTILINE *)

(** A literal word. *)
Fixpoint lit (s : string) : regex :=
match s with
| EmptyString => Eps
| String c s' => Seq (Chr c) (lit s')
end.

Definition head_is (p : ascii -> bool) (s : string) : bool :=
match s with String c _ => p c | EmptyString => false end.

Definition prev_is (p : ascii -> bool) (prev : option ascii) : bool :=
match prev with Some c => p c | None => false end.

Section Matcher.
Context {R : Type}.

(** Greedy repetition of a class: the longest run first, then shorter. *)
Fixpoint star (p : ascii -> bool) (prev : option ascii) (s : string)
    (k : option ascii -> string -> option R) : option R :=
  match s with
  | String c s' =>
      if p c then
        match star p (Some c) s' k with
        | Some r => Some r
        | None => k prev s
        end
      else k prev s
  | EmptyString => k prev s
  end.

(** [run ic r prev s cap k]: match [r] at the head of [s], where [prev]
    is the character before it and [cap] the text of group 1 so far, then
    continue with [k]; [ic] is the IGNORECASE flag. *)
Fixpoint run (ic : bool) (r : regex) (prev : option ascii) (s : string)
    (cap : option string)
    (k : option ascii -> string -> option string -> option R) : option R :=
  match r with
  | Eps => k prev s cap
  | Chr c =>
      match s with
      | String c' s' =>
          if (if ic then Ascii.eqb (lower c) (lower c') else Ascii.eqb c c')
          then k (Some c') s' cap else None
      | EmptyString => None
      end
  | Set_ p =>
      match s with
      | String c' s' => if p c' then k (Some c') s' cap else None
      | EmptyString => None
      end
  | Star p => star p prev s (fun prev' s' => k prev' s' cap)
  | Plus p =>
      match s with
      | String c' s' =>
          if p c' then star p (Some c') s' (fun prev' s' => k prev' s' cap)
          else None
      | EmptyString => None
      end
  | Seq r1 r2 =>
      run ic r1 prev s cap (fun prev' s' cap' => run ic r2 prev' s' cap' k)
  | Group r1 =>
      run ic r1 prev s cap
        (fun prev' s' _ =>
           k prev' s' (Some (str_take (String.length s - String.length s') s)))
  | WordB =>
      if xorb (prev_is is_word prev) (head_is is_word s) then k prev s cap
      else None
  | End_ =>
      if String.eqb s EmptyString || String.eqb s (String.String "010" EmptyString)
      then k prev s cap else None
  end.
End Matcher.

(** A match: the text before it, group 0, group 1 and the text after it. *)
Record rmatch : Type := {
before : string;
group0 : string;
group1 : option string;
after : string }.

Definition match_here (ic : bool) (r : regex) (prev : option ascii) (s : string)
  : option rmatch :=
run ic r prev s None
  (fun _ s' cap =>
     Some {| before := EmptyString;
             group0 := str_take (String.length s - String.length s') s;
             group1 := cap;
             after := s' |}).

Fixpoint search_from (ic : bool) (r : regex) (prev : option ascii) (s : string)
  : option rmatch :=
match match_here ic r prev s with
| Some m => Some m
| None =>
    match s with
    | String c s' =>
        match search_from ic r (Some c) s' with
        | Some m =>
            Some {| before := String c (before m); group0 := group0 m;
                    group1 := group1 m; after := after m |}
        | None => None
        end
    | EmptyString => None
    end
end.

(** [re.search(r, s)]: the leftmost match. *)
Definition search (ic : bool) (r : regex) (s : string) : option rmatch :=
search_from ic r None s.

(** [re.sub(r, repl, s)] for a pattern anchored at the end of the text, which
  matches at most once. *)
Definition sub_at_end (ic : bool) (r : regex) (repl s : string) : string :=
match search ic r s with
| Some m => before m ++ repl ++ after m
| None => s
end.

Definition any (_ : ascii) : bool := true.
Definition word_or_hyphen (c : ascii) : bool := is_word c || Ascii.eqb c "-".
Definition underscore_or_hyphen (c : ascii) : bool :=
Ascii.eqb c "_" || Ascii.eqb c "-".
Definition sign (c : ascii) : bool := Ascii.eqb c "+" || Ascii.eqb c "-".

End Re.

(* ===================================================================== *)
(** ** [email_client.py]: correlation-token extraction *)
(* ===================================================================== *)

Module EmailClient.
Import Re.

(** [\[Request\s+ID:\s*(req_[\w\-]+)\]] *)
Definition pattern1 : regex :=
Seq (lit "[Request")
  (Seq (Plus is_space)
     (Seq (lit "ID:")
        (Seq (Star is_space)
           (Seq (Group (Seq (lit "req_") (Plus word_or_hyphen))) (lit "]"))))).

(** [\b(req_[\w\-]+)\b] *)
Definition pattern2 : regex :=
Seq WordB (Seq (Group (Seq (lit "req_") (Plus word_or_hyphen))) WordB).

(** [req[_\-]([\w\-]+)] *)
Definition pattern3 : regex :=
Seq (lit "req") (Seq (Set_ underscore_or_hyphen) (Group (Plus word_or_hyphen))).

Definition group1_of (m : option rmatch) : option string :=
match m with
| Some r => group1 r
| None => None
end.

Definition _extract_request_id (text : string) : option string :=
if String.eqb text EmptyString then None
else
  match group1_of (search true pattern1 text) with
  | Some g => Some g
  | None =>
      match group1_of (search false pattern2 text) with
      | Some g => Some g
      | None =>
          match group1_of (search true pattern3 text) with
          | Some g => Some ("req_" ++ g)
          | None => None
          end
      end
  end.

End EmailClient.

(* ===================================================================== *)
(** ** Python values and exceptions *)
(* ===================================================================== *)

(** What [json.loads] returns; numbers are integers. *)
#[warnings="-register-all"]
Inductive json : Type :=
| JNull
| JBool (b : bool)
| JNum (n : Z)
| JStr (s : string)
| JArr (l : list json)
| JObj (kv : list (string * json)).

(** A dict with string keys, in insertion order. *)
Abbreviation dict := (list (string * json)).

Fixpoint dict_get (kv : dict) (k : string) : option json :=
  match kv with
  | [] => None
  | (k', v) :: kv' => if String.eqb k' k then Some v else dict_get kv' k
  end.

(** [d.get(k, default)]. *)
Definition dict_get_default (kv : dict) (k : string) (default : json) : json :=
  match dict_get kv k with
  | Some v => v
  | None => default
  end.

(** [v == s] for a string literal [s]. *)
Definition json_eq_str (v : json) (s : string) : bool :=
  match v with
  | JStr s' => String.eqb s' s
  | _ => false
  end.

(** [bool(v)]. *)
Definition truthy (v : json) : bool :=
  match v with
  | JNull => false
  | JBool b => b
  | JNum n => negb (n =? 0)
  | JStr s => negb (String.eqb s EmptyString)
  | JArr l => match l with [] => false | _ => true end
  | JObj kv => match kv with [] => false | _ => true end
  end.

Fixpoint chars (s : string) : list json :=
  match s with
  | EmptyString => []
  | String c s' => JStr (String c EmptyString) :: chars s'
  end.

(** [iter(v)]: the elements a [for] loop visits, [None] when [v] is not
    iterable ([TypeError]). *)
Definition py_iter (v : json) : option (list json) :=
  match v with
  | JArr l => Some l
  | JStr s => Some (chars s)
  | JObj kv => Some (map (fun p => JStr (fst p)) kv)
  | _ => None
  end.

(** [len(v)], [None] when [v] has no length ([TypeError]). *)
Definition py_len (v : json) : option nat :=
  match v with
  | JArr l => Some (length l)
  | JStr s => Some (String.length s)
  | JObj kv => Some (length kv)
  | _ => None
  end.

(** [v[:n]], [None] when [v] cannot be sliced. *)
Definition py_slice (n : nat) (v : json) : option json :=
  match v with
  | JStr s => Some (JStr (str_take n s))
  | JArr l => Some (JArr (firstn n l))
  | _ => None
  end.

Inductive exn : Type :=
| KeyError (key : string)
| AttributeError
| TypeError
| ValueError
| OverflowError
| CollaboratorError (what : string).  (** raised inside a collaborator *)

Inductive result (A : Type) : Type :=
| Ok (a : A)
| Raise (e : exn).
Arguments Ok {A} a.
Arguments Raise {A} e.

(** The functions of the Python runtime that the model takes as given:
    [datetime.strptime(s, fmt)] ([None] for [ValueError]), [str(v)] as
    f-strings apply it, and [json.loads(s)] ([None] for
    [JSONDecodeError]). *)
Record Python : Type := {
  strptime : string -> string -> option datetime;
  py_str : json -> string;
  json_loads : string -> option json }.

(** [strptime] only builds instants that a [datetime] can hold. *)
Definition python_ok (py : Python) : Prop :=
  forall s fmt t, strptime py s fmt = Some t -> dt_valid t.

(* ===================================================================== *)
(** ** [scheduler_agent.py]: the slot matcher *)
(* ===================================================================== *)

(** A slot dict: [start] and [end] as the calendar gives them, [display]
    when the matcher built it. *)
Record slot : Type := {
  s_start : string;
  s_end : string;
  s_display : option string }.

Section Matcher.
Context (py : Python).

Definition _parse_dt_formats : list string :=
  [ "%Y-%m-%dT%H:%M:%S.%f"; "%Y-%m-%dT%H:%M:%S"; "%Y-%m-%dT%H:%M";
    "%Y-%m-%d %H:%M:%S"; "%Y-%m-%d %H:%M" ].

(** [[+-]\d{2}:\d{2}$] *)
Definition tz_suffix : Re.regex :=
  Re.Seq (Re.Set_ Re.sign)
    (Re.Seq (Re.Set_ is_digit)
       (Re.Seq (Re.Set_ is_digit)
          (Re.Seq (Re.Chr ":")
             (Re.Seq (Re.Set_ is_digit) (Re.Seq (Re.Set_ is_digit) Re.End_))))).

Fixpoint try_formats (dt_str : string) (formats : list string) : result datetime :=
  match formats with
  | [] => Raise ValueError
  | fmt :: formats' =>
      match strptime py dt_str fmt with
      | Some t => Ok t
      | None => try_formats dt_str formats'
      end
  end.

Definition _parse_dt (dt_str : string) : result datetime :=
  let dt_str := Re.sub_at_end false tz_suffix "" (strip dt_str) in
  let dt_str := str_replace "Z" "" dt_str in
  try_formats dt_str _parse_dt_formats.

Definition _parse_candidate_slot_start (cs : json) : result datetime :=
  match cs with
  | JObj kv =>
      let date_str := dict_get_default kv "date" (JStr "") in
      let time_str := dict_get_default kv "start_time" (JStr "00:00") in
      if negb (truthy date_str) then Raise ValueError
      else
        match py_slice 5 time_str with
        | None => Raise TypeError
        | Some time_str =>
            match strptime py (py_str py date_str ++ "T" ++ py_str py time_str)
                    "%Y-%m-%dT%H:%M" with
            | Some t => Ok t
            | None => Raise ValueError
            end
        end
  | _ => Raise AttributeError
  end.

(** The first two statements of the [try] block of
    [_parse_candidate_slot_end]: the stated end as an instant, [None] when
    one of them raises. *)
Definition parse_end_time (kv : dict) (end_time_str : json) : option datetime :=
  match py_slice 5 end_time_str with
  | None => None
  | Some end_time_str =>
      match dict_get kv "date" with
      | None => None
      | Some d =>
          strptime py (py_str py d ++ "T" ++ py_str py end_time_str)
            "%Y-%m-%dT%H:%M"
      end
  end.

(** The [end_time] a slot states, as an instant: [None] when it is absent,
    empty or null, or does not parse. *)
Definition stated_end_time (cs : json) : option datetime :=
  match cs with
  | JObj kv =>
      let end_time_str := dict_get_default kv "end_time" (JStr "") in
      if truthy end_time_str then parse_end_time kv end_time_str else None
  | _ => None
  end.

(** [start + timedelta(minutes=duration_minutes)]. *)
Definition plus_duration (start : datetime) (duration_minutes : Z) : result datetime :=
  match timedelta_minutes duration_minutes with
  | None => Raise OverflowError
  | Some d =>
      match dt_add start d with
      | None => Raise OverflowError
      | Some t => Ok t
      end
  end.

Definition _parse_candidate_slot_end (cs : json) (duration_minutes : Z)
    : result datetime :=
  match _parse_candidate_slot_start cs with
  | Raise e => Raise e
  | Ok start =>
      match stated_end_time cs with
      | Some end_ =>
          if start <? end_ then Ok end_
          else plus_duration start duration_minutes
      | None => plus_duration start duration_minutes
      end
  end.

(** The [if]/[elif] chain of the inner loop: [Ok matched], or the
    [OverflowError] of [timedelta(minutes=duration_minutes)] in the last
    branch. *)
Definition match_pair (rs_start rs_end cs_start cs_end : datetime)
    (duration_minutes : Z) : result bool :=
  if (date rs_start =? date cs_start) && (hour rs_start =? hour cs_start)
  then Ok true
  else if (weekday rs_start =? weekday cs_start) && (hour rs_start =? hour cs_start)
  then Ok true
  else if (date rs_start =? date cs_start) && (hour cs_start =? 0)
  then Ok true
  else
    let overlap_start := Z.max rs_start cs_start in
    let overlap_end := Z.min rs_end cs_end in
    match timedelta_minutes duration_minutes with
    | None => Raise OverflowError
    | Some d => Ok (d <=? overlap_end - overlap_start)
    end.

(** The dict appended to [overlapping]. *)
Definition overlap_entry (rs_start rs_end : datetime) : slot :=
  {| s_start := isoformat rs_start;
     s_end := isoformat rs_end;
     s_display := Some (strftime rs_start "%A, %B %d at %I:%M %p") |}.

(** [for cs in candidate_slots: ...] for one recruiter slot. *)
Fixpoint candidate_loop (rs_start rs_end : datetime) (candidate_slots : list json)
    (duration_minutes : Z) (overlapping : list slot) : result (list slot) :=
  match candidate_slots with
  | [] => Ok overlapping
  | cs :: rest =>
      match _parse_candidate_slot_start cs,
            _parse_candidate_slot_end cs duration_minutes with
      | Ok cs_start, Ok cs_end =>
          match match_pair rs_start rs_end cs_start cs_end duration_minutes with
          | Raise e => Raise e
          | Ok matched =>
              candidate_loop rs_start rs_end rest duration_minutes
                (if matched then overlapping ++ [overlap_entry rs_start rs_end]
                 else overlapping)
          end
      | _, _ => candidate_loop rs_start rs_end rest duration_minutes overlapping
      end
  end.

(** [for rs in recruiter_slots: ...]. *)
Fixpoint recruiter_loop (recruiter_slots : list slot) (candidate_slots : json)
    (duration_minutes : Z) (overlapping : list slot) : result (list slot) :=
  match recruiter_slots with
  | [] => Ok overlapping
  | rs :: rest =>
      match _parse_dt (s_start rs), _parse_dt (s_end rs) with
      | Ok rs_start, Ok rs_end =>
          match py_iter candidate_slots with
          | None => Raise TypeError
          | Some cands =>
              match candidate_loop rs_start rs_end cands duration_minutes
                      overlapping with
              | Raise e => Raise e
              | Ok overlapping' =>
                  recruiter_loop rest candidate_slots duration_minutes overlapping'
              end
          end
      | _, _ => recruiter_loop rest candidate_slots duration_minutes overlapping
      end
  end.

(** The "Remove duplicates" loop. *)
Fixpoint unique_loop (seen : gset string) (unique : list slot)
    (overlapping : list slot) : list slot :=
  match overlapping with
  | [] => unique
  | s :: rest =>
      if decide (s_start s ∈ seen) then unique_loop seen unique rest
      else unique_loop ({[ s_start s ]} ∪ seen) (unique ++ [s]) rest
  end.

Definition _find_overlap (recruiter_slots : list slot) (candidate_slots : json)
    (duration_minutes : Z) : result (list slot) :=
  match recruiter_loop recruiter_slots candidate_slots duration_minutes [] with
  | Raise e => Raise e
  | Ok overlapping => Ok (unique_loop ∅ [] overlapping)
  end.

End Matcher.

(* ===================================================================== *)
(** ** [scheduler_agent.py]: requests, collaborators and the agent state *)
(* ===================================================================== *)

Inductive Status : Type :=
| pending
| awaiting_candidate
| confirmed
| cancelled
| needs_human.

Record InterviewRequest : Type := {
  recruiter_email : string;
  candidate_email : string;
  job_title : string;
  duration_minutes : Z;
  conversation_history : list (string * string);
  recruiter_slots : list slot;
  candidate_slots : json;
  confirmed_slot : option slot;
  status : Status }.

(** A call made to a collaborator, with its arguments. *)
Inductive call : Type :=
| Complete (prompt : string)
| GetAvailableSlots (email : string) (duration days_ahead : Z)
    (exclude_slots : option (list slot))
| CreateEvent (title start end_ : string) (attendees : list string)
    (description : string)
| Send (to subject body : string).

(** The collaborators: each answers from the calls made so far and its
    arguments, by a value or by an exception. *)
Record World : Type := {
  llm_complete : list call -> string -> result string;
  calendar_get_available_slots :
    list call -> string -> Z -> Z -> option (list slot) -> result (list slot);
  calendar_create_event :
    list call -> string -> string -> string -> list string -> string -> result dict;
  email_send : list call -> string -> string -> string -> result bool;
  datetime_now : list call -> datetime }.

(** [self.active_requests] and the log of collaborator calls. *)
Record Agent : Type := {
  active_requests : gmap string InterviewRequest;
  calls : list call }.

(** What [handle_email_reply] returns. *)
Inductive outcome : Type :=
| Out_error (message : string)
| Out_confirmed (slot_ : slot) (calendar_event : option dict)
| Out_cancelled
| Out_awaiting_candidate (message : string)
| Out_escalated (message : string)
| Out_awaiting_response.

(** Computations on the agent: the state survives an exception. *)
Definition M (A : Type) : Type := Agent -> Agent * result A.

Definition ret {A} (a : A) : M A := fun s => (s, Ok a).
Definition raise {A} (e : exn) : M A := fun s => (s, Raise e).
Definition bind {A B} (m : M A) (k : A -> M B) : M B :=
  fun s =>
    match m s with
    | (s', Ok a) => k a s'
    | (s', Raise e) => (s', Raise e)
    end.
Definition lift {A} (r : result A) : M A := fun s => (s, r).

Declare Scope agent_scope.
Delimit Scope agent_scope with agent.
Notation "x <- m ;; k" := (bind m (fun x => k))
  (at level 100, m at next level, right associativity) : agent_scope.
Notation "m ;;; k" := (bind m (fun _ => k))
  (at level 100, right associativity) : agent_scope.
Open Scope agent_scope.

Definition log_call (c : call) (s : Agent) : Agent :=
  {| active_requests := active_requests s; calls := calls s ++ [c] |}.

(** Reading the request object behind [request_id]. *)
Definition get_request (request_id : string) : M InterviewRequest :=
  fun s =>
    match active_requests s !! request_id with
    | Some r => (s, Ok r)
    | None => (s, Raise (KeyError request_id))
    end.

(** Assigning to attributes of the request object behind [request_id]. *)
Definition update_request (request_id : string)
    (f : InterviewRequest -> InterviewRequest) : M unit :=
  fun s =>
    ({| active_requests := alter f request_id (active_requests s);
        calls := calls s |}, Ok tt).

Definition set_recruiter_slots (v : list slot) (r : InterviewRequest) :=
  {| recruiter_email := recruiter_email r; candidate_email := candidate_email r;
     job_title := job_title r; duration_minutes := duration_minutes r;
     conversation_history := conversation_history r;
     recruiter_slots := v; candidate_slots := candidate_slots r;
     confirmed_slot := confirmed_slot r; status := status r |}.

Definition set_candidate_slots (v : json) (r : InterviewRequest) :=
  {| recruiter_email := recruiter_email r; candidate_email := candidate_email r;
     job_title := job_title r; duration_minutes := duration_minutes r;
     conversation_history := conversation_history r;
     recruiter_slots := recruiter_slots r; candidate_slots := v;
     confirmed_slot := confirmed_slot r; status := status r |}.

Definition set_confirmed_slot (v : option slot) (r : InterviewRequest) :=
  {| recruiter_email := recruiter_email r; candidate_email := candidate_email r;
     job_title := job_title r; duration_minutes := duration_minutes r;
     conversation_history := conversation_history r;
     recruiter_slots := recruiter_slots r; candidate_slots := candidate_slots r;
     confirmed_slot := v; status := status r |}.

Definition set_status (v : Status) (r : InterviewRequest) :=
  {| recruiter_email := recruiter_email r; candidate_email := candidate_email r;
     job_title := job_title r; duration_minutes := duration_minutes r;
     conversation_history := conversation_history r;
     recruiter_slots := recruiter_slots r; candidate_slots := candidate_slots r;
     confirmed_slot := confirmed_slot r; status := v |}.

Definition append_history (entry : string * string) (r : InterviewRequest) :=
  {| recruiter_email := recruiter_email r; candidate_email := candidate_email r;
     job_title := job_title r; duration_minutes := duration_minutes r;
     conversation_history := conversation_history r ++ [entry];
     recruiter_slots := recruiter_slots r; candidate_slots := candidate_slots r;
     confirmed_slot := confirmed_slot r; status := status r |}.

(** [str(n)] for an [int]. *)
Definition str_of_int (n : Z) : string := NilZero.string_of_int (Z.to_int n).

Section Agent.
Context (py : Python) (W : World).

(** *** Calls to the collaborators *)

Definition llm_complete_ (prompt : string) : M string :=
  fun s => (log_call (Complete prompt) s, llm_complete W (calls s) prompt).

Definition calendar_get_available_slots_ (email : string) (duration days_ahead : Z)
    (exclude_slots : option (list slot)) : M (list slot) :=
  fun s =>
    (log_call (GetAvailableSlots email duration days_ahead exclude_slots) s,
     calendar_get_available_slots W (calls s) email duration days_ahead
       exclude_slots).

Definition calendar_create_event_ (title start end_ : string)
    (attendees : list string) (description : string) : M dict :=
  fun s =>
    (log_call (CreateEvent title start end_ attendees description) s,
     calendar_create_event W (calls s) title start end_ attendees description).

Definition email_send_ (to subject body : string) : M bool :=
  fun s => (log_call (Send to subject body) s, email_send W (calls s) to subject body).

Definition now_ : M datetime := fun s => (s, Ok (datetime_now W (calls s))).

(** *** Email helpers *)

Definition request_id_line (request_id : string) : string :=
  "[Request ID: " ++ request_id ++ "]".

Definition slot_line (request : InterviewRequest) (s : slot) : string :=
  match _parse_dt py (s_start s) with
  | Ok dt =>
      "  • " ++ strftime dt "%A, %B %d at %I:%M %p" ++ " ("
      ++ str_of_int (duration_minutes request) ++ " mins)"
  | Raise _ => "  • " ++ s_start s ++ " – " ++ s_end s
  end.

Definition availability_body (request_id : string) (request : InterviewRequest)
    (slots : list slot) (retry : bool) : string :=
  join nl
    [ "Hi,"; "";
      (if retry
       then "Thank you for your response! Unfortunately those times don't work. Here are some additional options:"
       else "We'd love to schedule your interview for the " ++ job_title request
            ++ " position.");
      "";
      "Please reply with which time works best for you, or suggest an alternative:";
      "";
      join nl (map (slot_line request) (firstn 6 slots));
      "";
      "Simply reply to this email with your preferred time — our scheduling assistant will take care of the rest!";
      "";
      "Best regards,";
      "Interview Scheduling Assistant";
      "";
      "──────────────────────────────";
      request_id_line request_id;
      "──────────────────────────────" ].

Definition _send_availability_request (request_id : string)
    (request : InterviewRequest) (slots : list slot) (retry : bool) : M unit :=
  email_send_ (candidate_email request)
    ("Interview Scheduling – " ++ job_title request)
    (availability_body request_id request slots retry) ;;;
  ret tt.

Definition slot_display (slot_ : slot) : string :=
  match _parse_dt py (s_start slot_), _parse_dt py (s_end slot_) with
  | Ok dt_start, Ok _ => strftime dt_start "%A, %B %d, %Y at %I:%M %p"
  | _, _ =>
      match s_display slot_ with
      | Some d => d
      | None => s_start slot_
      end
  end.

Definition meet_link_line (event : option dict) : string :=
  match event with
  | Some ((_ :: _) as kv) =>
      match dict_get kv "meet_link" with
      | Some link =>
          if truthy link then nl ++ "Google Meet Link: " ++ py_str py link
          else ""
      | None => ""
      end
  | _ => ""
  end.

Definition candidate_confirmation_body (request : InterviewRequest)
    (slot_ : slot) (event : option dict) : string :=
  join nl
    [ "Hi,"; "";
      "Great news! Your interview has been successfully scheduled. 🎉";
      "";
      "━━━━━━━━━━━━━━━━━━━━━━━━━━━━";
      "  INTERVIEW CONFIRMED";
      "━━━━━━━━━━━━━━━━━━━━━━━━━━━━";
      "  Role     : " ++ job_title request;
      "  Date     : " ++ slot_display slot_;
      "  Duration : " ++ str_of_int (duration_minutes request) ++ " minutes"
      ++ meet_link_line event;
      "━━━━━━━━━━━━━━━━━━━━━━━━━━━━";
      "";
      "A calendar invite has been sent to your email. Please accept it to confirm attendance.";
      "";
      "Tips for your interview:";
      "  • Join 5 minutes early";
      "  • Test your audio/video beforehand";
      "  • Have your resume handy";
      "";
      "Best of luck! We look forward to speaking with you.";
      "";
      "Best regards,";
      "Interview Scheduling Assistant" ].

Definition recruiter_confirmation_body (request : InterviewRequest)
    (slot_ : slot) (event : option dict) : string :=
  join nl
    [ "Hi,"; "";
      "The interview has been successfully scheduled with the candidate.";
      "";
      "━━━━━━━━━━━━━━━━━━━━━━━━━━━━";
      "  INTERVIEW BOOKED";
      "━━━━━━━━━━━━━━━━━━━━━━━━━━━━";
      "  Role      : " ++ job_title request;
      "  Candidate : " ++ candidate_email request;
      "  Date      : " ++ slot_display slot_;
      "  Duration  : " ++ str_of_int (duration_minutes request) ++ " minutes"
      ++ meet_link_line event;
      "━━━━━━━━━━━━━━━━━━━━━━━━━━━━";
      "";
      "A calendar invite has been added to your calendar automatically.";
      "";
      "Best regards,";
      "Interview Scheduling Assistant" ].

Definition _send_confirmation (request : InterviewRequest) (slot_ : slot)
    (event : option dict) : M unit :=
  email_send_ (candidate_email request)
    ("✅ Interview Confirmed – " ++ job_title request)
    (candidate_confirmation_body request slot_ event) ;;;
  email_send_ (recruiter_email request)
    ("✅ Interview Booked – " ++ job_title request ++ " | " ++ slot_display slot_)
    (recruiter_confirmation_body request slot_ event) ;;;
  ret tt.

Definition cancellation_body (request : InterviewRequest) : string :=
  join nl
    [ "Hi,"; "";
      "The candidate has declined the interview request.";
      "";
      "  Candidate : " ++ candidate_email request;
      "  Position  : " ++ job_title request;
      "";
      "Please reach out directly if you'd like to follow up.";
      "";
      "Best regards,";
      "Interview Scheduling Assistant" ].

Definition _send_cancellation_notice (request : InterviewRequest) : M unit :=
  email_send_ (recruiter_email request)
    ("Interview Declined – " ++ job_title request)
    (cancellation_body request) ;;;
  ret tt.

Definition escalation_body (request : InterviewRequest) : string :=
  join nl
    [ "Hi,"; "";
      "The automated scheduling agent was unable to find a mutually available time.";
      "";
      "  Candidate : " ++ candidate_email request;
      "  Position  : " ++ job_title request;
      "";
      "Please reach out to the candidate directly to schedule the interview.";
      "";
      "Best regards,";
      "Interview Scheduling Assistant" ].

Definition _escalate_to_recruiter (request : InterviewRequest) : M unit :=
  email_send_ (recruiter_email request)
    ("⚠️ Manual Scheduling Required – " ++ job_title request)
    (escalation_body request) ;;;
  ret tt.

(** *** The availability extractor *)

Definition recruiter_slot_prompt_line (s : slot) : string :=
  match _parse_dt py (s_start s) with
  | Ok dt =>
      "  - " ++ strftime dt "%A, %B %d, %Y at %I:%M %p" ++ " | raw: " ++ s_start s
  | Raise _ => "  - " ++ s_start s
  end.

Definition recruiter_slots_display (request : InterviewRequest) : string :=
  match recruiter_slots request with
  | [] => ""
  | slots =>
      "Recruiter's available slots that were offered to candidate:" ++ nl
      ++ join nl (map recruiter_slot_prompt_line slots)
  end.

Definition quoted (s : string) : string := dq ++ s ++ dq.

Definition extraction_prompt (today : datetime) (email_body : string)
    (request : InterviewRequest) : string :=
  join nl
    [ "You are an assistant that extracts scheduling information from emails.";
      "";
      "Today's date: " ++ strftime today "%A, %B %d, %Y";
      "";
      recruiter_slots_display request;
      "";
      "Candidate's email reply:";
      dq ++ dq ++ dq;
      email_body;
      dq ++ dq ++ dq;
      "";
      "The candidate was previously sent the recruiter's available slots listed above.";
      "Now they are replying to say which time works for them.";
      "";
      "Your job: Figure out which of the recruiter's slots the candidate is referring to and return it.";
      "";
      "Return a JSON object:";
      "{";
      "  " ++ quoted "action" ++ ": " ++ quoted "provide_availability" ++ " | "
      ++ quoted "confirm" ++ " | " ++ quoted "decline" ++ " | "
      ++ quoted "request_other_times" ++ " | " ++ quoted "unclear" ++ ",";
      "  " ++ quoted "slots" ++ ": [";
      "    {";
      "      " ++ quoted "date" ++ ": " ++ quoted "YYYY-MM-DD" ++ ",";
      "      " ++ quoted "start_time" ++ ": " ++ quoted "HH:MM" ++ ",";
      "      " ++ quoted "end_time" ++ ": " ++ quoted "HH:MM" ++ ",";
      "      " ++ quoted "timezone" ++ ": null";
      "    }";
      "  ],";
      "  " ++ quoted "message" ++ ": " ++ quoted "any message to pass along";
      "}";
      "";
      "STRICT rules:";
      "- If candidate says " ++ quoted "Monday works" ++ " or "
      ++ quoted "Monday at 10am"
      ++ " → find the matching Monday slot from the recruiter's list above and return that exact date in YYYY-MM-DD format";
      "- If candidate confirms any specific slot → action = "
      ++ quoted "provide_availability" ++ " with that slot's exact date and time";
      "- If end_time not mentioned → add " ++ str_of_int (duration_minutes request)
      ++ " minutes to start_time";
      "- If candidate says they can't make it or wants to withdraw → action = "
      ++ quoted "decline";
      "- If candidate asks for different times → action = "
      ++ quoted "request_other_times";
      "- ALWAYS return the exact YYYY-MM-DD date from the recruiter slots list above, never a vague date";
      "- Only return valid JSON, no other text." ].

(** [\{.*\}] with DOTALL *)
Definition braces : Re.regex :=
  Re.Seq (Re.Chr "{") (Re.Seq (Re.Star Re.any) (Re.Chr "}")).

(** The fallback dict of the extractor. *)
Definition unclear (response : string) : json :=
  JObj [("action", JStr "unclear"); ("slots", JArr []); ("message", JStr response)].

(** What the extractor makes of the model's answer. *)
Definition parse_response (response : string) : json :=
  let clean :=
    strip (str_replace "```" "" (str_replace "```json" "" (strip response))) in
  match json_loads py clean with
  | Some v => v
  | None =>
      match Re.search false braces response with
      | Some json_match =>
          match json_loads py (Re.group0 json_match) with
          | Some v => v
          | None => unclear response
          end
      | None => unclear response
      end
  end.

Definition _extract_availability_with_llm (email_body : string)
    (request : InterviewRequest) : M json :=
  today <- now_ ;;
  response <- llm_complete_ (extraction_prompt today email_body request) ;;
  ret (parse_response response).

(** *** No overlap: fetch more recruiter slots *)

Definition _handle_no_overlap (request_id : string) : M outcome :=
  request <- get_request request_id ;;
  new_slots <- calendar_get_available_slots_ (recruiter_email request)
                 (duration_minutes request) 21 (Some (recruiter_slots request)) ;;
  match new_slots with
  | _ :: _ =>
      update_request request_id
        (fun r => set_recruiter_slots (recruiter_slots r ++ new_slots) r) ;;;
      request <- get_request request_id ;;
      _send_availability_request request_id request new_slots true ;;;
      ret (Out_awaiting_candidate "Sent alternative times")
  | [] =>
      update_request request_id (set_status needs_human) ;;;
      request <- get_request request_id ;;
      _escalate_to_recruiter request ;;;
      ret (Out_escalated "No available slots found — escalated to recruiter")
  end.

Definition _confirm_booking (request_id : string) : M outcome :=
  request <- get_request request_id ;;
  match confirmed_slot request with
  | Some slot_ =>
      event <- calendar_create_event_ ("Interview: " ++ job_title request)
                 (s_start slot_) (s_end slot_)
                 [recruiter_email request; candidate_email request] "" ;;
      update_request request_id (set_status confirmed) ;;;
      request <- get_request request_id ;;
      _send_confirmation request slot_ (Some event) ;;;
      ret (Out_confirmed slot_ None)
  | None => ret (Out_error "No slot to confirm")
  end.

(** *** Find overlapping slots between parties *)

Definition _process_candidate_availability (request_id : string)
    (candidate_slots_ : json) : M outcome :=
  update_request request_id (set_candidate_slots candidate_slots_) ;;;
  if negb (truthy candidate_slots_) then _handle_no_overlap request_id
  else
    request <- get_request request_id ;;
    overlap <- lift (_find_overlap py (recruiter_slots request) candidate_slots_
                       (duration_minutes request)) ;;
    (* the progress message takes [len(candidate_slots)] *)
    match py_len candidate_slots_ with
    | None => raise TypeError
    | Some _ =>
        match overlap with
        | best_slot :: _ =>
            update_request request_id (set_confirmed_slot (Some best_slot)) ;;;
            event <- calendar_create_event_ ("Interview: " ++ job_title request)
                       (s_start best_slot) (s_end best_slot)
                       [recruiter_email request; candidate_email request]
                       ("Interview for " ++ job_title request ++ " position." ++ nl
                        ++ "Scheduled by Interview Scheduling Agent.") ;;
            update_request request_id (set_status confirmed) ;;;
            request <- get_request request_id ;;
            _send_confirmation request best_slot (Some event) ;;;
            ret (Out_confirmed best_slot (Some event))
        | [] => _handle_no_overlap request_id
        end
    end.

(** *** Handle incoming email reply *)

(** The [if]/[elif] chain on [extracted["action"]]; the progress message
    before it calls [extracted.get]. *)
Definition dispatch (request_id : string) (extracted : json) : M outcome :=
  match extracted with
  | JObj kv =>
      match dict_get kv "action" with
      | None => raise (KeyError "action")
      | Some action =>
          if json_eq_str action "provide_availability" then
            match dict_get kv "slots" with
            | None => raise (KeyError "slots")
            | Some slots => _process_candidate_availability request_id slots
            end
          else if json_eq_str action "confirm" then
            _confirm_booking request_id
          else if json_eq_str action "decline" then
            update_request request_id (set_status cancelled) ;;;
            request <- get_request request_id ;;
            _send_cancellation_notice request ;;;
            ret Out_cancelled
          else if json_eq_str action "request_other_times" then
            _handle_no_overlap request_id
          else
            match dict_get kv "slots" with
            | Some slots =>
                if truthy slots
                then _process_candidate_availability request_id slots
                else ret Out_awaiting_response
            | None => ret Out_awaiting_response
            end
      end
  | _ => raise AttributeError
  end.

Definition handle_email_reply (request_id sender email_body : string) : M outcome :=
  fun s =>
    match active_requests s !! request_id with
    | None => (s, Ok (Out_error "Unknown request ID"))
    | Some _ =>
        (update_request request_id (append_history (sender, email_body)) ;;;
         request <- get_request request_id ;;
         extracted <- _extract_availability_with_llm email_body request ;;
         dispatch request_id extracted) s
    end.

(** *** Entry point: recruiter kicks off scheduling *)

Definition new_request (recruiter_email_ candidate_email_ job_title_ : string)
    (duration_minutes_ : Z) : InterviewRequest :=
  {| recruiter_email := recruiter_email_; candidate_email := candidate_email_;
     job_title := job_title_; duration_minutes := duration_minutes_;
     conversation_history := []; recruiter_slots := [];
     candidate_slots := JArr []; confirmed_slot := None; status := pending |}.

Definition make_request_id (now : datetime) (candidate_email_ : string) : string :=
  "req_" ++ strftime now "%Y%m%d%H%M%S" ++ "_" ++ split_head "@" candidate_email_.

Definition initiate_scheduling (recruiter_email_ candidate_email_ job_title_ : string)
    (duration_minutes_ : Z) : M (string * InterviewRequest) :=
  now <- now_ ;;
  let request_id := make_request_id now candidate_email_ in
  (fun s =>
     ({| active_requests :=
           <[request_id := new_request recruiter_email_ candidate_email_
                             job_title_ duration_minutes_]> (active_requests s);
         calls := calls s |}, Ok tt)) ;;;
  recruiter_slots_ <- calendar_get_available_slots_ recruiter_email_
                        duration_minutes_ 14 None ;;
  update_request request_id (set_recruiter_slots recruiter_slots_) ;;;
  request <- get_request request_id ;;
  _send_availability_request request_id request recruiter_slots_ false ;;;
  update_request request_id (set_status awaiting_candidate) ;;;
  request <- get_request request_id ;;
  ret (request_id, request).

End Agent.

(* ===================================================================== *)
(** ** The reference matcher of the specification (section 4.2) *)
(* ===================================================================== *)

(** A time interval, by its two instants. *)
Record interval : Type := { i_start : datetime; i_end : datetime }.

(** A positive number of minutes that a [timedelta] can hold. *)
Definition is_duration (minutes : Z) : Prop := 0 < minutes <= 1439999999999.

Module Reference.

(** The tier that accepts the pair, the first that fires. *)
Definition tier (offered respondent : interval) (duration : timedelta) : option nat :=
  if (date (i_start offered) =? date (i_start respondent))
     && (hour (i_start offered) =? hour (i_start respondent))
  then Some 1%nat
  else if (weekday (i_start offered) =? weekday (i_start respondent))
          && (hour (i_start offered) =? hour (i_start respondent))
  then Some 2%nat
  else if (date (i_start offered) =? date (i_start respondent))
          && (hour (i_start respondent) =? 0)
  then Some 3%nat
  else if duration
          <=? Z.min (i_end offered) (i_end respondent)
              - Z.max (i_start offered) (i_start respondent)
  then Some 4%nat
  else None.

Definition accepted (respondents : list interval) (duration : timedelta)
    (offered : interval) : bool :=
  existsb (fun r => match tier offered r duration with Some _ => true | None => false end)
    respondents.

(** Keep the first interval seen for each start instant. *)
Fixpoint first_seen (seen : list datetime) (l : list interval) : list interval :=
  match l with
  | [] => []
  | x :: l' =>
      if existsb (Z.eqb (i_start x)) seen then first_seen seen l'
      else x :: first_seen (i_start x :: seen) l'
  end.

(** Offered slots in order, those a respondent slot accepts, one per start
    instant. *)
Definition find_overlap (offered respondents : list interval) (duration : timedelta)
    : list interval :=
  first_seen [] (List.filter (accepted respondents duration) offered).

End Reference.

(** The interval of an offered slot, when both ends parse. *)
Definition offered_interval (py : Python) (rs : slot) : option interval :=
  match _parse_dt py (s_start rs), _parse_dt py (s_end rs) with
  | Ok a, Ok b => Some {| i_start := a; i_end := b |}
  | _, _ => None
  end.

(** The interval of a respondent slot, when the matcher can parse it. *)
Definition respondent_interval (py : Python) (duration_minutes : Z) (cs : json)
    : option interval :=
  match _parse_candidate_slot_start py cs,
        _parse_candidate_slot_end py cs duration_minutes with
  | Ok a, Ok b => Some {| i_start := a; i_end := b |}
  | _, _ => None
  end.

(** The end instant of a respondent slot as the specification words it:
    the stated end when there is one and it is strictly later than the start,
    the start plus the duration otherwise. *)
Definition end_or_duration (stated : option datetime) (start : datetime)
    (duration_minutes : Z) : datetime :=
  match stated with
  | Some end_ =>
      if start <? end_ then end_ else start + duration_minutes * US_PER_MINUTE
  | None => start + duration_minutes * US_PER_MINUTE
  end.

(** The slot dict the matcher returns for an offered interval. *)
Definition slot_of_interval (i : interval) : slot :=
  overlap_entry (i_start i) (i_end i).

(* ===================================================================== *)
(** ** A Python runtime on ASCII text, for concrete runs *)
(* ===================================================================== *)

Module Ascii_runtime.

(** *** [strptime] for the numeric directives, on their full width *)

Record fields : Type := {
  f_year : Z; f_month : Z; f_day : Z;
  f_hour : Z; f_minute : Z; f_second : Z; f_micro : Z }.

Definition no_fields : fields :=
  {| f_year := 1900; f_month := 1; f_day := 1;
     f_hour := 0; f_minute := 0; f_second := 0; f_micro := 0 |}.

Fixpoint read_digits (w : nat) (acc : Z) (s : string) : option (Z * string) :=
  match w with
  | O => Some (acc, s)
  | S w' =>
      match s with
      | String c s' =>
          if is_digit c
          then read_digits w' (10 * acc + Z.of_nat (code c - 48)) s'
          else None
      | EmptyString => None
      end
  end.

Definition width (d : ascii) : option nat :=
  if Ascii.eqb d "Y" then Some 4%nat
  else if Ascii.eqb d "f" then Some 6%nat
  else if Ascii.eqb d "m" || Ascii.eqb d "d" || Ascii.eqb d "H"
          || Ascii.eqb d "M" || Ascii.eqb d "S" then Some 2%nat
  else None.

Definition set_field (d : ascii) (v : Z) (f : fields) : fields :=
  {| f_year := if Ascii.eqb d "Y" then v else f_year f;
     f_month := if Ascii.eqb d "m" then v else f_month f;
     f_day := if Ascii.eqb d "d" then v else f_day f;
     f_hour := if Ascii.eqb d "H" then v else f_hour f;
     f_minute := if Ascii.eqb d "M" then v else f_minute f;
     f_second := if Ascii.eqb d "S" then v else f_second f;
     f_micro := if Ascii.eqb d "f" then v else f_micro f |}.

Fixpoint read_format (fmt s : string) (f : fields) : option fields :=
  match fmt with
  | EmptyString => if String.eqb s EmptyString then Some f else None
  | String c fmt' =>
      if Ascii.eqb c "%" then
        match fmt' with
        | String d fmt'' =>
            match width d with
            | Some w =>
                match read_digits w 0 s with
                | Some (v, s') => read_format fmt'' s' (set_field d v f)
                | None => None
                end
            | None => None
            end
        | EmptyString => None
        end
      else
        match s with
        | String c' s' => if Ascii.eqb c c' then read_format fmt' s' f else None
        | EmptyString => None
        end
  end.

Definition days_in_month (y m : Z) : Z :=
  _DAYS_IN_MONTH m + (if (m =? 2) && _is_leap y then 1 else 0).

Definition fields_ok (f : fields) : bool :=
  (1 <=? f_year f) && (f_year f <=? 9999)
  && (1 <=? f_month f) && (f_month f <=? 12)
  && (1 <=? f_day f) && (f_day f <=? days_in_month (f_year f) (f_month f))
  && (f_hour f <? 24) && (f_minute f <? 60) && (f_second f <? 60).

Definition strptime_ascii (s fmt : string) : option datetime :=
  match read_format fmt s no_fields with
  | Some f =>
      let t := mk_datetime (f_year f) (f_month f) (f_day f) (f_hour f)
                 (f_minute f) (f_second f) + f_micro f in
      if fields_ok f && dt_in_range t then Some t else None
  | None => None
  end.

(** *** [str] of a decoded value (strings inside containers are quoted
    without escapes) *)

Fixpoint repr (v : json) : string :=
  match v with
  | JNull => "None"
  | JBool b => if b then "True" else "False"
  | JNum n => str_of_int n
  | JStr s => "'" ++ s ++ "'"
  | JArr l => "[" ++ join ", " (map repr l) ++ "]"
  | JObj kv =>
      "{" ++ join ", " (map (fun p => "'" ++ fst p ++ "': " ++ repr (snd p)) kv)
      ++ "}"
  end.

Definition str_ascii (v : json) : string :=
  match v with
  | JStr s => s
  | _ => repr v
  end.

(** *** [json.dumps] and [json.loads] on text without escapes *)

Fixpoint dumps (v : json) : string :=
  match v with
  | JNull => "null"
  | JBool b => if b then "true" else "false"
  | JNum n => str_of_int n
  | JStr s => dq ++ s ++ dq
  | JArr l => "[" ++ join ", " (map dumps l) ++ "]"
  | JObj kv =>
      "{" ++ join ", " (map (fun p => dq ++ fst p ++ dq ++ ": " ++ dumps (snd p)) kv)
      ++ "}"
  end.

(** Up to the closing quote. *)
Fixpoint read_string (s : string) : option (string * string) :=
  match s with
  | EmptyString => None
  | String c s' =>
      if Ascii.eqb c (ascii_of_nat 34) then Some (EmptyString, s')
      else if Ascii.eqb c (ascii_of_nat 92) then None
      else
        match read_string s' with
        | Some (a, r) => Some (String c a, r)
        | None => None
        end
  end.

Fixpoint read_number (acc : Z) (s : string) : Z * string :=
  match s with
  | String c s' =>
      if is_digit c then read_number (10 * acc + Z.of_nat (code c - 48)) s'
      else (acc, s)
  | EmptyString => (acc, s)
  end.

Definition drop_prefix (p s : string) : option string :=
  if String.prefix p s
  then Some (String.substring (String.length p)
               (String.length s - String.length p) s)
  else None.

Fixpoint read_value (fuel : nat) (s : string) : option (json * string) :=
  match fuel with
  | O => None
  | S fuel' =>
      match lstrip s with
      | EmptyString => None
      | String c rest as s0 =>
          if Ascii.eqb c "[" then
            match lstrip rest with
            | String "]" r => Some (JArr [], r)
            | _ =>
                match read_elements fuel' rest with
                | Some (l, r) => Some (JArr l, r)
                | None => None
                end
            end
          else if Ascii.eqb c "{" then
            match lstrip rest with
            | String "}" r => Some (JObj [], r)
            | _ =>
                match read_members fuel' rest with
                | Some (kv, r) => Some (JObj kv, r)
                | None => None
                end
            end
          else if Ascii.eqb c (ascii_of_nat 34) then
            match read_string rest with
            | Some (a, r) => Some (JStr a, r)
            | None => None
            end
          else if is_digit c then
            let '(n, r) := read_number 0 s0 in Some (JNum n, r)
          else if Ascii.eqb c "-" then
            match rest with
            | String c' _ =>
                if is_digit c'
                then let '(n, r) := read_number 0 rest in Some (JNum (- n), r)
                else None
            | EmptyString => None
            end
          else
            match drop_prefix "null" s0, drop_prefix "true" s0,
                  drop_prefix "false" s0 with
            | Some r, _, _ => Some (JNull, r)
            | _, Some r, _ => Some (JBool true, r)
            | _, _, Some r => Some (JBool false, r)
            | _, _, _ => None
            end
      end
  end
with read_elements (fuel : nat) (s : string) : option (list json * string) :=
  match fuel with
  | O => None
  | S fuel' =>
      match read_value fuel' s with
      | Some (v, r) =>
          match lstrip r with
          | String "," r' =>
              match read_elements fuel' r' with
              | Some (l, r'') => Some (v :: l, r'')
              | None => None
              end
          | String "]" r' => Some ([v], r')
          | _ => None
          end
      | None => None
      end
  end
with read_members (fuel : nat) (s : string) : option (dict * string) :=
  match fuel with
  | O => None
  | S fuel' =>
      match lstrip s with
      | String q r0 =>
          if negb (Ascii.eqb q (ascii_of_nat 34)) then None else
          match read_string r0 with
          | Some (k, r1) =>
              match lstrip r1 with
              | String ":" r2 =>
                  match read_value fuel' r2 with
                  | Some (v, r3) =>
                      match lstrip r3 with
                      | String "," r4 =>
                          match read_members fuel' r4 with
                          | Some (kv, r5) => Some ((k, v) :: kv, r5)
                          | None => None
                          end
                      | String "}" r4 => Some ([(k, v)], r4)
                      | _ => None
                      end
                  | None => None
                  end
              | _ => None
              end
          | None => None
          end
      | _ => None
      end
  end.

Definition loads (s : string) : option json :=
  match read_value (2 * String.length s + 2) s with
  | Some (v, r) => if String.eqb (lstrip r) EmptyString then Some v else None
  | None => None
  end.

Definition python : Python :=
  {| strptime := strptime_ascii; py_str := str_ascii; json_loads := loads |}.

End Ascii_runtime.

(* ===================================================================== *)
(** ** Scenarios: concrete collaborators and requests *)
(* ===================================================================== *)

Definition calendar_slot (start end_ : string) : slot :=
  {| s_start := start; s_end := end_; s_display := None |}.

Definition respondent_slot (date_ start_time end_time : string) : json :=
  JObj [("date", JStr date_); ("start_time", JStr start_time);
        ("end_time", JStr end_time); ("timezone", JNull)].

(** Scenario A of the specification: Monday 10:00 and Tuesday 14:00 are
    offered, the respondent takes Monday at 10. *)
Definition scenario_A_offered : list slot :=
  [ calendar_slot "2025-03-10T10:00:00" "2025-03-10T11:00:00";
    calendar_slot "2025-03-11T14:00:00" "2025-03-11T15:00:00" ].

Definition scenario_A_respondent : list json :=
  [ respondent_slot "2025-03-10" "10:00" "11:00" ].

(** A language model that answers by the first keyword found in the
    prompt. *)
Fixpoint keyword_llm (table : list (string * string)) (default : string)
    (prompt : string) : result string :=
  match table with
  | [] => Ok default
  | (keyword, response) :: table' =>
      if contains keyword prompt then Ok response
      else keyword_llm table' default prompt
  end.

Definition extraction (action : string) (slots : list json) : json :=
  JObj [("action", JStr action); ("slots", JArr slots); ("message", JStr "")].

Definition count_fetches (log : list call) : nat :=
  length (List.filter (fun c => match c with GetAvailableSlots _ _ _ _ => true | _ => false end) log).

Definition sends (log : list call) : list call :=
  List.filter (fun c => match c with Send _ _ _ => true | _ => false end) log.

Definition mock_event : dict :=
  [("event_id", JStr "mock_event_1");
   ("html_link", JStr "https://calendar.google.com/calendar/event?eid=mock_event_1");
   ("meet_link", JStr "https://meet.google.com/mock-meeting-link")].

Module Scenario.

Definition recruiter : string := "recruiter@example.com".
Definition candidate : string := "john.doe@example.com".
Definition title : string := "Data Scientist".

(** Sunday 9 March 2025, 09:00:00. *)
Definition now : datetime := mk_datetime 2025 3 9 9 0 0.

Definition monday_reply : string := "Monday at 10am works for me.".
Definition weekend_reply : string := "I'm only free Saturday morning.".
Definition withdraw_reply : string := "I would like to withdraw my application.".
Definition shapeless_reply : string := "Let me check and come back to you.".

Definition llm_table : list (string * string) :=
  [ (monday_reply,
     Ascii_runtime.dumps (extraction "provide_availability" scenario_A_respondent));
    (weekend_reply,
     Ascii_runtime.dumps
       (extraction "provide_availability"
          [respondent_slot "2025-03-15" "10:00" "11:00"]));
    (withdraw_reply, Ascii_runtime.dumps (extraction "decline" []));
    (shapeless_reply, Ascii_runtime.dumps (JObj [("slots", JArr [])])) ].

(** The collaborators of the scenarios: [fetches] gives the batch of the
    n-th availability query, [event] what event creation does. *)
Definition world (fetches : nat -> list slot) (event : result dict) : World :=
  {| llm_complete := fun _ prompt => keyword_llm llm_table "I am not sure." prompt;
     calendar_get_available_slots :=
       fun log _ _ _ _ => Ok (fetches (count_fetches log));
     calendar_create_event := fun _ _ _ _ _ _ => event;
     email_send := fun _ _ _ _ => Ok true;
     datetime_now := fun _ => now |}.

Definition empty_agent : Agent := {| active_requests := ∅; calls := [] |}.

Definition request_id : string := make_request_id now candidate.

(** The agent after [initiate_scheduling] in [W]. *)
Definition initiated (W : World) : Agent :=
  fst (initiate_scheduling Ascii_runtime.python W recruiter candidate title 60
         empty_agent).

(** One more reply from the candidate. *)
Definition reply (W : World) (body : string) (a : Agent) : Agent * result outcome :=
  handle_email_reply Ascii_runtime.python W request_id candidate body a.

(** The request of the scenario, as the agent holds it. *)
Definition request_of (a : Agent) : option InterviewRequest :=
  active_requests a !! request_id.

End Scenario.

(** Quoting a text as mail clients do: every line prefixed with ["> "]. *)
Definition quote_lines (s : string) : string :=
  "> " ++ str_replace nl (nl ++ "> ") s.

(** [body] has the line [ln] between two other lines. *)
Definition has_line (ln body : string) : Prop :=
  exists before after, body = before ++ nl ++ ln ++ nl ++ after.


(** *** Describing the matcher's loops *)

(** Some tier accepts the pair. *)
Definition tier_fires (td : Z) (o r : interval) : bool :=
  match Reference.tier o r td with Some _ => true | None => false end.

(** The entries the inner loop appends for one offered interval: one per
    accepting respondent slot. *)
Definition copies (resp : list interval) (td : Z) (o : interval) : list slot :=
  map (fun _ => slot_of_interval o) (List.filter (tier_fires td o) resp).

(** The printed starts in [seen] are those of the instants in [seen']. *)
Definition seen_agree (seen : gset string) (seen' : list datetime) : Prop :=
  forall t, dt_valid t -> isoformat t ∈ seen <-> In t seen'.

(** *** Describing states *)

(** The agent [a] with the request behind [request_id] replaced. *)
Definition put (request_id : string) (r : InterviewRequest) (a : Agent) : Agent :=
  {| active_requests := <[request_id := r]> (active_requests a); calls := calls a |}.

(** The agent [a] after the calls [l]. *)
Definition logged (l : list call) (a : Agent) : Agent :=
  {| active_requests := active_requests a; calls := calls a ++ l |}.

(** The messages the agent sends, as calls. *)
Definition offer_message (py : Python) (request_id : string) (r : InterviewRequest)
    (slots : list slot) (retry : bool) : call :=
  Send (candidate_email r) ("Interview Scheduling – " ++ job_title r)
    (availability_body py request_id r slots retry).

Definition confirmation_messages (py : Python) (r : InterviewRequest) (slot_ : slot)
    (event : option dict) : list call :=
  [ Send (candidate_email r) ("✅ Interview Confirmed – " ++ job_title r)
      (candidate_confirmation_body py r slot_ event);
    Send (recruiter_email r)
      ("✅ Interview Booked – " ++ job_title r ++ " | " ++ slot_display py slot_)
      (recruiter_confirmation_body py r slot_ event) ].

Definition cancellation_message (r : InterviewRequest) : call :=
  Send (recruiter_email r) ("Interview Declined – " ++ job_title r)
    (cancellation_body r).

Definition escalation_message (r : InterviewRequest) : call :=
  Send (recruiter_email r) ("⚠️ Manual Scheduling Required – " ++ job_title r)
    (escalation_body r).

Definition extraction_call (py : Python) (W : World) (a : Agent)
    (email_body : string) (r : InterviewRequest) : call :=
  Complete (extraction_prompt py (datetime_now W (calls a)) email_body r).

(** What the extractor returns when asked in state [a]. *)
Definition extracted (py : Python) (W : World) (a : Agent) (email_body : string)
    (r : InterviewRequest) : result json :=
  match llm_complete W (calls a)
          (extraction_prompt py (datetime_now W (calls a)) email_body r) with
  | Ok response => Ok (parse_response py response)
  | Raise e => Raise e
  end.

Definition fetch_call (r : InterviewRequest) : call :=
  GetAvailableSlots (recruiter_email r) (duration_minutes r) 21
    (Some (recruiter_slots r)).

Definition booking_call (r : InterviewRequest) (slot_ : slot) : call :=
  CreateEvent ("Interview: " ++ job_title r) (s_start slot_) (s_end slot_)
    [recruiter_email r; candidate_email r]
    ("Interview for " ++ job_title r ++ " position." ++ nl
     ++ "Scheduled by Interview Scheduling Agent.").

(** The request after a reply is heard: its history has one more entry. *)
Definition heard_request (sender body : string) (r : InterviewRequest)
    : InterviewRequest :=
  append_history (sender, body) r.

(** The state in which [handle_email_reply] dispatches on the intent. *)
Definition heard (py : Python) (W : World) (rid sender body : string)
    (r : InterviewRequest) (a : Agent) : Agent :=
  put rid (heard_request sender body r)
    (logged [extraction_call py W a body (heard_request sender body r)] a).

(** The request once the matcher's top slot is assigned to it. *)
Definition held (slots : json) (best : slot) (r : InterviewRequest)
    : InterviewRequest :=
  set_confirmed_slot (Some best) (set_candidate_slots slots r).

(** The two ways out of [_handle_no_overlap]: escalation when the batch is
    empty, a retry offer otherwise. *)
Definition no_overlap_result (py : Python) (rid : string) (r : InterviewRequest)
    (batch : list slot) (a : Agent) : Agent * result outcome :=
  match batch with
  | [] =>
      (put rid (set_status needs_human r)
         (logged [fetch_call r; escalation_message r] a),
       Ok (Out_escalated "No available slots found — escalated to recruiter"))
  | _ :: _ =>
      let r' := set_recruiter_slots (recruiter_slots r ++ batch) r in
      (put rid r' (logged [fetch_call r; offer_message py rid r' batch true] a),
       Ok (Out_awaiting_candidate "Sent alternative times"))
  end.

(** The extractor answers a dict with this intent and these slots. *)
Definition extracts (py : Python) (W : World) (a : Agent) (body : string)
    (r : InterviewRequest) (action : string) (slots : json) : Prop :=
  exists kv,
    extracted py W a body r = Ok (JObj kv)
    /\ dict_get kv "action" = Some (JStr action)
    /\ dict_get kv "slots" = Some slots.

(** The transport returns from every [send]. *)
Definition delivers (W : World) : Prop :=
  forall log to subject body, exists sent, email_send W log to subject body = Ok sent.

(** For each message sent: its recipient, and whether its body has the
    opening of a tagged line. *)
Definition tagged_sends (log : list call) : list (string * bool) :=
  flat_map (fun c =>
              match c with
              | Send to _ body => [(to, contains "[Request ID: " body)]
              | _ => []
              end) log.

(** *** Histories of replies *)

(** The statuses the code treats as outcomes of a negotiation. *)
Definition settled (s : Status) : bool :=
  match s with
  | confirmed | cancelled | needs_human => true
  | pending | awaiting_candidate => false
  end.

(** What a reply can do to a status: leave it, or set an outcome. *)
Definition status_moves (s s' : Status) : Prop := s' = s \/ settled s' = true.

(** What a reply can do to a request. *)
Definition request_moves (r r' : InterviewRequest) : Prop :=
  status_moves (status r) (status r')
  /\ (exists more, recruiter_slots r' = (recruiter_slots r ++ more)%list)
  /\ (exists more, conversation_history r' = (conversation_history r ++ more)%list)
  /\ recruiter_email r' = recruiter_email r
  /\ candidate_email r' = candidate_email r
  /\ job_title r' = job_title r
  /\ duration_minutes r' = duration_minutes r.

Definition agent_moves (a a' : Agent) : Prop :=
  forall rid r,
    active_requests a !! rid = Some r ->
    exists r', active_requests a' !! rid = Some r' /\ request_moves r r'.

(** Every run of [m] moves the agent that way. *)
Definition preserves {A} (m : M A) : Prop := forall a, agent_moves a (fst (m a)).

(** A sequence of [handle_email_reply] calls: (request id, sender, body). *)
Fixpoint handle_replies (py : Python) (W : World)
    (replies : list (string * string * string)) (a : Agent) : Agent :=
  match replies with
  | [] => a
  | (rid, sender, body) :: replies' =>
      handle_replies py W replies' (fst (handle_email_reply py W rid sender body a))
  end.

(** *** The worlds and requests of the scenarios *)

Module Scenarios.
Import Scenario.

(** The calendar offers the two slots of scenario A, then nothing. *)
Definition W_A : World :=
  world (fun n => match n with O => scenario_A_offered | _ => [] end) (Ok mock_event).

(** The calendar has no free interval at all. *)
Definition W_unavailable : World := world (fun _ => []) (Ok mock_event).

(** Event creation raises. *)
Definition W_calendar_down : World :=
  world (fun n => match n with O => scenario_A_offered | _ => [] end)
    (Raise (CollaboratorError "calendar")).

(** The widened search finds nothing the first time and one slot later. *)
Definition W_late_slot : World :=
  world (fun n =>
           match n with
           | 0%nat => scenario_A_offered
           | 1%nat => []
           | _ => [calendar_slot "2025-03-17T10:00:00" "2025-03-17T11:00:00"]
           end) (Ok mock_event).

(** The request of the scenarios once the offer is out, and once Monday is
    booked. *)
Definition offered_request : InterviewRequest :=
  set_status awaiting_candidate
    (set_recruiter_slots scenario_A_offered (new_request recruiter candidate title 60)).

Definition monday_slot : slot :=
  {| s_start := "2025-03-10T10:00:00"; s_end := "2025-03-10T11:00:00";
     s_display := Some "Monday, March 10 at 10:00 AM" |}.

Definition booked_request : InterviewRequest :=
  set_status confirmed
    (held (JArr scenario_A_respondent) monday_slot
       (heard_request candidate monday_reply offered_request)).

Definition weekend_slots : json :=
  JArr [respondent_slot "2025-03-15" "10:00" "11:00"].

(** The agent after the offer and one reply taking Monday. *)
Definition booked_agent (W : World) : Agent :=
  fst (reply W monday_reply (initiated W)).

End Scenarios.
From Stdlib Require Import Sorted.


(* ===================================================================== *)
(** ** Further code: descriptions used by the properties below *)
(* ===================================================================== *)

(** Both ends of an offered slot parse. *)
Definition parses (py : Python) (rs : slot) : bool :=
  match offered_interval py rs with
  | Some _ => true
  | None => false
  end.

(** *** What a reply can do to the agent *)

(** The assignments [handle_email_reply] makes to a request, apart from
    holding a slot and confirming. *)
Inductive plain_assignment : (InterviewRequest -> InterviewRequest) -> Prop :=
| plain_history (entry : string * string) : plain_assignment (append_history entry)
| plain_candidate_slots (v : json) : plain_assignment (set_candidate_slots v)
| plain_cancelled : plain_assignment (set_status cancelled)
| plain_needs_human : plain_assignment (set_status needs_human)
| plain_extend (new_slots : list slot) :
    plain_assignment (fun r => set_recruiter_slots (recruiter_slots r ++ new_slots) r).

(** All the assignments [handle_email_reply] makes to a request. *)
Inductive assignment : (InterviewRequest -> InterviewRequest) -> Prop :=
| assign_plain f : plain_assignment f -> assignment f
| assign_confirmed_slot (s : slot) : assignment (set_confirmed_slot (Some s))
| assign_confirmed : assignment (set_status confirmed).

(** [P] survives every logged call and every assignment to the request
    behind [rid]. *)
Definition invariant_under (rid : string) (P : Agent -> Prop) : Prop :=
  (forall a c, P a -> P (log_call c a))
  /\ (forall a f, assignment f -> P a -> P (fst (update_request rid f a))).

(** Every run of [m] from a state in [P] ends in a state in [Q], whether it
    returns or raises. *)
Definition leads {A} (P : Agent -> Prop) (m : M A) (Q : Agent -> Prop) : Prop :=
  forall a, P a -> Q (fst (m a)).

(** A confirmed request has a confirmed slot. *)
Definition confirmed_has_slot (r : InterviewRequest) : Prop :=
  status r = confirmed -> is_Some (confirmed_slot r).

Definition all_confirmed_have_slot (a : Agent) : Prop :=
  forall rid r, active_requests a !! rid = Some r -> confirmed_has_slot r.

(** The request behind [rid] holds a slot. *)
Definition holds_slot (rid : string) (a : Agent) : Prop :=
  exists r, active_requests a !! rid = Some r /\ is_Some (confirmed_slot r).

(** What the operator and the poller ask of the agent. *)
Inductive command : Type :=
| Initiate (recruiter candidate title : string) (duration : Z)
| Reply (rid sender body : string).

Definition run_command (py : Python) (W : World) (c : command) (a : Agent) : Agent :=
  match c with
  | Initiate recruiter candidate title duration =>
      fst (initiate_scheduling py W recruiter candidate title duration a)
  | Reply rid sender body => fst (handle_email_reply py W rid sender body a)
  end.

Fixpoint run_commands (py : Python) (W : World) (cs : list command) (a : Agent)
    : Agent :=
  match cs with
  | [] => a
  | c :: cs' => run_commands py W cs' (run_command py W c a)
  end.

(** [SchedulerAgent.__init__]: no request yet. *)
Definition new_agent : Agent := {| active_requests := ∅; calls := [] |}.

(** A request as [initiate_scheduling] leaves it, with no reply heard. *)
Definition just_initiated (recruiter candidate title : string) (duration : Z)
    (r : InterviewRequest) : Prop :=
  recruiter_email r = recruiter /\ candidate_email r = candidate
  /\ job_title r = title /\ duration_minutes r = duration
  /\ conversation_history r = [] /\ candidate_slots r = JArr []
  /\ confirmed_slot r = None
  /\ (status r = pending \/ status r = awaiting_candidate).

(** A UTC offset as ISO 8601 writes it: a sign, two digits, a colon, two
    digits. *)
Definition utc_offset (sg h1 h2 m1 m2 : ascii) : string :=
  String sg (String h1 (String h2 (String ":" (String m1 (String m2 EmptyString))))).

(** Every character of [s] is in the class [p]. *)
Fixpoint all_chars (p : ascii -> bool) (s : string) : bool :=
  match s with
  | EmptyString => true
  | String c s' => p c && all_chars p s'
  end.

Definition not_bracket (c : ascii) : bool := negb (Ascii.eqb c "[").

(* ===================================================================== *)
(** ** [calendar_client.py] *)
(* ===================================================================== *)

(** [timedelta(days=d)]: [None] stands for the [OverflowError]. *)
Definition timedelta_days (d : Z) : option timedelta :=
  if (-999999999 <=? d) && (d <=? 999999999) then Some (d * US_PER_DAY) else None.

(** [t.time()], as the microseconds into the day; [time(h, 0)] likewise. *)
Definition dt_time (t : datetime) : Z := t mod US_PER_DAY.
Definition time_of_hour (h : Z) : Z := h * US_PER_HOUR.

(** [t.replace(minute=0, second=0, microsecond=0)],
    [t.replace(hour=h, minute=0, second=0, microsecond=0)] and
    [t.replace(hour=h)]. *)
Definition replace_to_hour (t : datetime) : datetime := t - t mod US_PER_HOUR.
Definition replace_to_hour_of_day (t : datetime) (h : Z) : datetime :=
  t - t mod US_PER_DAY + h * US_PER_HOUR.
Definition replace_hour (t : datetime) (h : Z) : datetime :=
  t - hour t * US_PER_HOUR + h * US_PER_HOUR.

Module CalendarClient.

Definition working_hours_start : Z := time_of_hour 9.
Definition working_hours_end : Z := time_of_hour 18.
Definition working_days : list Z := [0; 1; 2; 3; 4].

Definition _overlaps_busy (start end_ : datetime) (busy : list (datetime * datetime))
    : bool :=
  existsb (fun b => (start <? snd b) && (fst b <? end_)) busy.

Definition _in_excluded (slot_ : slot) (excluded : list slot) : bool :=
  existsb (fun s => String.eqb (s_start s) (s_start slot_)) excluded.

(** [timedelta(minutes=30)] *)
Definition half_hour : timedelta := 30 * US_PER_MINUTE.

(** The [while] loop of [get_available_slots]; [None] when [fuel] rounds do
    not finish it. *)
Fixpoint slots_loop (fuel : nat) (time_max : datetime) (duration_minutes : Z)
    (busy : list (datetime * datetime)) (excluded : list slot)
    (current : datetime) (slots : list slot) : option (result (list slot)) :=
  if (current <? time_max) && (length slots <? 10)%nat then
    match fuel with
    | O => None
    | S fuel' =>
        let next (slots' : list slot) :=
          match dt_add current half_hour with
          | Some current' =>
              slots_loop fuel' time_max duration_minutes busy excluded current'
                slots'
          | None => Some (Raise OverflowError)
          end in
        if existsb (Z.eqb (weekday current)) working_days
           && (working_hours_start <=? dt_time current)
           && (dt_time current <? working_hours_end)
        then
          match timedelta_minutes duration_minutes with
          | None => Some (Raise OverflowError)
          | Some td =>
              match dt_add current td with
              | None => Some (Raise OverflowError)
              | Some slot_end =>
                  if dt_time slot_end <=? working_hours_end then
                    if negb (_overlaps_busy current slot_end busy) then
                      let slot_ := {| s_start := isoformat current;
                                      s_end := isoformat slot_end;
                                      s_display := None |} in
                      if negb (_in_excluded slot_ excluded)
                      then next (slots ++ [slot_])%list
                      else next slots
                    else next slots
                  else next slots
              end
          end
        else next slots
    end
  else Some (Ok slots).

(** [get_available_slots], from [datetime.utcnow()] and the busy periods of
    the free/busy answer as [_parse_dt] reads them.  The loop is given as
    many rounds as there are half hours before [time_max], and one more. *)
Definition get_available_slots (now : datetime) (busy : list (datetime * datetime))
    (duration_minutes days_ahead : Z) (exclude_slots : option (list slot))
    : option (result (list slot)) :=
  match timedelta_days days_ahead with
  | None => Some (Raise OverflowError)
  | Some days =>
      match dt_add now days with
      | None => Some (Raise OverflowError)
      | Some time_max =>
          match dt_add (replace_to_hour now) (2 * US_PER_HOUR) with
          | None => Some (Raise OverflowError)
          | Some current =>
              slots_loop (Z.to_nat ((time_max - current) / half_hour + 1))
                time_max duration_minutes busy
                (match exclude_slots with Some l => l | None => [] end)
                current []
          end
      end
  end.

(** The [dateTime] field [create_event] sends for a start or an end. *)
Definition event_date_time (s : string) : string :=
  if contains "Z" s || contains "+" s then s else s ++ ":00".

End CalendarClient.

Module MockCalendarClient.

(** One round of the [for day_offset in range(1, 5)] loop. *)
Definition day_slots (now : datetime) (duration_minutes : Z) (day_offset : Z)
    (slots : list slot) : result (list slot) :=
  match timedelta_days day_offset with
  | None => Raise OverflowError
  | Some days =>
      match dt_add now days with
      | None => Raise OverflowError
      | Some base =>
          if weekday base <? 5 then
            match timedelta_minutes duration_minutes with
            | None => Raise OverflowError
            | Some td =>
                match dt_add (replace_hour base 10) td with
                | None => Raise OverflowError
                | Some end10 =>
                    match dt_add (replace_hour base 14) td with
                    | None => Raise OverflowError
                    | Some end14 =>
                        Ok (slots
                            ++ [ {| s_start := isoformat (replace_hour base 10);
                                    s_end := isoformat end10; s_display := None |};
                                 {| s_start := isoformat (replace_hour base 14);
                                    s_end := isoformat end14; s_display := None |} ])%list
                    end
                end
            end
          else Ok slots
      end
  end.

Fixpoint days_loop (now : datetime) (duration_minutes : Z) (offsets : list Z)
    (slots : list slot) : result (list slot) :=
  match offsets with
  | [] => Ok slots
  | day_offset :: offsets' =>
      match day_slots now duration_minutes day_offset slots with
      | Ok slots' => days_loop now duration_minutes offsets' slots'
      | Raise e => Raise e
      end
  end.

(** [get_available_slots] of the mock, from [datetime.utcnow()]: the
    address, [days_ahead] and [exclude_slots] are not looked at. *)
Definition get_available_slots (utcnow : datetime) (email : string)
    (duration_minutes days_ahead : Z) (exclude_slots : option (list slot))
    : result (list slot) :=
  let now := replace_to_hour_of_day utcnow 10 in
  match days_loop now duration_minutes [1; 2; 3; 4] [] with
  | Ok slots => Ok (firstn 6 slots)
  | Raise e => Raise e
  end.

End MockCalendarClient.

(** *** What [CalendarClient.get_available_slots] offers *)

(** The slot that starts at [c]. *)
Definition slot_at (duration_minutes : Z) (c : datetime) : slot :=
  {| s_start := isoformat c;
     s_end := isoformat (c + duration_minutes * US_PER_MINUTE);
     s_display := None |}.

(** Where the search starts and where it stops. *)
Definition first_instant (now : datetime) : datetime :=
  replace_to_hour now + 2 * US_PER_HOUR.
Definition horizon (now : datetime) (days_ahead : Z) : datetime :=
  now + days_ahead * US_PER_DAY.

(** The instants on offer: on the half-hour grid that starts two hours after
    the hour of [now], before [now + days_ahead], on a working day, within
    working hours, with an end whose clock time is not after 18:00, clear of
    the busy periods and not excluded. *)
Definition on_offer (now : datetime) (busy : list (datetime * datetime))
    (duration_minutes days_ahead : Z) (excluded : list slot) (c : datetime) : Prop :=
  (exists k, 0 <= k /\ c = first_instant now + k * CalendarClient.half_hour)
  /\ c < horizon now days_ahead
  /\ In (weekday c) CalendarClient.working_days
  /\ CalendarClient.working_hours_start <= dt_time c
     < CalendarClient.working_hours_end
  /\ dt_time (c + duration_minutes * US_PER_MINUTE)
     <= CalendarClient.working_hours_end
  /\ (forall b_start b_end, In (b_start, b_end) busy ->
        ~ (c < b_end /\ b_start < c + duration_minutes * US_PER_MINUTE))
  /\ (forall s, In s excluded -> s_start s <> isoformat c).

(** What the loop has when it reaches [current]: the instants on offer
    before [current], in increasing order, ten at most. *)
Definition loop_reached (offer : datetime -> Prop) (current : datetime)
    (cs : list datetime) : Prop :=
  Forall offer cs /\ StronglySorted Z.lt cs /\ Forall (fun c => c < current) cs
  /\ (length cs <= 10)%nat
  /\ (forall c, offer c -> c < current -> In c cs).

(** What the loop returns: the earliest instants on offer, ten at most. *)
Definition loop_returned (offer : datetime -> Prop) (duration_minutes : Z)
    (out : list slot) : Prop :=
  exists cs,
    out = map (slot_at duration_minutes) cs
    /\ Forall offer cs /\ StronglySorted Z.lt cs /\ (length cs <= 10)%nat
    /\ (forall c, offer c ->
          (length cs < 10)%nat \/ (exists c', In c' cs /\ c <= c') -> In c cs).

(** The characters [isoformat] writes. *)
Definition iso_char (c : ascii) : bool :=
  is_digit c || Ascii.eqb c "-" || Ascii.eqb c "T" || Ascii.eqb c ":"
  || Ascii.eqb c ".".

(* ===================================================================== *)
(** ** [llm_client.py]: [LLMClient] without an API key *)
(* ===================================================================== *)

(** [s.lower()] on ASCII. *)
Fixpoint str_lower (s : string) : string :=
  match s with
  | EmptyString => EmptyString
  | String c s' => String (lower c) (str_lower s')
  end.

Module LLMClient.

Definition mock_slot (date_ start_time end_time : string) : json :=
  JObj [("date", JStr date_); ("start_time", JStr start_time);
        ("end_time", JStr end_time); ("timezone", JStr "UTC")].

Definition mock_answer (action : string) (slots : list json) (message : string)
    : json :=
  JObj [("action", JStr action); ("slots", JArr slots); ("message", JStr message)].

(** The slots of the first branch of [_mock_complete]. *)
Definition monday_tuesday : list json :=
  [ mock_slot "2025-03-10" "10:00" "11:00"; mock_slot "2025-03-11" "14:00" "15:00" ].

Definition _mock_complete (prompt : string) : string :=
  let prompt_lower := str_lower prompt in
  if contains "monday" prompt_lower || contains "tuesday" prompt_lower
     || contains "available" prompt_lower
  then
    Ascii_runtime.dumps
      (mock_answer "provide_availability" monday_tuesday
         "Candidate provided availability")
  else if contains "confirm" prompt_lower || contains "perfect" prompt_lower
          || contains "works" prompt_lower
  then
    Ascii_runtime.dumps
      (mock_answer "confirm" [] "Candidate confirmed the proposed time")
  else if contains "decline" prompt_lower || contains "not interested" prompt_lower
  then Ascii_runtime.dumps (mock_answer "decline" [] "Candidate declined")
  else
    Ascii_runtime.dumps
      (mock_answer "provide_availability" [mock_slot "2025-03-12" "09:00" "10:00"]
         "Parsed availability from email").

End LLMClient.

(* ===================================================================== *)
(** ** [main.py]: the mock mail box and the polling service *)
(* ===================================================================== *)

Module Main.

Record FakeEmail : Type := {
  sender : string;
  subject : string;
  body : string;
  request_id : option string;
  received_at : datetime }.

(** [MockEmailClient.simulate_reply], at the clock [now]: the queue with one
    more reply. *)
Definition simulate_reply (now : datetime) (sender_ body_ request_id_ : string)
    (pending_replies : list FakeEmail) : list FakeEmail :=
  (pending_replies
   ++ [ {| sender := sender_;
           subject := "Re: Interview Scheduling";
           body := body_ ++ nl ++ nl ++ "[Request ID: " ++ request_id_ ++ "]";
           request_id := Some request_id_;
           received_at := now |} ])%list.

(** [MockEmailClient.fetch_new_replies]: the replies, and the queue that is
    left. *)
Definition fetch_new_replies (pending_replies : list FakeEmail)
    : list FakeEmail * list FakeEmail :=
  (pending_replies, []).

(** The agent and the queue of the mail box. *)
Record Service : Type := {
  agent : Agent;
  pending_replies : list FakeEmail }.

(** The [for reply in replies] loop of [_check_inbox]. *)
Fixpoint route (py : Python) (W : World) (replies : list FakeEmail) : M unit :=
  match replies with
  | [] => ret tt
  | reply :: replies' =>
      match request_id reply with
      | Some (String c rid) =>
          handle_email_reply py W (String c rid) (sender reply) (body reply) ;;;
          route py W replies'
      | _ => route py W replies'
      end
  end.

Definition _check_inbox (py : Python) (W : World) (s : Service)
    : Service * result unit :=
  let '(replies, left_over) := fetch_new_replies (pending_replies s) in
  let '(a, r) := route py W replies (agent s) in
  ({| agent := a; pending_replies := left_over |}, r).

End Main.

(* ===================================================================== *)
(** ** More scenarios *)
(* ===================================================================== *)

Module Cases.
Import Scenario Scenarios.

Definition confirm_reply : string := "Yes, please go ahead.".

(** The language model of the scenarios, which also knows a confirmation. *)
Definition llm_table : list (string * string) :=
  (confirm_reply, Ascii_runtime.dumps (extraction "confirm" []))
  :: Scenario.llm_table.

Definition count_bookings (log : list call) : nat :=
  length (List.filter (fun c => match c with CreateEvent _ _ _ _ _ => true | _ => false end)
            log).

(** Scenario A with a calendar whose first event creation fails. *)
Definition W_retry : World :=
  {| llm_complete := fun _ prompt => keyword_llm llm_table "I am not sure." prompt;
     calendar_get_available_slots :=
       fun log _ _ _ _ =>
         Ok (match count_fetches log with O => scenario_A_offered | _ => [] end);
     calendar_create_event :=
       fun log _ _ _ _ _ =>
         match count_bookings log with
         | O => Raise (CollaboratorError "calendar")
         | _ => Ok mock_event
         end;
     email_send := fun _ _ _ _ => Ok true;
     datetime_now := fun _ => now |}.

(** The request once Monday is held and the booking has failed. *)
Definition held_request : InterviewRequest :=
  held (JArr scenario_A_respondent) monday_slot
    (heard_request candidate monday_reply offered_request).

(** The demo of [main.py]: the mock calendar and the language model without
    an API key; the clock stands still. *)
Definition W_demo : World :=
  {| llm_complete := fun _ prompt => Ok (LLMClient._mock_complete prompt);
     calendar_get_available_slots :=
       fun _ email d n ex => MockCalendarClient.get_available_slots now email d n ex;
     calendar_create_event := fun _ _ _ _ _ _ => Ok mock_event;
     email_send := fun _ _ _ _ => Ok true;
     datetime_now := fun _ => now |}.

(** What the mock calendar offers on that day, and the request of the demo
    once the offer is out. *)
Definition demo_offer : list slot :=
  Eval vm_compute in
    match MockCalendarClient.get_available_slots now recruiter 60 14 None with
    | Ok slots => slots
    | Raise _ => []
    end.

Definition demo_request : InterviewRequest :=
  set_status awaiting_candidate
    (set_recruiter_slots demo_offer (new_request recruiter candidate title 60)).

(** Monday 10 March 2025, 10:00 to 11:00, is busy. *)
Definition monday_busy : list (datetime * datetime) :=
  [(mk_datetime 2025 3 10 10 0 0, mk_datetime 2025 3 10 11 0 0)].

(** What [CalendarClient.get_available_slots] finds for one hour in the two
    days after the clock of the scenarios. *)
Definition monday_offer : list slot :=
  Eval vm_compute in
    match CalendarClient.get_available_slots now monday_busy 60 2 None with
    | Some (Ok slots) => slots
    | _ => []
    end.

(** Scenario A with a mail server that refuses every message:
    [EmailClient.send] returns [False]. *)
Definition W_undelivered : World :=
  {| llm_complete := fun _ prompt => keyword_llm llm_table "I am not sure." prompt;
     calendar_get_available_slots := fun _ _ _ _ _ => Ok scenario_A_offered;
     calendar_create_event := fun _ _ _ _ _ _ => Ok mock_event;
     email_send := fun _ _ _ _ => Ok false;
     datetime_now := fun _ => now |}.

(** The calendar cannot be reached. *)
Definition W_offline : World :=
  {| llm_complete := fun _ prompt => keyword_llm llm_table "I am not sure." prompt;
     calendar_get_available_slots :=
       fun _ _ _ _ _ => Raise (CollaboratorError "calendar");
     calendar_create_event := fun _ _ _ _ _ _ => Raise (CollaboratorError "calendar");
     email_send := fun _ _ _ _ => Ok true;
     datetime_now := fun _ => now |}.

(** Two replies in the mail box: one the model answers without an intent,
    then one that takes Monday. *)
Definition two_replies : list Main.FakeEmail :=
  Main.simulate_reply now candidate monday_reply request_id
    (Main.simulate_reply now candidate shapeless_reply request_id []).

(** Monday from 10:00 to 17:00 is busy. *)
Definition monday_meetings : list (datetime * datetime) :=
  [(mk_datetime 2025 3 10 10 0 0, mk_datetime 2025 3 10 17 0 0)].

Definition monday_edges : list slot :=
  Eval vm_compute in
    match CalendarClient.get_available_slots now monday_meetings 60 2 None with
    | Some (Ok slots) => slots
    | _ => []
    end.

End Cases.
(* ===================================================================== *)
(** * Properties *)
(* ===================================================================== *)

(** ** The calendar *)

Example isoformat_ex :
  isoformat (mk_datetime 2025 3 10 10 0 0) = "2025-03-10T10:00:00".
Proof. vm_compute. reflexivity. Qed.

Example strftime_ex :
  strftime (mk_datetime 2025 3 10 14 5 0) "%A, %B %d at %I:%M %p"
  = "Monday, March 10 at 02:05 PM".
Proof. vm_compute. reflexivity. Qed.

Example ord2ymd_ex :
  _ord2ymd 3652059 = (9999, 12, 31) /\ _ord2ymd 1 = (1, 1, 1)
  /\ _ord2ymd (_ymd2ord 2024 2 29) = (2024, 2, 29)
  /\ _ord2ymd (_ymd2ord 2100 3 1) = (2100, 3, 1)
  /\ _ord2ymd (_ymd2ord 2000 12 31) = (2000, 12, 31).
Proof. vm_compute. repeat split. Qed.

Lemma month_day_spec (leap : bool) (n : Z) :
  0 <= n < 365 + (if leap then 1 else 0) ->
  let month := Z.shiftr (n + 50) 5 in
  let preceding :=
    _DAYS_BEFORE_MONTH month + (if (2 <? month) && leap then 1 else 0) in
  let '(m, d) :=
    if n <? preceding then
      (month - 1,
       n - (preceding - (_DAYS_IN_MONTH (month - 1)
                         + (if (month - 1 =? 2) && leap then 1 else 0))) + 1)
    else (month, n - preceding + 1) in
  1 <= m <= 12 /\ 1 <= d <= 31
  /\ _DAYS_BEFORE_MONTH m + (if (2 <? m) && leap then 1 else 0) + d = n + 1.
Proof.
  intros Hn. rewrite Z.shiftr_div_pow2 by lia. change (2 ^ 5) with 32.
  assert (Hm : 1 <= (n + 50) / 32 <= 12).
  { destruct leap; split.
    all: try (apply Z.div_le_lower_bound; lia).
    all: apply Z.lt_succ_r; apply Z.div_lt_upper_bound; lia. }
  pose proof (Z.div_mod (n + 50) 32 ltac:(lia)) as Hdm.
  pose proof (Z.mod_pos_bound (n + 50) 32 ltac:(lia)) as Hmod.
  remember ((n + 50) / 32) as mm eqn:Emm.
  assert (Hcases : mm = 1 \/ mm = 2 \/ mm = 3 \/ mm = 4 \/ mm = 5 \/ mm = 6 \/ mm = 7
          \/ mm = 8 \/ mm = 9 \/ mm = 10 \/ mm = 11 \/ mm = 12) by lia.
  clear Emm.
  destruct leap;
    destruct Hcases as [-> | [-> | [-> | [-> | [-> | [-> | [-> | [-> | [-> | [-> | [-> | ->]]]]]]]]]]];
    cbv zeta;
    match goal with
    | |- context [n <? ?b] => destruct (Z.ltb_spec n b)
    end;
    repeat match goal with
      | |- context [Z.pos ?a - 1] =>
          let v := eval vm_compute in (Z.pos a - 1) in
          change (Z.pos a - 1) with v
      end;
    cbn in *; lia.
Qed.

Lemma year_part (q n100 n4 n1 : Z) :
  0 <= q -> 0 <= n100 <= 3 -> 0 <= n4 <= 24 -> 0 <= n1 <= 3 ->
  let y := q * 400 + 1 + n100 * 100 + n4 * 4 + n1 in
  _days_before_year y = 146097 * q + 36524 * n100 + 1461 * n4 + 365 * n1
  /\ _is_leap (y + 0) = (n1 =? 3) && (negb (n4 =? 24) || (n100 =? 3)).
Proof.
  intros Hq H100 H4 H1 y. subst y. split.
  - unfold _days_before_year. cbv zeta. Z.div_mod_to_equations. lia.
  - unfold _is_leap.
    repeat match goal with
      | |- context [?a =? ?b] => destruct (Z.eqb_spec a b)
      end; cbn; try reflexivity; exfalso; Z.div_mod_to_equations; lia.
Qed.

Lemma last_day_part (q n100 n4 : Z) :
  0 <= q -> 0 <= n100 <= 3 -> 0 <= n4 <= 23 \/ (n100 = 3 /\ n4 = 24) ->
  let y := q * 400 + n100 * 100 + n4 * 4 + 4 in
  _days_before_year y = 146097 * q + 36524 * n100 + 1461 * n4 + 365 * 3
  /\ _is_leap y = true.
Proof.
  intros Hq H100 H4 y. subst y. split.
  - unfold _days_before_year. cbv zeta. Z.div_mod_to_equations. lia.
  - unfold _is_leap.
    repeat match goal with
      | |- context [?a =? ?b] => destruct (Z.eqb_spec a b)
      end; cbn; try reflexivity; exfalso; Z.div_mod_to_equations; lia.
Qed.

Lemma ord2ymd_ok (n : Z) :
  1 <= n <= _MAXORDINAL ->
  let '(y, m, d) := _ord2ymd n in
  1 <= y <= 9999 /\ 1 <= m <= 12 /\ 1 <= d <= 31 /\ _ymd2ord y m d = n.
Proof.
  unfold _MAXORDINAL. intros Hn.
  unfold _ord2ymd, _DI400Y, _DI100Y, _DI4Y. cbv zeta.
  pose proof (Z.div_mod (n - 1) 146097 ltac:(lia)) as E400.
  pose proof (Z.mod_pos_bound (n - 1) 146097 ltac:(lia)) as B400.
  set (q := (n - 1) / 146097) in *. set (r400 := (n - 1) mod 146097) in *.
  pose proof (Z.div_mod r400 36524 ltac:(lia)) as E100.
  pose proof (Z.mod_pos_bound r400 36524 ltac:(lia)) as B100.
  set (n100 := r400 / 36524) in *. set (r100 := r400 mod 36524) in *.
  pose proof (Z.div_mod r100 1461 ltac:(lia)) as E4.
  pose proof (Z.mod_pos_bound r100 1461 ltac:(lia)) as B4.
  set (n4 := r100 / 1461) in *. set (r4 := r100 mod 1461) in *.
  pose proof (Z.div_mod r4 365 ltac:(lia)) as E1.
  pose proof (Z.mod_pos_bound r4 365 ltac:(lia)) as B1.
  set (n1 := r4 / 365) in *. set (r1 := r4 mod 365) in *.
  clearbody q r400 n100 r100 n4 r4 n1 r1.
  assert (Hq : 0 <= q <= 24) by lia.
  assert (H100 : 0 <= n100 <= 4) by lia.
  assert (H4 : 0 <= n4 <= 24) by lia.
  assert (H1 : 0 <= n1 <= 4) by lia.
  destruct (Z.eqb_spec n1 4) as [En1 | En1];
    [| destruct (Z.eqb_spec n100 4) as [En100 | En100]]; cbn [orb].
  - (* 31 December of a leap year, inside a century *)
    destruct (last_day_part q n100 n4) as [Hd Hl]; try lia.
    cbv zeta in Hd, Hl.
    unfold _ymd2ord, _days_before_month.
    replace (q * 400 + 1 + n100 * 100 + n4 * 4 + n1 - 1)
      with (q * 400 + n100 * 100 + n4 * 4 + 4) by lia.
    rewrite Hd, Hl. cbn. lia.
  - (* 31 December of a year that is a multiple of 400 *)
    destruct (last_day_part q 3 24) as [Hd Hl]; try lia.
    cbv zeta in Hd, Hl.
    unfold _ymd2ord, _days_before_month.
    replace (q * 400 + 1 + n100 * 100 + n4 * 4 + n1 - 1)
      with (q * 400 + 3 * 100 + 24 * 4 + 4) by lia.
    rewrite Hd, Hl. cbn. lia.
  - destruct (year_part q n100 n4 n1) as [Hd Hl]; try lia.
    cbv zeta in Hd, Hl. rewrite Z.add_0_r in Hl.
    set (leap := (n1 =? 3) && (negb (n4 =? 24) || (n100 =? 3))) in *.
    assert (Hr1 : 0 <= r1 < 365 + (if leap then 1 else 0)) by (destruct leap; lia).
    pose proof (month_day_spec leap r1 Hr1) as Hmd. cbv zeta in Hmd.
    destruct (r1 <? _) eqn:Elt.
    + destruct Hmd as (Hm & Hdd & Hsum).
      unfold _ymd2ord, _days_before_month. rewrite Hd, Hl.
      repeat split; try lia.
    + destruct Hmd as (Hm & Hdd & Hsum).
      unfold _ymd2ord, _days_before_month. rewrite Hd, Hl.
      repeat split; try lia.
Qed.

Lemma toordinal_range (t : datetime) :
  dt_valid t -> 1 <= toordinal t <= _MAXORDINAL.
Proof.
  unfold dt_valid, toordinal, _MAXORDINAL, US_PER_DAY, US_PER_HOUR, US_PER_MINUTE,
    US_PER_SECOND.
  intros H. Z.div_mod_to_equations. lia.
Qed.

(** An instant is its date and its time of day. *)
Lemma dt_fields (t : datetime) :
  t = (toordinal t - 1) * US_PER_DAY + hour t * US_PER_HOUR
      + minute t * US_PER_MINUTE + second t * US_PER_SECOND + microsecond t.
Proof.
  unfold toordinal, hour, minute, second, microsecond, US_PER_DAY, US_PER_HOUR,
    US_PER_MINUTE, US_PER_SECOND.
  Z.div_mod_to_equations. lia.
Qed.

Lemma time_fields_range (t : datetime) :
  0 <= hour t < 24 /\ 0 <= minute t < 60 /\ 0 <= second t < 60
  /\ 0 <= microsecond t < 1000000.
Proof.
  unfold hour, minute, second, microsecond, US_PER_DAY, US_PER_HOUR,
    US_PER_MINUTE, US_PER_SECOND.
  Z.div_mod_to_equations. lia.
Qed.

Lemma date_fields_range (t : datetime) :
  dt_valid t ->
  1 <= year t <= 9999 /\ 1 <= month t <= 12 /\ 1 <= day t <= 31
  /\ _ymd2ord (year t) (month t) (day t) = toordinal t.
Proof.
  intros H. pose proof (ord2ymd_ok _ (toordinal_range t H)) as Hok.
  unfold year, month, day. destruct (_ord2ymd (toordinal t)) as [[y m] d]. exact Hok.
Qed.

(** ** Printing numbers and instants *)

Lemma length_append (a b : string) :
  String.length (a ++ b) = (String.length a + String.length b)%nat.
Proof. induction a as [| c a IH]; simpl; [reflexivity | f_equal; exact IH]. Qed.

Lemma append_inj_length (a a' b b' : string) :
  String.length a = String.length a' -> (a ++ b = a' ++ b')%string -> a = a' /\ b = b'.
Proof.
  revert a'. induction a as [| c a IH]; intros [| c' a'] Hlen Heq; cbn in *;
    try discriminate.
  - now split.
  - injection Heq as -> Heq. destruct (IH a') as [-> ->]; [lia | assumption |].
    now split.
Qed.

Lemma append_inj_suffix_length (a a' b b' : string) :
  String.length b = String.length b' -> (a ++ b = a' ++ b')%string -> a = a' /\ b = b'.
Proof.
  intros Hlen Heq. apply append_inj_length; [| assumption].
  apply (f_equal String.length) in Heq. rewrite !length_append in Heq. lia.
Qed.

Lemma pad_length (w : nat) (n : Z) : String.length (pad w n) = w.
Proof.
  revert n. induction w as [| w IH]; intros n; cbn [pad]; [reflexivity |].
  rewrite length_append, IH. cbn. lia.
Qed.

Lemma digit_inj (a b : Z) : 0 <= a < 10 -> 0 <= b < 10 -> digit a = digit b -> a = b.
Proof.
  unfold digit. intros Ha Hb H.
  apply (f_equal nat_of_ascii) in H.
  rewrite !nat_ascii_embedding in H by lia. lia.
Qed.

Lemma pad_inj (w : nat) (a b : Z) :
  0 <= a < 10 ^ Z.of_nat w -> 0 <= b < 10 ^ Z.of_nat w -> pad w a = pad w b -> a = b.
Proof.
  revert a b. induction w as [| w IH]; intros a b Ha Hb H.
  - cbn in Ha, Hb. lia.
  - cbn [pad] in H.
    apply append_inj_suffix_length in H; [| reflexivity].
    destruct H as [Hhi Hlo]. injection Hlo as Hlo.
    rewrite Nat2Z.inj_succ, Z.pow_succ_r in Ha, Hb by lia.
    apply digit_inj in Hlo; try (apply Z.mod_pos_bound; lia).
    apply IH in Hhi; try (split; [apply Z.div_pos | apply Z.div_lt_upper_bound]; lia).
    rewrite (Z.div_mod a 10), (Z.div_mod b 10) by lia. congruence.
Qed.

(** [isoformat] tells instants apart: removing duplicates by the printed
    start is removing them by the start instant. *)
Lemma isoformat_inj (t t' : datetime) :
  dt_valid t -> dt_valid t' -> isoformat t = isoformat t' -> t = t'.
Proof.
  intros Ht Ht' H.
  destruct (date_fields_range t Ht) as (Hy & Hm & Hd & Hord).
  destruct (date_fields_range t' Ht') as (Hy' & Hm' & Hd' & Hord').
  destruct (time_fields_range t) as (Hh & Hmi & Hs & Hus).
  destruct (time_fields_range t') as (Hh' & Hmi' & Hs' & Hus').
  unfold isoformat in H.
  repeat match type of H with
    | (pad ?w ?a ++ _ = pad ?w ?b ++ _)%string =>
        apply append_inj_length in H; [| now rewrite !pad_length];
        let E := fresh "E" in destruct H as [E H];
        apply pad_inj in E; [| cbn; lia | cbn; lia]
    | (?sep ++ _ = ?sep ++ _)%string =>
        apply append_inj_length in H; [| reflexivity];
        destruct H as [_ H]
    end.
  assert (Eus : microsecond t = microsecond t').
  { destruct (Z.eqb_spec (microsecond t) 0) as [Z0 | Z0];
      destruct (Z.eqb_spec (microsecond t') 0) as [Z0' | Z0']; try discriminate H.
    - congruence.
    - apply append_inj_length in H; [| reflexivity]. destruct H as [_ H].
      apply pad_inj in H; [assumption | cbn; lia ..]. }
  rewrite (dt_fields t), (dt_fields t').
  assert (Eord : toordinal t = toordinal t') by congruence.
  congruence.
Qed.

(** ** The slot matcher *)

Local Open Scope list_scope.

Section MatcherProofs.
Context (py : Python).
Hypothesis Hpy : python_ok py.

Lemma try_formats_valid (s : string) (formats : list string) (t : datetime) :
  try_formats py s formats = Ok t -> dt_valid t.
Proof using Hpy.
  induction formats as [| fmt formats IH]; cbn; [discriminate |].
  destruct (strptime py s fmt) eqn:E; [| exact IH].
  intros [= <-]. exact (Hpy _ _ _ E).
Qed.

Lemma _parse_dt_valid (s : string) (t : datetime) :
  _parse_dt py s = Ok t -> dt_valid t.
Proof using Hpy. unfold _parse_dt. apply try_formats_valid. Qed.

Lemma offered_interval_valid (rs : slot) (o : interval) :
  offered_interval py rs = Some o -> dt_valid (i_start o).
Proof using Hpy.
  unfold offered_interval.
  destruct (_parse_dt py (s_start rs)) eqn:Ea; [| discriminate].
  destruct (_parse_dt py (s_end rs)); [| discriminate].
  intros [= <-]. cbn. eauto using _parse_dt_valid.
Qed.

(** One pair: the [if]/[elif] chain accepts exactly when a tier fires. *)
Lemma match_pair_tier (a b c e d td : Z) :
  timedelta_minutes d = Some td ->
  match_pair a b c e d
  = Ok (match Reference.tier {| i_start := a; i_end := b |}
                {| i_start := c; i_end := e |} td with
        | Some _ => true
        | None => false
        end).
Proof.
  intros Htd. unfold match_pair, Reference.tier. rewrite Htd. cbv zeta.
  cbn [i_start i_end].
  repeat match goal with
    | |- context [if ?c then _ else _] =>
        lazymatch type of c with bool => destruct c end
    end; reflexivity.
Qed.

Lemma candidate_loop_spec (a b : datetime) (cands : list json) (d td : Z)
    (overlapping : list slot) :
  timedelta_minutes d = Some td ->
  candidate_loop py a b cands d overlapping
  = Ok (overlapping
        ++ copies (omap (respondent_interval py d) cands) td
             {| i_start := a; i_end := b |}).
Proof.
  intros Htd. set (o := {| i_start := a; i_end := b |}). revert overlapping.
  induction cands as [| cs cands IH]; intros overlapping; cbn [candidate_loop].
  - unfold copies. cbn. now rewrite app_nil_r.
  - unfold copies in *. cbn [omap list_omap]. unfold respondent_interval at 1.
    destruct (_parse_candidate_slot_start py cs) as [c | x]; [| apply IH].
    destruct (_parse_candidate_slot_end py cs d) as [e | x]; [| apply IH].
    rewrite (match_pair_tier _ _ _ _ _ _ Htd). cbn [List.filter].
    fold o. fold (tier_fires td o {| i_start := c; i_end := e |}).
    destruct (tier_fires td o _); rewrite IH; [| reflexivity].
    cbn [map]. now rewrite <- app_assoc.
Qed.

Lemma recruiter_loop_spec (rs : list slot) (cands : list json) (d td : Z)
    (overlapping : list slot) :
  timedelta_minutes d = Some td ->
  Forall (fun r => is_Some (offered_interval py r)) rs ->
  recruiter_loop py rs (JArr cands) d overlapping
  = Ok (overlapping
        ++ flat_map (copies (omap (respondent_interval py d) cands) td)
             (omap (offered_interval py) rs)).
Proof.
  intros Htd Hall. revert overlapping.
  induction Hall as [| r rs [o Ho] _ IH]; intros overlapping; cbn [recruiter_loop].
  - cbn. now rewrite app_nil_r.
  - cbn [omap list_omap]. rewrite Ho. unfold offered_interval in Ho.
    destruct (_parse_dt py (s_start r)) as [a | ]; [| discriminate].
    destruct (_parse_dt py (s_end r)) as [b | ]; [| discriminate].
    injection Ho as <-. cbn [py_iter flat_map].
    rewrite (candidate_loop_spec _ _ _ _ _ _ Htd), IH.
    now rewrite <- app_assoc.
Qed.

(** *** Removing duplicates *)

Lemma unique_loop_skip (seen : gset string) (unique : list slot) (e : slot)
    (n : list interval) (rest : list slot) :
  s_start e ∈ seen ->
  unique_loop seen unique (map (fun _ => e) n ++ rest) = unique_loop seen unique rest.
Proof.
  intros Hin. induction n as [| x n IH]; cbn; [reflexivity |].
  destruct (decide (s_start e ∈ seen)); [exact IH | contradiction].
Qed.

Lemma existsb_filter_nil {A} (p : A -> bool) (l : list A) :
  existsb p l = match List.filter p l with [] => false | _ => true end.
Proof.
  induction l as [| x l IH]; cbn; [reflexivity |].
  destruct (p x); cbn; [reflexivity | exact IH].
Qed.

Lemma existsb_eqb_In (t : Z) (seen : list Z) :
  existsb (Z.eqb t) seen = true <-> In t seen.
Proof.
  rewrite existsb_exists. split.
  - intros (x & Hx & E). apply Z.eqb_eq in E. now subst.
  - intros H. exists t. split; [assumption | apply Z.eqb_refl].
Qed.

Lemma seen_agree_add (seen : gset string) (seen' : list datetime) (x : datetime) :
  dt_valid x -> seen_agree seen seen' ->
  seen_agree ({[ isoformat x ]} ∪ seen) (x :: seen').
Proof.
  intros Hx Hag t Ht. rewrite elem_of_union, elem_of_singleton. cbn.
  rewrite (Hag t Ht). split; intros [H | H]; auto.
  - left. symmetry. now apply isoformat_inj.
  - left. now subst.
Qed.

Lemma unique_loop_first_seen (resp : list interval) (td : Z)
    (offered : list interval) :
  Forall (fun o => dt_valid (i_start o)) offered ->
  forall (seen : gset string) (seen' : list datetime) (unique : list slot),
  seen_agree seen seen' ->
  unique_loop seen unique (flat_map (copies resp td) offered)
  = unique
    ++ map slot_of_interval
         (Reference.first_seen seen'
            (List.filter (Reference.accepted resp td) offered)).
Proof.
  induction 1 as [| o offered Ho _ IH]; intros seen seen' unique Hag.
  - cbn. now rewrite app_nil_r.
  - cbn [flat_map List.filter]. unfold Reference.accepted at 1.
    rewrite existsb_filter_nil. fold (tier_fires td o). unfold copies at 1.
    destruct (List.filter (tier_fires td o) resp) as [| r n].
    + cbn [map app]. now apply IH.
    + cbn [map app unique_loop Reference.first_seen].
      change (s_start (slot_of_interval o)) with (isoformat (i_start o)).
      destruct (decide (isoformat (i_start o) ∈ seen)) as [Hin | Hout].
      * rewrite unique_loop_skip by exact Hin.
        apply (Hag _ Ho), existsb_eqb_In in Hin. rewrite Hin. now apply IH.
      * rewrite unique_loop_skip by (cbn; set_solver).
        destruct (existsb (Z.eqb (i_start o)) seen') eqn:E.
        { apply existsb_eqb_In, (Hag _ Ho) in E. contradiction. }
        rewrite (IH _ (i_start o :: seen')) by now apply seen_agree_add.
        cbn [map]. now rewrite <- app_assoc.
Qed.

Lemma is_duration_timedelta (d : Z) :
  is_duration d -> timedelta_minutes d = Some (d * US_PER_MINUTE).
Proof.
  unfold is_duration, timedelta_minutes. intros Hd.
  destruct (Z.leb_spec (-999999999) (d / 1440));
    destruct (Z.leb_spec (d / 1440) 999999999); cbn; try reflexivity;
    exfalso; Z.div_mod_to_equations; lia.
Qed.


Lemma plus_duration_ok (start : datetime) (d : Z) :
  dt_valid start -> 0 < d -> dt_valid (start + d * US_PER_MINUTE) ->
  plus_duration start d = Ok (start + d * US_PER_MINUTE).
Proof.
  unfold plus_duration, timedelta_minutes, dt_add, dt_in_range, dt_valid,
    _MAXORDINAL, US_PER_DAY, US_PER_HOUR, US_PER_MINUTE, US_PER_SECOND.
  intros Hs Hd Hv.
  destruct (Z.leb_spec (-999999999) (d / 1440));
    destruct (Z.leb_spec (d / 1440) 999999999); cbn [andb];
    try (exfalso; Z.div_mod_to_equations; lia).
  destruct (Z.leb_spec 0 (start + d * (60 * 1000000)));
    destruct (Z.ltb_spec (start + d * (60 * 1000000))
                (3652059 * (24 * (60 * (60 * 1000000))))); cbn [andb];
    try reflexivity; exfalso; lia.
Qed.

Lemma plus_duration_inv (start : datetime) (d : Z) (r : result datetime) :
  plus_duration start d = r ->
  r = Ok (start + d * US_PER_MINUTE) \/ r = Raise OverflowError.
Proof.
  unfold plus_duration, timedelta_minutes, dt_add. intros <-.
  destruct (_ && _); [| now right].
  destruct (dt_in_range _); [now left | now right].
Qed.

(** C10. For a respondent slot whose date and start time parse and a
    positive duration, the end instant [_parse_candidate_slot_end] gives the
    matcher is strictly after the start: it is the stated end when that
    parses and is strictly later than the start, and the start plus the
    duration in every other case (end absent, empty, unparseable, equal to
    the start or earlier).  The function returns whenever the start plus the
    duration is an instant a [datetime] can hold; past that range it raises
    [OverflowError], the matcher skips the slot, and no interval reaches the
    overlap computation. *)
Theorem candidate_slot_end_after_start (cs : json) (duration_minutes_ : Z)
    (start : datetime) :
  0 < duration_minutes_ ->
  _parse_candidate_slot_start py cs = Ok start ->
  (forall end_, _parse_candidate_slot_end py cs duration_minutes_ = Ok end_ ->
     start < end_
     /\ end_ = end_or_duration (stated_end_time py cs) start duration_minutes_)
  /\ (forall e, _parse_candidate_slot_end py cs duration_minutes_ = Raise e ->
       e = OverflowError
       /\ ~ dt_valid (end_or_duration (stated_end_time py cs) start duration_minutes_))
  /\ (dt_valid (start + duration_minutes_ * US_PER_MINUTE) ->
      _parse_candidate_slot_end py cs duration_minutes_
      = Ok (end_or_duration (stated_end_time py cs) start duration_minutes_)).
Proof using Hpy.
  intros Hd Hstart.
  assert (Hvalid : dt_valid start).
  { unfold _parse_candidate_slot_start in Hstart.
    destruct cs as [| | | | | kv]; try discriminate.
    destruct (negb _); [discriminate |].
    destruct (py_slice 5 _); [| discriminate].
    destruct (strptime py _ _) eqn:E; [| discriminate].
    injection Hstart as <-. exact (Hpy _ _ _ E). }
  unfold _parse_candidate_slot_end, end_or_duration. rewrite Hstart.
  assert (Hplus : forall end_, plus_duration start duration_minutes_ = Ok end_ ->
            start < end_ /\ end_ = start + duration_minutes_ * US_PER_MINUTE).
  { intros end_ H. destruct (plus_duration_inv _ _ _ H) as [[= ->] | [=]].
    unfold US_PER_MINUTE, US_PER_SECOND. split; [lia | reflexivity]. }
  assert (Hraise : forall e, plus_duration start duration_minutes_ = Raise e ->
            e = OverflowError /\ ~ dt_valid (start + duration_minutes_ * US_PER_MINUTE)).
  { intros e H. split.
    - destruct (plus_duration_inv _ _ _ H) as [[=] | [= ->]]. reflexivity.
    - intros Hv. rewrite (plus_duration_ok _ _ Hvalid Hd Hv) in H. discriminate. }
  assert (Hfallback :
    (forall end_, plus_duration start duration_minutes_ = Ok end_ ->
       start < end_ /\ end_ = start + duration_minutes_ * US_PER_MINUTE)
    /\ (forall e, plus_duration start duration_minutes_ = Raise e ->
         e = OverflowError
         /\ ~ dt_valid (start + duration_minutes_ * US_PER_MINUTE))
    /\ (dt_valid (start + duration_minutes_ * US_PER_MINUTE) ->
        plus_duration start duration_minutes_
        = Ok (start + duration_minutes_ * US_PER_MINUTE))).
  { split; [exact Hplus |]. split; [exact Hraise |].
    intros Hv. now apply plus_duration_ok. }
  destruct (stated_end_time py cs) as [stated |]; [| exact Hfallback].
  destruct (Z.ltb_spec start stated) as [Hlt | Hge]; [| exact Hfallback].
  split; [| split].
  - intros end_ [= <-]. split; [exact Hlt | reflexivity].
  - intros e [=].
  - reflexivity.
Qed.

End MatcherProofs.

(** ** Concrete runs of the matcher *)

Lemma python_ok_ascii : python_ok Ascii_runtime.python.
Proof.
  intros s fmt t. cbn. unfold Ascii_runtime.strptime_ascii.
  destruct (Ascii_runtime.read_format fmt s _) as [f |]; [| discriminate].
  destruct (Ascii_runtime.fields_ok f); [| discriminate]. cbn [andb].
  destruct (dt_in_range _) eqn:E; [| discriminate].
  intros [= <-]. unfold dt_in_range in E. unfold dt_valid. lia.
Qed.

Example scenario_A_match :
  _find_overlap Ascii_runtime.python scenario_A_offered
    (JArr scenario_A_respondent) 60
  = Ok [ {| s_start := "2025-03-10T10:00:00"; s_end := "2025-03-10T11:00:00";
            s_display := Some "Monday, March 10 at 10:00 AM" |} ].
Proof. vm_compute. reflexivity. Qed.

(** The boundary of tier 4: the intersection is exactly the duration. *)
Example tier4_boundary :
  _find_overlap Ascii_runtime.python
    [ calendar_slot "2025-03-10T09:30:00" "2025-03-10T11:00:00" ]
    (JArr [ respondent_slot "2025-03-12" "10:00" "11:00";
            respondent_slot "2025-03-10" "10:00" "11:00" ]) 60
  = Ok [ {| s_start := "2025-03-10T09:30:00"; s_end := "2025-03-10T11:00:00";
            s_display := Some "Monday, March 10 at 09:30 AM" |} ]
  /\ Reference.tier
       {| i_start := mk_datetime 2025 3 10 9 30 0; i_end := mk_datetime 2025 3 10 11 0 0 |}
       {| i_start := mk_datetime 2025 3 10 10 0 0; i_end := mk_datetime 2025 3 10 11 0 0 |}
       (60 * US_PER_MINUTE) = Some 4%nat.
Proof. vm_compute. split; reflexivity. Qed.


(** ** Correlation tokens *)

(** The token of a candidate whose address has a dot before the [@]. *)
Example make_request_id_dotted :
  make_request_id Scenario.now "john.doe@example.com" = "req_20250309090000_john.doe".
Proof. vm_compute. reflexivity. Qed.

(** Tokens made of word characters and hyphens survive quoting. *)
Example extract_request_id_plain :
  EmailClient._extract_request_id
    ("Monday works." ++ nl ++ nl
     ++ quote_lines (request_id_line
                       (make_request_id Scenario.now "vepadanandini123@gmail.com")))
  = Some (make_request_id Scenario.now "vepadanandini123@gmail.com").
Proof. vm_compute. reflexivity. Qed.

(** C7. The token of [john.doe@example.com], embedded by the tagged line of
    the offer message and quoted back with ["> "] before every line, is not
    recovered: the pattern of the tagged form stops at the dot, and the bare
    pattern returns the token cut before it. *)
Theorem extract_request_id_truncates_dotted_token :
  let token := make_request_id Scenario.now "john.doe@example.com" in
  let body :=
    availability_body Ascii_runtime.python token
      (new_request Scenario.recruiter "john.doe@example.com" Scenario.title 60)
      scenario_A_offered false in
  token = "req_20250309090000_john.doe"
  /\ contains (request_id_line token) (quote_lines body) = true
  /\ EmailClient._extract_request_id
       (Scenario.monday_reply ++ nl ++ nl ++ quote_lines body)
     = Some "req_20250309090000_john"
  /\ EmailClient._extract_request_id (request_id_line token)
     = Some "req_20250309090000_john".
Proof. vm_compute. repeat split; reflexivity. Qed.

(** ** Outbound messages *)

Lemma append_cons (x : ascii) (a b : string) :
  (String x a ++ b = String x (a ++ b))%string.
Proof. reflexivity. Qed.

Lemma string_app_assoc (a b c : string) : ((a ++ b) ++ c = a ++ (b ++ c))%string.
Proof.
  induction a as [| x a IH]; [reflexivity |].
  rewrite !append_cons. f_equal. exact IH.
Qed.

Lemma join_cons (sep x y : string) (l : list string) :
  join sep (x :: y :: l) = (x ++ sep ++ join sep (y :: l))%string.
Proof. reflexivity. Qed.

Lemma join_app (sep : string) (l1 l2 : list string) :
  l1 <> [] -> l2 <> [] ->
  join sep (l1 ++ l2) = (join sep l1 ++ sep ++ join sep l2)%string.
Proof.
  intros H1 H2. induction l1 as [| x l1 IH]; [contradiction |].
  destruct l1 as [| y l1].
  - destruct l2 as [| z l2]; [contradiction | reflexivity].
  - change ((x :: y :: l1) ++ l2) with (x :: y :: (l1 ++ l2)).
    rewrite !join_cons. change (y :: l1 ++ l2) with ((y :: l1) ++ l2).
    rewrite IH by discriminate. now rewrite !string_app_assoc.
Qed.

(** A line that is neither the first nor the last of a text. *)
Lemma join_has_line (l1 l2 : list string) (ln : string) :
  l1 <> [] -> l2 <> [] -> has_line ln (join nl (l1 ++ ln :: l2)).
Proof.
  intros H1 H2. exists (join nl l1), (join nl l2).
  rewrite join_app by (assumption || discriminate).
  destruct l2 as [| y l2]; [contradiction |]. now rewrite join_cons.
Qed.

Section MessageProofs.
Context (py : Python) (W : World).

(** C8, as the code has it.  The offer messages, the initial one and every
    retry, carry the line [[Request ID: <token>]] with the token of their
    request between two other lines, and [_send_availability_request] sends
    exactly one such message, to the candidate. *)
Theorem offer_carries_request_id_line (request_id : string)
    (request : InterviewRequest) (slots : list slot) (retry : bool) (a : Agent) :
  has_line (request_id_line request_id)
    (availability_body py request_id request slots retry)
  /\ calls (fst (_send_availability_request py W request_id request slots retry a))
     = calls a ++ [offer_message py request_id request slots retry].
Proof.
  split.
  - unfold availability_body.
    match goal with
    | |- has_line _ (join nl (?a1 :: ?a2 :: ?a3 :: ?a4 :: ?a5 :: ?a6 :: ?a7 :: ?a8
                               :: ?a9 :: ?a10 :: ?a11 :: ?a12 :: ?a13 :: ?a14
                               :: ?ln :: ?rest)) =>
        apply (join_has_line
                 [a1; a2; a3; a4; a5; a6; a7; a8; a9; a10; a11; a12; a13; a14]
                 rest ln); discriminate
    end.
  - unfold _send_availability_request, bind, email_send_, ret.
    destruct (email_send W _ _ _ _); reflexivity.
Qed.

End MessageProofs.

(** ** Running the agent *)

Section AgentProofs.
Context (py : Python) (W : World).

Lemma put_put (rid : string) (r1 r2 : InterviewRequest) (a : Agent) :
  put rid r2 (put rid r1 a) = put rid r2 a.
Proof. unfold put. cbn. now rewrite insert_insert_eq. Qed.

Lemma put_logged (rid : string) (r : InterviewRequest) (l : list call) (a : Agent) :
  logged l (put rid r a) = put rid r (logged l a).
Proof. reflexivity. Qed.

Lemma logged_logged (l1 l2 : list call) (a : Agent) :
  logged l2 (logged l1 a) = logged (l1 ++ l2) a.
Proof. unfold logged. cbn. now rewrite app_assoc. Qed.

Lemma log_call_logged (c : call) (a : Agent) : log_call c a = logged [c] a.
Proof. reflexivity. Qed.

Lemma lookup_put (rid : string) (r : InterviewRequest) (a : Agent) :
  active_requests (put rid r a) !! rid = Some r.
Proof. cbn. apply lookup_insert_eq. Qed.

Lemma update_request_at (rid : string) (f : InterviewRequest -> InterviewRequest)
    (r : InterviewRequest) (a : Agent) :
  active_requests a !! rid = Some r ->
  update_request rid f a = (put rid (f r) a, Ok tt).
Proof.
  intros H. unfold update_request, put. do 2 f_equal.
  apply map_eq. intros k. rewrite lookup_alter, lookup_insert.
  case_decide; [subst; now rewrite H | reflexivity].
Qed.

Lemma update_request_put (rid : string) (f : InterviewRequest -> InterviewRequest)
    (r : InterviewRequest) (a : Agent) :
  update_request rid f (put rid r a) = (put rid (f r) a, Ok tt).
Proof. rewrite (update_request_at rid f r) by apply lookup_put. now rewrite put_put. Qed.

Lemma get_request_at (rid : string) (r : InterviewRequest) (a : Agent) :
  active_requests a !! rid = Some r -> get_request rid a = (a, Ok r).
Proof. intros H. unfold get_request. now rewrite H. Qed.

Lemma get_request_put (rid : string) (r : InterviewRequest) (a : Agent) :
  get_request rid (put rid r a) = (put rid r a, Ok r).
Proof. apply get_request_at, lookup_put. Qed.

Lemma bind_ok {A B} (m : M A) (k : A -> M B) (a a' : Agent) (x : A) :
  m a = (a', Ok x) -> bind m k a = k x a'.
Proof. intros H. unfold bind. now rewrite H. Qed.

Lemma bind_raise {A B} (m : M A) (k : A -> M B) (a a' : Agent) (e : exn) :
  m a = (a', Raise e) -> bind m k a = (a', Raise e).
Proof. intros H. unfold bind. now rewrite H. Qed.

Lemma email_send_at (to subject body : string) (a : Agent) (sent : bool) :
  email_send W (calls a) to subject body = Ok sent ->
  email_send_ W to subject body a = (logged [Send to subject body] a, Ok sent).
Proof. intros H. unfold email_send_. now rewrite H. Qed.

Hypothesis Hdelivers : delivers W.

Lemma send_message_at (to subject body : string) (a : Agent) :
  (_ <- email_send_ W to subject body ;; ret tt) a
  = (logged [Send to subject body] a, Ok tt).
Proof using Hdelivers.
  destruct (Hdelivers (calls a) to subject body) as [sent E].
  now rewrite (bind_ok _ _ _ _ _ (email_send_at _ _ _ _ _ E)).
Qed.

Lemma _send_availability_request_at (rid : string) (r : InterviewRequest)
    (slots : list slot) (retry : bool) (a : Agent) :
  _send_availability_request py W rid r slots retry a
  = (logged [offer_message py rid r slots retry] a, Ok tt).
Proof using Hdelivers. apply send_message_at. Qed.

Lemma _send_confirmation_at (r : InterviewRequest) (slot_ : slot)
    (event : option dict) (a : Agent) :
  _send_confirmation py W r slot_ event a
  = (logged (confirmation_messages py r slot_ event) a, Ok tt).
Proof using Hdelivers.
  unfold _send_confirmation, confirmation_messages.
  match goal with
  | |- bind (email_send_ W ?to ?subject ?body) _ _ = _ =>
      destruct (Hdelivers (calls a) to subject body) as [s1 E1];
      rewrite (bind_ok _ _ _ _ _ (email_send_at _ _ _ _ _ E1))
  end.
  rewrite send_message_at. now rewrite logged_logged.
Qed.

Lemma _send_cancellation_notice_at (r : InterviewRequest) (a : Agent) :
  _send_cancellation_notice W r a = (logged [cancellation_message r] a, Ok tt).
Proof using Hdelivers. apply send_message_at. Qed.

Lemma _escalate_to_recruiter_at (r : InterviewRequest) (a : Agent) :
  _escalate_to_recruiter W r a = (logged [escalation_message r] a, Ok tt).
Proof using Hdelivers. apply send_message_at. Qed.

Lemma _extract_availability_with_llm_at (email_body : string)
    (r : InterviewRequest) (a : Agent) :
  _extract_availability_with_llm py W email_body r a
  = (logged [extraction_call py W a email_body r] a, extracted py W a email_body r).
Proof.
  unfold _extract_availability_with_llm, extracted, extraction_call, bind, now_,
    llm_complete_, ret.
  cbn. destruct (llm_complete W _ _); reflexivity.
Qed.

Lemma calendar_get_available_slots_at (r : InterviewRequest) (a : Agent) :
  calendar_get_available_slots_ W (recruiter_email r) (duration_minutes r) 21
    (Some (recruiter_slots r)) a
  = (logged [fetch_call r] a,
     calendar_get_available_slots W (calls a) (recruiter_email r)
       (duration_minutes r) 21 (Some (recruiter_slots r))).
Proof. reflexivity. Qed.

Lemma _handle_no_overlap_at (rid : string) (r : InterviewRequest)
    (batch : list slot) (a : Agent) :
  active_requests a !! rid = Some r ->
  calendar_get_available_slots W (calls a) (recruiter_email r)
    (duration_minutes r) 21 (Some (recruiter_slots r)) = Ok batch ->
  _handle_no_overlap py W rid a = no_overlap_result py rid r batch a.
Proof using Hdelivers.
  intros Hr Hfetch. unfold _handle_no_overlap, no_overlap_result.
  rewrite (bind_ok _ _ _ _ _ (get_request_at _ _ _ Hr)).
  erewrite bind_ok by (rewrite calendar_get_available_slots_at, Hfetch; reflexivity).
  destruct batch as [| s batch].
  - erewrite bind_ok by (apply update_request_at; exact Hr).
    rewrite (bind_ok _ _ _ _ _ (get_request_put _ _ _)).
    erewrite bind_ok by apply _escalate_to_recruiter_at.
    unfold ret. rewrite put_logged, logged_logged. reflexivity.
  - erewrite bind_ok by (apply update_request_at; exact Hr).
    rewrite (bind_ok _ _ _ _ _ (get_request_put _ _ _)).
    erewrite bind_ok by apply _send_availability_request_at.
    unfold ret. rewrite put_logged, logged_logged. reflexivity.
Qed.

Lemma _process_no_match_at (rid : string) (r : InterviewRequest) (slots : json)
    (batch : list slot) (a : Agent) :
  active_requests a !! rid = Some r ->
  truthy slots = false
  \/ (py_len slots <> None
      /\ _find_overlap py (recruiter_slots r) slots (duration_minutes r) = Ok []) ->
  calendar_get_available_slots W (calls a) (recruiter_email r)
    (duration_minutes r) 21 (Some (recruiter_slots r)) = Ok batch ->
  _process_candidate_availability py W rid slots a
  = no_overlap_result py rid (set_candidate_slots slots r) batch a.
Proof using Hdelivers.
  intros Hr Hno Hfetch. unfold _process_candidate_availability.
  erewrite bind_ok by (apply update_request_at; exact Hr).
  assert (Hnext : _handle_no_overlap py W rid (put rid (set_candidate_slots slots r) a)
                  = no_overlap_result py rid (set_candidate_slots slots r) batch a).
  { rewrite (_handle_no_overlap_at rid (set_candidate_slots slots r) batch)
      by (apply lookup_put || exact Hfetch).
    unfold no_overlap_result. destruct batch; cbn [calls put];
      now rewrite <- put_logged, put_put. }
  destruct Hno as [Hfalsy | [Hlen Hover]].
  - rewrite Hfalsy. exact Hnext.
  - destruct (truthy slots); [| exact Hnext]. cbn [negb].
    rewrite (bind_ok _ _ _ _ _ (get_request_put _ _ _)). cbn [recruiter_slots
      duration_minutes set_candidate_slots]. rewrite Hover.
    unfold lift at 1. unfold bind at 1.
    destruct (py_len slots); [exact Hnext | contradiction].
Qed.

Lemma _process_match_at (rid : string) (r : InterviewRequest) (l : list json)
    (best : slot) (rest : list slot) (a : Agent) :
  active_requests a !! rid = Some r ->
  l <> [] ->
  _find_overlap py (recruiter_slots r) (JArr l) (duration_minutes r)
  = Ok (best :: rest) ->
  let r1 := held (JArr l) best r in
  _process_candidate_availability py W rid (JArr l) a
  = match calendar_create_event W (calls a) ("Interview: " ++ job_title r)
            (s_start best) (s_end best) [recruiter_email r; candidate_email r]
            ("Interview for " ++ job_title r ++ " position." ++ nl
             ++ "Scheduled by Interview Scheduling Agent.")%string with
    | Ok event =>
        (put rid (set_status confirmed r1)
           (logged (booking_call r best
                    :: confirmation_messages py r best (Some event)) a),
         Ok (Out_confirmed best (Some event)))
    | Raise e => (put rid r1 (logged [booking_call r best] a), Raise e)
    end.
Proof using Hdelivers.
  intros Hr Hl Hover r1. unfold _process_candidate_availability.
  erewrite bind_ok by (apply update_request_at; exact Hr).
  destruct l as [| c l]; [contradiction |]. cbn [truthy negb].
  rewrite (bind_ok _ _ _ _ _ (get_request_put _ _ _)).
  cbn [recruiter_slots duration_minutes set_candidate_slots]. rewrite Hover.
  unfold lift at 1. unfold bind at 1. cbn [py_len].
  rewrite (bind_ok _ _ _ _ _ (update_request_put _ _ _ _)).
  unfold bind at 1. unfold calendar_create_event_ at 1.
  cbn [calls put job_title recruiter_email candidate_email set_candidate_slots].
  destruct (calendar_create_event W _ _ _ _ _ _) as [event | e].
  - rewrite log_call_logged, put_logged.
    rewrite (bind_ok _ _ _ _ _ (update_request_put _ _ _ _)).
    rewrite (bind_ok _ _ _ _ _ (get_request_put _ _ _)).
    erewrite bind_ok by apply _send_confirmation_at.
    unfold ret. rewrite put_logged, logged_logged. reflexivity.
  - reflexivity.
Qed.

Lemma handle_email_reply_at (rid sender body : string) (r : InterviewRequest)
    (a : Agent) :
  active_requests a !! rid = Some r ->
  handle_email_reply py W rid sender body a
  = match extracted py W a body (heard_request sender body r) with
    | Ok v => dispatch py W rid v (heard py W rid sender body r a)
    | Raise e => (heard py W rid sender body r a, Raise e)
    end.
Proof.
  intros Hr. unfold handle_email_reply, heard, heard_request. rewrite Hr.
  erewrite bind_ok by (apply update_request_at; exact Hr).
  rewrite (bind_ok _ _ _ _ _ (get_request_put _ _ _)).
  unfold bind at 1. rewrite _extract_availability_with_llm_at.
  unfold extracted, extraction_call. cbn [calls put].
  destruct (llm_complete W _ _); reflexivity.
Qed.

Lemma handle_email_reply_unknown (rid sender body : string) (a : Agent) :
  active_requests a !! rid = None ->
  handle_email_reply py W rid sender body a = (a, Ok (Out_error "Unknown request ID")).
Proof. intros H. unfold handle_email_reply. now rewrite H. Qed.

(** An answer that [json.loads] rejects, as a whole and between its outer
    braces, makes the agent wait: only the history changes, and only the
    extractor is called. *)
Lemma rejected_answer_waits (rid sender body response : string)
    (r : InterviewRequest) (a : Agent) :
  active_requests a !! rid = Some r ->
  llm_complete W (calls a)
    (extraction_prompt py (datetime_now W (calls a)) body
       (heard_request sender body r)) = Ok response ->
  parse_response py response = unclear response ->
  handle_email_reply py W rid sender body a
  = (heard py W rid sender body r a, Ok Out_awaiting_response).
Proof.
  intros Hr Hllm Hparse. rewrite (handle_email_reply_at _ _ _ _ _ Hr).
  unfold extracted. rewrite Hllm, Hparse. reflexivity.
Qed.

Lemma parse_response_rejected (response : string) :
  json_loads py
    (strip (str_replace "```" "" (str_replace "```json" "" (strip response))))
  = None ->
  (forall m, Re.search false braces response = Some m ->
             json_loads py (Re.group0 m) = None) ->
  parse_response py response = unclear response.
Proof.
  intros H1 H2. unfold parse_response. rewrite H1.
  destruct (Re.search false braces response) as [m |]; [| reflexivity].
  now rewrite (H2 m eq_refl).
Qed.

Lemma dispatch_provide_availability (rid : string) (kv : dict) (slots : json)
    (a : Agent) :
  dict_get kv "action" = Some (JStr "provide_availability") ->
  dict_get kv "slots" = Some slots ->
  dispatch py W rid (JObj kv) a = _process_candidate_availability py W rid slots a.
Proof. intros Ha Hs. unfold dispatch. rewrite Ha. cbn. now rewrite Hs. Qed.

(** A reply whose availability matches: what [handle_email_reply] does,
    by the outcome of event creation. *)
Lemma reply_with_match (rid sender body : string) (r : InterviewRequest)
    (l : list json) (best : slot) (rest : list slot) (a : Agent) :
  active_requests a !! rid = Some r ->
  extracts py W a body (heard_request sender body r) "provide_availability" (JArr l) ->
  l <> [] ->
  _find_overlap py (recruiter_slots r) (JArr l) (duration_minutes r)
  = Ok (best :: rest) ->
  let r1 := heard_request sender body r in
  let c := extraction_call py W a body r1 in
  handle_email_reply py W rid sender body a
  = match calendar_create_event W (calls a ++ [c]) ("Interview: " ++ job_title r)
            (s_start best) (s_end best) [recruiter_email r; candidate_email r]
            ("Interview for " ++ job_title r ++ " position." ++ nl
             ++ "Scheduled by Interview Scheduling Agent.")%string with
    | Ok event =>
        (put rid (set_status confirmed (held (JArr l) best r1))
           (logged (c :: booking_call r best
                    :: confirmation_messages py r best (Some event)) a),
         Ok (Out_confirmed best (Some event)))
    | Raise e =>
        (put rid (held (JArr l) best r1) (logged [c; booking_call r best] a), Raise e)
    end.
Proof using Hdelivers.
  intros Hr (kv & Hex & Hact & Hslots) Hl Hover r1 c.
  rewrite (handle_email_reply_at _ _ _ _ _ Hr), Hex.
  rewrite (dispatch_provide_availability _ _ _ _ Hact Hslots).
  unfold heard. fold r1. fold c.
  rewrite (_process_match_at rid r1 l best rest) by (apply lookup_put || assumption).
  cbn [calls put logged job_title recruiter_email candidate_email r1 heard_request
       append_history].
  destruct (calendar_create_event W _ _ _ _ _ _) as [event | e];
    unfold put, logged; cbn [calls active_requests];
    rewrite insert_insert_eq, <- app_assoc; reflexivity.
Qed.

(** C6, as the code has it.  In a reply whose availability matches, the
    request is mutated between the collaborator calls, in source order: the
    respondent slots and [confirmed_slot] are assigned before event creation
    is called, and [status] is set after it returns, before the confirmation
    messages.  So when event creation raises, the exception leaves
    [handle_email_reply] with the reply in the history, the respondent slots
    replaced, [confirmed_slot] set to the top match and [status] as it was;
    when it returns, the step ends with [confirmed_slot] set and [status]
    [confirmed]. *)
Theorem booking_mutates_between_calls (rid sender body : string)
    (r : InterviewRequest) (l : list json) (best : slot) (rest : list slot)
    (a : Agent) :
  active_requests a !! rid = Some r ->
  extracts py W a body (heard_request sender body r) "provide_availability" (JArr l) ->
  l <> [] ->
  _find_overlap py (recruiter_slots r) (JArr l) (duration_minutes r)
  = Ok (best :: rest) ->
  let r1 := heard_request sender body r in
  let c := extraction_call py W a body r1 in
  let a' := fst (handle_email_reply py W rid sender body a) in
  let out := snd (handle_email_reply py W rid sender body a) in
  match calendar_create_event W (calls a ++ [c]) ("Interview: " ++ job_title r)
          (s_start best) (s_end best) [recruiter_email r; candidate_email r]
          ("Interview for " ++ job_title r ++ " position." ++ nl
           ++ "Scheduled by Interview Scheduling Agent.")%string with
  | Raise e =>
      out = Raise e
      /\ calls a' = calls a ++ [c; booking_call r best]
      /\ exists r', active_requests a' !! rid = Some r'
                    /\ confirmed_slot r' = Some best
                    /\ status r' = status r
                    /\ candidate_slots r' = JArr l
                    /\ conversation_history r'
                       = conversation_history r ++ [(sender, body)]
  | Ok event =>
      out = Ok (Out_confirmed best (Some event))
      /\ calls a' = calls a ++ c :: booking_call r best
                              :: confirmation_messages py r best (Some event)
      /\ exists r', active_requests a' !! rid = Some r'
                    /\ confirmed_slot r' = Some best
                    /\ status r' = confirmed
  end.
Proof using Hdelivers.
  intros Hr Hex Hl Hover r1 c a' out. subst a' out.
  rewrite (reply_with_match _ _ _ _ _ _ _ _ Hr Hex Hl Hover). fold r1. fold c.
  destruct (calendar_create_event W _ _ _ _ _ _) as [event | e]; cbn [fst snd].
  - split; [reflexivity |]. split; [reflexivity |].
    eexists. split; [apply lookup_put |]. split; reflexivity.
  - split; [reflexivity |]. split; [reflexivity |].
    eexists. split; [apply lookup_put |]. repeat split; reflexivity.
Qed.

(** C2, as the code has it.  A confirmed request is not protected against
    the same reply arriving again: when the extractor yields the matching
    availability once more and event creation returns, [confirmed_slot] keeps
    its value and [status] stays [confirmed], but the agent asks the
    extractor, creates a calendar event and sends the two confirmation
    messages again, and appends the reply to the history again. *)
Theorem repeated_reply_books_again (rid sender body : string)
    (r : InterviewRequest) (l : list json) (best : slot) (rest : list slot)
    (event : dict) (a : Agent) :
  active_requests a !! rid = Some r ->
  status r = confirmed ->
  confirmed_slot r = Some best ->
  extracts py W a body (heard_request sender body r) "provide_availability" (JArr l) ->
  l <> [] ->
  _find_overlap py (recruiter_slots r) (JArr l) (duration_minutes r)
  = Ok (best :: rest) ->
  let c := extraction_call py W a body (heard_request sender body r) in
  calendar_create_event W (calls a ++ [c]) ("Interview: " ++ job_title r)
    (s_start best) (s_end best) [recruiter_email r; candidate_email r]
    ("Interview for " ++ job_title r ++ " position." ++ nl
     ++ "Scheduled by Interview Scheduling Agent.")%string = Ok event ->
  let a' := fst (handle_email_reply py W rid sender body a) in
  snd (handle_email_reply py W rid sender body a)
  = Ok (Out_confirmed best (Some event))
  /\ calls a' = calls a ++ c :: booking_call r best
                          :: confirmation_messages py r best (Some event)
  /\ exists r', active_requests a' !! rid = Some r'
                /\ confirmed_slot r' = confirmed_slot r
                /\ status r' = confirmed
                /\ conversation_history r'
                   = conversation_history r ++ [(sender, body)].
Proof using Hdelivers.
  intros Hr Hst Hslot Hex Hl Hover c Hev a'. subst a'.
  rewrite (reply_with_match _ _ _ _ _ _ _ _ Hr Hex Hl Hover). fold c. rewrite Hev.
  cbn [fst snd]. split; [reflexivity |]. split; [reflexivity |].
  eexists. split; [apply lookup_put |]. rewrite Hslot. repeat split; reflexivity.
Qed.

(** C5, as the code has it.  When the respondent slot list that reaches
    [_process_candidate_availability] is empty, or the matcher finds no
    overlap, the agent asks the calendar for availability over 21 days,
    passing the offered slots as the ones to exclude.  A non-empty batch is
    appended to the offered slots and offered to the candidate in one retry
    message, [status] being left as it was; an empty batch sets [status] to
    [needs_human] and sends one escalation notice to the recruiter, and
    nothing else. *)
Theorem no_match_retries_or_escalates (rid : string) (r : InterviewRequest)
    (slots : json) (batch : list slot) (a : Agent) :
  active_requests a !! rid = Some r ->
  truthy slots = false
  \/ (py_len slots <> None
      /\ _find_overlap py (recruiter_slots r) slots (duration_minutes r) = Ok []) ->
  calendar_get_available_slots W (calls a) (recruiter_email r)
    (duration_minutes r) 21 (Some (recruiter_slots r)) = Ok batch ->
  let a' := fst (_process_candidate_availability py W rid slots a) in
  let out := snd (_process_candidate_availability py W rid slots a) in
  exists r',
    active_requests a' !! rid = Some r'
    /\ candidate_slots r' = slots
    /\ confirmed_slot r' = confirmed_slot r
    /\ match batch with
       | [] =>
           out = Ok (Out_escalated "No available slots found — escalated to recruiter")
           /\ status r' = needs_human
           /\ recruiter_slots r' = recruiter_slots r
           /\ calls a'
              = calls a
                ++ [GetAvailableSlots (recruiter_email r) (duration_minutes r) 21
                      (Some (recruiter_slots r));
                    escalation_message r]
       | _ :: _ =>
           out = Ok (Out_awaiting_candidate "Sent alternative times")
           /\ status r' = status r
           /\ recruiter_slots r' = recruiter_slots r ++ batch
           /\ calls a'
              = calls a
                ++ [GetAvailableSlots (recruiter_email r) (duration_minutes r) 21
                      (Some (recruiter_slots r));
                    offer_message py rid r' batch true]
       end.
Proof using Hdelivers.
  intros Hr Hno Hfetch a' out. subst a' out.
  rewrite (_process_no_match_at _ _ _ _ _ Hr Hno Hfetch).
  unfold no_overlap_result. destruct batch as [| s batch]; cbn [fst snd].
  - eexists. split; [apply lookup_put |]. repeat split; reflexivity.
  - eexists. split; [apply lookup_put |]. repeat split; reflexivity.
Qed.

Lemma initiate_scheduling_at (recruiter candidate title : string) (d : Z)
    (slots : list slot) (a : Agent) :
  calendar_get_available_slots W (calls a) recruiter d 14 None = Ok slots ->
  let rid := make_request_id (datetime_now W (calls a)) candidate in
  let r := set_recruiter_slots slots (new_request recruiter candidate title d) in
  initiate_scheduling py W recruiter candidate title d a
  = (put rid (set_status awaiting_candidate r)
       (logged [GetAvailableSlots recruiter d 14 None;
                offer_message py rid r slots false] a),
     Ok (rid, set_status awaiting_candidate r)).
Proof using Hdelivers.
  intros Hfetch rid r. unfold initiate_scheduling.
  unfold bind at 1. unfold now_ at 1. fold rid.
  unfold bind at 1.
  match goal with
  | |- context [bind (calendar_get_available_slots_ W _ _ _ _) _ ?s] =>
      change s with (put rid (new_request recruiter candidate title d) a)
  end.
  unfold bind at 1. unfold calendar_get_available_slots_ at 1.
  cbn [calls put]. rewrite Hfetch. rewrite log_call_logged, put_logged.
  rewrite (bind_ok _ _ _ _ _ (update_request_put _ _ _ _)).
  rewrite (bind_ok _ _ _ _ _ (get_request_put _ _ _)).
  erewrite bind_ok by apply _send_availability_request_at.
  rewrite put_logged, logged_logged.
  rewrite (bind_ok _ _ _ _ _ (update_request_put _ _ _ _)).
  rewrite (bind_ok _ _ _ _ _ (get_request_put _ _ _)).
  reflexivity.
Qed.

(** C4, as the code has it.  [initiate_scheduling] has no failure for an
    empty calendar: when the 14-day query returns no interval, the request
    is registered with no offered slot, the offer message (listing no slot)
    is sent to the candidate, and the request is returned in
    [awaiting_candidate]. *)
Theorem initiate_with_no_availability (recruiter candidate title : string)
    (d : Z) (a : Agent) :
  calendar_get_available_slots W (calls a) recruiter d 14 None = Ok [] ->
  let rid := make_request_id (datetime_now W (calls a)) candidate in
  let a' := fst (initiate_scheduling py W recruiter candidate title d a) in
  exists r,
    snd (initiate_scheduling py W recruiter candidate title d a) = Ok (rid, r)
    /\ active_requests a' !! rid = Some r
    /\ status r = awaiting_candidate
    /\ recruiter_slots r = []
    /\ calls a'
       = calls a ++ [GetAvailableSlots recruiter d 14 None;
                     offer_message py rid r [] false].
Proof using Hdelivers.
  intros Hfetch rid a'. subst a'.
  rewrite (initiate_scheduling_at _ _ _ _ _ _ Hfetch). fold rid. cbn [fst snd].
  eexists. split; [reflexivity |]. split; [apply lookup_put |].
  repeat split; reflexivity.
Qed.

End AgentProofs.

(** ** What replies can do to a request *)

Lemma status_moves_refl (s : Status) : status_moves s s.
Proof. now left. Qed.

Lemma status_moves_trans (s1 s2 s3 : Status) :
  status_moves s1 s2 -> status_moves s2 s3 -> status_moves s1 s3.
Proof. unfold status_moves. intros [-> | H] [-> | H']; auto. Qed.

Lemma request_moves_refl (r : InterviewRequest) : request_moves r r.
Proof.
  unfold request_moves. split; [apply status_moves_refl |].
  split; [exists []; now rewrite app_nil_r |].
  split; [exists []; now rewrite app_nil_r |]. repeat split.
Qed.

Lemma request_moves_trans (r1 r2 r3 : InterviewRequest) :
  request_moves r1 r2 -> request_moves r2 r3 -> request_moves r1 r3.
Proof.
  intros (Hs & [m1 Hr] & [h1 Hh] & E1 & E2 & E3 & E4)
         (Hs' & [m2 Hr'] & [h2 Hh'] & E1' & E2' & E3' & E4').
  unfold request_moves. split; [eapply status_moves_trans; eassumption |].
  split; [exists (m1 ++ m2); rewrite Hr', Hr; now rewrite app_assoc |].
  split; [exists (h1 ++ h2); rewrite Hh', Hh; now rewrite app_assoc |].
  repeat split; congruence.
Qed.

Lemma agent_moves_refl (a : Agent) : agent_moves a a.
Proof. intros rid r H. exists r. split; [assumption | apply request_moves_refl]. Qed.

Lemma agent_moves_trans (a1 a2 a3 : Agent) :
  agent_moves a1 a2 -> agent_moves a2 a3 -> agent_moves a1 a3.
Proof.
  intros H12 H23 rid r Hr.
  destruct (H12 rid r Hr) as (r2 & Hr2 & M12).
  destruct (H23 rid r2 Hr2) as (r3 & Hr3 & M23).
  exists r3. split; [assumption | eapply request_moves_trans; eassumption].
Qed.

Lemma agent_moves_same_requests (a a' : Agent) :
  active_requests a' = active_requests a -> agent_moves a a'.
Proof.
  intros E rid r H. exists r. rewrite E. split; [assumption | apply request_moves_refl].
Qed.

Lemma preserves_ret {A} (x : A) : preserves (ret x).
Proof. intros a. apply agent_moves_refl. Qed.

Lemma preserves_raise {A} (e : exn) : preserves (@raise A e).
Proof. intros a. apply agent_moves_refl. Qed.

Lemma preserves_lift {A} (r : result A) : preserves (lift r).
Proof. intros a. apply agent_moves_refl. Qed.

Lemma preserves_bind {A B} (m : M A) (k : A -> M B) :
  preserves m -> (forall x, preserves (k x)) -> preserves (bind m k).
Proof.
  intros Hm Hk a. unfold bind. specialize (Hm a).
  destruct (m a) as [a1 [x | e]]; cbn [fst] in *; [| exact Hm].
  eapply agent_moves_trans; [exact Hm | apply Hk].
Qed.

Lemma preserves_update (rid : string) (f : InterviewRequest -> InterviewRequest) :
  (forall r, request_moves r (f r)) -> preserves (update_request rid f).
Proof.
  intros Hf a k r Hr. cbn. rewrite lookup_alter. case_decide as E.
  - subst k. rewrite Hr. cbn. eexists. split; [reflexivity | apply Hf].
  - exists r. split; [assumption | apply request_moves_refl].
Qed.

Lemma preserves_get_request (rid : string) : preserves (get_request rid).
Proof.
  intros a. unfold get_request.
  destruct (active_requests a !! rid); apply agent_moves_refl.
Qed.

Ltac request_moves_by_fields :=
  intros r; unfold request_moves, status_moves; cbn;
  repeat split; auto;
  try (exists []; now rewrite app_nil_r);
  try (eexists; reflexivity).

Section Preservation.
Context (py : Python) (W : World).

Lemma preserves_email_send (to subject body : string) :
  preserves (email_send_ W to subject body).
Proof. intros a. now apply agent_moves_same_requests. Qed.

Lemma preserves_create_event (t s e : string) (at_ : list string) (d : string) :
  preserves (calendar_create_event_ W t s e at_ d).
Proof. intros a. now apply agent_moves_same_requests. Qed.

Lemma preserves_get_available_slots (e : string) (d n : Z) (x : option (list slot)) :
  preserves (calendar_get_available_slots_ W e d n x).
Proof. intros a. now apply agent_moves_same_requests. Qed.

Lemma preserves_llm_complete (p : string) : preserves (llm_complete_ W p).
Proof. intros a. now apply agent_moves_same_requests. Qed.

Lemma preserves_now : preserves (now_ W).
Proof. intros a. apply agent_moves_refl. Qed.

Ltac preserve :=
  repeat first
    [ apply preserves_bind; [| intros ?]
    | apply preserves_ret
    | apply preserves_raise
    | apply preserves_lift
    | apply preserves_get_request
    | apply preserves_email_send
    | apply preserves_create_event
    | apply preserves_get_available_slots
    | apply preserves_llm_complete
    | apply preserves_now
    | apply preserves_update; request_moves_by_fields ].

Lemma preserves_send_availability_request rid r slots retry :
  preserves (_send_availability_request py W rid r slots retry).
Proof. unfold _send_availability_request. preserve. Qed.

Lemma preserves_send_confirmation r slot_ event :
  preserves (_send_confirmation py W r slot_ event).
Proof. unfold _send_confirmation. preserve. Qed.

Lemma preserves_send_cancellation_notice r :
  preserves (_send_cancellation_notice W r).
Proof. unfold _send_cancellation_notice. preserve. Qed.

Lemma preserves_escalate_to_recruiter r : preserves (_escalate_to_recruiter W r).
Proof. unfold _escalate_to_recruiter. preserve. Qed.

Lemma preserves_extract body r :
  preserves (_extract_availability_with_llm py W body r).
Proof. unfold _extract_availability_with_llm. preserve. Qed.

Lemma preserves_handle_no_overlap rid : preserves (_handle_no_overlap py W rid).
Proof.
  unfold _handle_no_overlap. preserve.
  match goal with |- preserves (match ?l with _ => _ end) => destruct l end;
    preserve;
    try first [ apply preserves_escalate_to_recruiter
              | apply preserves_send_availability_request ].
Qed.

Lemma preserves_confirm_booking rid : preserves (_confirm_booking py W rid).
Proof.
  unfold _confirm_booking. preserve.
  match goal with |- preserves (match ?l with _ => _ end) => destruct l end;
    preserve; try apply preserves_send_confirmation.
Qed.

Lemma preserves_process rid slots :
  preserves (_process_candidate_availability py W rid slots).
Proof.
  unfold _process_candidate_availability. preserve.
  destruct (negb (truthy slots)); [apply preserves_handle_no_overlap |].
  preserve. destruct (py_len slots); [| preserve].
  match goal with |- preserves (match ?l with _ => _ end) => destruct l end;
    [apply preserves_handle_no_overlap |].
  preserve; try apply preserves_send_confirmation.
Qed.

Lemma preserves_dispatch rid v : preserves (dispatch py W rid v).
Proof.
  unfold dispatch. destruct v; preserve.
  destruct (dict_get kv "action") as [action |]; [| preserve].
  repeat match goal with
    | |- preserves (if ?c then _ else _) => destruct c
    | |- preserves (match dict_get ?kv ?k with _ => _ end) => destruct (dict_get kv k)
    end;
    first [ apply preserves_process
          | apply preserves_confirm_booking
          | apply preserves_handle_no_overlap
          | preserve ].
Qed.

Lemma preserves_handle_email_reply rid sender body :
  preserves (handle_email_reply py W rid sender body).
Proof.
  intros a. unfold handle_email_reply.
  destruct (active_requests a !! rid); [| apply agent_moves_refl].
  revert a. change (preserves
    (update_request rid (append_history (sender, body)) ;;;
     request <- get_request rid ;;
     extracted <- _extract_availability_with_llm py W body request ;;
     dispatch py W rid extracted)).
  apply preserves_bind; [preserve | intros _].
  apply preserves_bind; [preserve | intros request].
  apply preserves_bind; [apply preserves_extract | intros v].
  apply preserves_dispatch.
Qed.

Lemma handle_replies_moves (replies : list (string * string * string)) (a : Agent) :
  agent_moves a (handle_replies py W replies a).
Proof.
  revert a. induction replies as [| [[rid sender] body] replies IH]; intros a; cbn.
  - apply agent_moves_refl.
  - eapply agent_moves_trans; [apply preserves_handle_email_reply | apply IH].
Qed.

(** C3, as the code has it.  No reply sets [status] back to [pending] or
    [awaiting_candidate]: through any sequence of [handle_email_reply]
    calls, a request whose status is [confirmed], [cancelled] or
    [needs_human] keeps a status among these three.  The three are not
    closed one by one: a reply can move a request from one of them to
    another.  Along the way its offered slots and its history only grow, and
    its contacts, title and duration stay. *)
Theorem settled_status_stays_settled
    (replies : list (string * string * string)) (a : Agent) (rid : string)
    (r : InterviewRequest) :
  active_requests a !! rid = Some r ->
  settled (status r) = true ->
  exists r',
    active_requests (handle_replies py W replies a) !! rid = Some r'
    /\ settled (status r') = true
    /\ request_moves r r'.
Proof.
  intros Hr Hs.
  destruct (handle_replies_moves replies a rid r Hr) as (r' & Hr' & Hm).
  exists r'. split; [assumption |]. split; [| assumption].
  destruct Hm as ([E | E] & _); [now rewrite E | assumption].
Qed.

End Preservation.

(** ** The scenarios *)

Section ScenarioProofs.
Import Scenario Scenarios.

Lemma world_delivers (fetches : nat -> list slot) (event : result dict) :
  delivers (world fetches event).
Proof. intros log to subject body. exists true. reflexivity. Qed.

Lemma initiated_request :
  request_of (initiated W_A) = Some offered_request
  /\ request_of (initiated W_calendar_down) = Some offered_request
  /\ request_of (initiated W_late_slot) = Some offered_request.
Proof. vm_compute. repeat split; reflexivity. Qed.

Lemma booked_agent_request : request_of (booked_agent W_A) = Some booked_request.
Proof. vm_compute. reflexivity. Qed.

(** Scenario A: the offer, then "Monday at 10am works". *)
Example scenario_A_confirms :
  snd (reply W_A monday_reply (initiated W_A))
  = Ok (Out_confirmed monday_slot (Some mock_event))
  /\ (status <$> request_of (booked_agent W_A)) = Some confirmed
  /\ (confirmed_slot <$> request_of (booked_agent W_A)) = Some (Some monday_slot).
Proof. vm_compute. repeat split; reflexivity. Qed.

(** Scenario C: the candidate withdraws. *)
Example scenario_C_cancels :
  let run := reply W_A withdraw_reply (initiated W_A) in
  snd run = Ok Out_cancelled
  /\ (status <$> request_of (fst run)) = Some cancelled
  /\ skipn 2 (calls (fst run))
     = [ extraction_call Ascii_runtime.python W_A (initiated W_A) withdraw_reply
           (heard_request candidate withdraw_reply offered_request);
         cancellation_message offered_request ].
Proof. vm_compute. repeat split; reflexivity. Qed.

(** An answer that is not JSON at all: the extractor falls back to
    [unclear] with no slot, and the agent waits. *)
Example unparseable_answer_waits :
  let run := reply W_A "See you then!" (initiated W_A) in
  snd run = Ok Out_awaiting_response
  /\ request_of (fst run)
     = Some (heard_request candidate "See you then!" offered_request)
  /\ sends (calls (fst run)) = sends (calls (initiated W_A)).
Proof. vm_compute. repeat split; reflexivity. Qed.

(** C2, the counterexample: the request is confirmed, the same reply
    arrives again, and the agent books and notifies a second time. *)
Lemma confirmed_request_is_booked_twice :
  let a1 := booked_agent W_A in
  let a2 := fst (reply W_A monday_reply a1) in
  (status <$> request_of a1) = Some confirmed
  /\ snd (reply W_A monday_reply a1) = Ok (Out_confirmed monday_slot (Some mock_event))
  /\ sends (calls a2)
     = sends (calls a1)
       ++ confirmation_messages Ascii_runtime.python booked_request monday_slot
            (Some mock_event)
  /\ length (sends (calls a1)) = 3%nat
  /\ length (sends (calls a2)) = 5%nat.
Proof. vm_compute. repeat split; reflexivity. Qed.

(** C3, the counterexample: a confirmed request is cancelled by a later
    reply that declines. *)
Lemma confirmed_request_becomes_cancelled :
  let a1 := booked_agent W_A in
  let a2 := fst (reply W_A withdraw_reply a1) in
  let a3 := fst (reply W_A monday_reply a2) in
  (status <$> request_of a1) = Some confirmed
  /\ (status <$> request_of a2) = Some cancelled
  /\ (status <$> request_of a3) = Some confirmed.
Proof. vm_compute. repeat split; reflexivity. Qed.

(** C4, the counterexample: the calendar has no free interval, and the
    negotiation starts all the same. *)
Lemma initiation_without_availability_starts :
  let run :=
    initiate_scheduling Ascii_runtime.python W_unavailable recruiter candidate
      title 60 empty_agent in
  let r := set_status awaiting_candidate (new_request recruiter candidate title 60) in
  snd run = Ok (request_id, r)
  /\ request_of (fst run) = Some r
  /\ status r = awaiting_candidate
  /\ calls (fst run)
     = [ GetAvailableSlots recruiter 60 14 None;
         offer_message Ascii_runtime.python request_id r [] false ].
Proof. vm_compute. repeat split; reflexivity. Qed.

(** C5, the counterexample: the request is escalated, and the next reply
    without overlap is answered by a retry offer. *)
Lemma escalated_request_is_retried :
  let a1 := fst (reply W_late_slot weekend_reply (initiated W_late_slot)) in
  let run := reply W_late_slot weekend_reply a1 in
  (status <$> request_of a1) = Some needs_human
  /\ tagged_sends (calls a1) = [(candidate, true); (recruiter, false)]
  /\ snd run = Ok (Out_awaiting_candidate "Sent alternative times")
  /\ (status <$> request_of (fst run)) = Some needs_human
  /\ (recruiter_slots <$> request_of (fst run))
     = Some (scenario_A_offered
             ++ [calendar_slot "2025-03-17T10:00:00" "2025-03-17T11:00:00"])
  /\ tagged_sends (calls (fst run))
     = [(candidate, true); (recruiter, false); (candidate, true)].
Proof. vm_compute. repeat split; reflexivity. Qed.

(** C6, the counterexample: event creation raises, and the request keeps
    the slot it was about to confirm while it still awaits the candidate. *)
Lemma failed_booking_leaves_slot_held :
  let run := reply W_calendar_down monday_reply (initiated W_calendar_down) in
  snd run = Raise (CollaboratorError "calendar")
  /\ (confirmed_slot <$> request_of (fst run)) = Some (Some monday_slot)
  /\ (status <$> request_of (fst run)) = Some awaiting_candidate.
Proof. vm_compute. repeat split; reflexivity. Qed.

(** C8, the counterexample: the confirmation messages, the cancellation
    notice and the escalation notice carry no tagged line. *)
Lemma notices_lack_request_id_line :
  tagged_sends (calls (booked_agent W_A))
  = [(candidate, true); (candidate, false); (recruiter, false)]
  /\ tagged_sends (calls (fst (reply W_A withdraw_reply (initiated W_A))))
     = [(candidate, true); (recruiter, false)]
  /\ tagged_sends (calls (fst (reply W_A weekend_reply (initiated W_A))))
     = [(candidate, true); (recruiter, false)]
  /\ contains (request_id_line request_id) (cancellation_body offered_request) = false.
Proof. vm_compute. repeat split; reflexivity. Qed.

(** C9.  The model answers the JSON object [{"slots": []}], which has no
    intent: [json.loads] accepts it, no fallback applies, and
    [handle_email_reply] raises [KeyError] at [extracted["action"]] after
    the history was appended. *)
Theorem shapeless_extraction_raises :
  let run := reply W_A shapeless_reply (initiated W_A) in
  llm_complete W_A (calls (initiated W_A))
    (extraction_prompt Ascii_runtime.python now shapeless_reply
       (heard_request candidate shapeless_reply offered_request))
  = Ok ("{" ++ dq ++ "slots" ++ dq ++ ": []}")%string
  /\ snd run = Raise (KeyError "action")
  /\ request_of (fst run)
     = Some (heard_request candidate shapeless_reply offered_request).
Proof. vm_compute. repeat split; reflexivity. Qed.

(** A JSON answer that is not an object fails one line earlier. *)
Example list_extraction_raises :
  dispatch Ascii_runtime.python W_A request_id (JArr []) (initiated W_A)
  = (initiated W_A, Raise AttributeError).
Proof. reflexivity. Qed.

Lemma dt_in_range_valid (t : datetime) : dt_in_range t = true -> dt_valid t.
Proof. unfold dt_in_range, dt_valid. lia. Qed.

(** Respondent slots whose stated end is not later than the start, or is
    missing or unreadable: the matcher works with start + duration. *)
Example replaced_ends :
  let ten := mk_datetime 2025 3 10 10 0 0 in
  let eleven := mk_datetime 2025 3 10 11 0 0 in
  let end_of (end_time : json) :=
    _parse_candidate_slot_end Ascii_runtime.python
      (JObj [("date", JStr "2025-03-10"); ("start_time", JStr "10:00");
             ("end_time", end_time)]) 60 in
  end_of (JStr "10:00") = Ok eleven
  /\ end_of (JStr "09:00") = Ok eleven
  /\ end_of (JStr "soon") = Ok eleven
  /\ end_of JNull = Ok eleven
  /\ end_of (JNum 11) = Ok eleven
  /\ end_of (JStr "10:30") = Ok (mk_datetime 2025 3 10 10 30 0)
  /\ _parse_candidate_slot_end Ascii_runtime.python
       (JObj [("date", JStr "2025-03-10"); ("start_time", JStr "10:00")]) 60
     = Ok eleven
  /\ _parse_candidate_slot_end Ascii_runtime.python
       (JObj [("date", JStr "9999-12-31"); ("start_time", JStr "23:30")]) 60
     = Raise OverflowError.
Proof. vm_compute. repeat split; reflexivity. Qed.

Lemma candidate_slot_end_after_start_witness :
  let cs := respondent_slot "2025-03-10" "10:00" "10:00" in
  0 < 60
  /\ _parse_candidate_slot_start Ascii_runtime.python cs
     = Ok (mk_datetime 2025 3 10 10 0 0)
  /\ _parse_candidate_slot_end Ascii_runtime.python cs 60
     = Ok (mk_datetime 2025 3 10 11 0 0).
Proof.
  intros cs.
  assert (H1 : 0 < 60) by lia.
  assert (H2 : _parse_candidate_slot_start Ascii_runtime.python cs
               = Ok (mk_datetime 2025 3 10 10 0 0)) by (vm_compute; reflexivity).
  split; [exact H1 |]. split; [exact H2 |].
  destruct (candidate_slot_end_after_start Ascii_runtime.python python_ok_ascii
              cs 60 _ H1 H2) as (_ & _ & H3).
  rewrite H3; [vm_compute; reflexivity |].
  apply dt_in_range_valid. vm_compute. reflexivity.
Defined.

Lemma repeated_reply_books_again_witness :
  let a1 := booked_agent W_A in
  let a2 := fst (reply W_A monday_reply a1) in
  exists r',
    request_of a2 = Some r'
    /\ confirmed_slot r' = Some monday_slot
    /\ status r' = confirmed
    /\ length (sends (calls a2)) = (length (sends (calls a1)) + 2)%nat.
Proof.
  intros a1 a2.
  destruct (repeated_reply_books_again Ascii_runtime.python W_A
              (world_delivers _ _) request_id candidate monday_reply
              booked_request scenario_A_respondent monday_slot [] mock_event a1)
    as (_ & Hcalls & r' & Hr' & Hslot & Hst & _).
  - vm_compute. reflexivity.
  - reflexivity.
  - reflexivity.
  - eexists. repeat split; vm_compute; reflexivity.
  - discriminate.
  - vm_compute. reflexivity.
  - reflexivity.
  - exists r'. split; [exact Hr' |]. split; [exact Hslot |]. split; [exact Hst |].
    subst a2. unfold reply. rewrite Hcalls. vm_compute. reflexivity.
Defined.

Lemma settled_status_stays_settled_witness :
  exists r',
    request_of
      (handle_replies Ascii_runtime.python W_A
         [(request_id, candidate, withdraw_reply);
          (request_id, candidate, monday_reply)] (booked_agent W_A))
    = Some r'
    /\ settled (status r') = true.
Proof.
  destruct (settled_status_stays_settled Ascii_runtime.python W_A
              [(request_id, candidate, withdraw_reply);
               (request_id, candidate, monday_reply)]
              (booked_agent W_A) request_id booked_request)
    as (r' & Hr' & Hs & _).
  - vm_compute. reflexivity.
  - reflexivity.
  - exists r'. split; assumption.
Defined.

Lemma initiate_with_no_availability_witness :
  exists r,
    snd (initiate_scheduling Ascii_runtime.python W_unavailable recruiter
           candidate title 60 empty_agent) = Ok (request_id, r)
    /\ status r = awaiting_candidate
    /\ recruiter_slots r = [].
Proof.
  destruct (initiate_with_no_availability Ascii_runtime.python W_unavailable
              (world_delivers _ _) recruiter candidate title 60 empty_agent)
    as (r & Hout & _ & Hst & Hslots & _).
  - reflexivity.
  - exists r. split; [exact Hout |]. split; assumption.
Defined.

Lemma no_match_retries_or_escalates_witness :
  exists r',
    request_of
      (fst (_process_candidate_availability Ascii_runtime.python W_A request_id
              weekend_slots (initiated W_A))) = Some r'
    /\ status r' = needs_human
    /\ recruiter_slots r' = scenario_A_offered.
Proof.
  destruct (no_match_retries_or_escalates Ascii_runtime.python W_A
              (world_delivers _ _) request_id offered_request weekend_slots []
              (initiated W_A))
    as (r' & Hr' & _ & _ & _ & Hst & Hslots & _).
  - vm_compute. reflexivity.
  - right. split; [discriminate | vm_compute; reflexivity].
  - reflexivity.
  - exists r'. split; [exact Hr' |]. split; assumption.
Defined.

Lemma booking_mutates_between_calls_witness :
  snd (reply W_calendar_down monday_reply (initiated W_calendar_down))
  = Raise (CollaboratorError "calendar")
  /\ exists r',
       request_of (fst (reply W_calendar_down monday_reply
                          (initiated W_calendar_down))) = Some r'
       /\ confirmed_slot r' = Some monday_slot
       /\ status r' = awaiting_candidate.
Proof.
  pose proof (booking_mutates_between_calls Ascii_runtime.python W_calendar_down
                (world_delivers _ _) request_id candidate monday_reply
                offered_request scenario_A_respondent monday_slot []
                (initiated W_calendar_down)) as H.
  cbv zeta in H. cbn [calendar_create_event W_calendar_down world] in H.
  destruct H as (Hout & _ & r' & Hr' & Hslot & Hst & _).
  - vm_compute. reflexivity.
  - eexists. repeat split; vm_compute; reflexivity.
  - discriminate.
  - vm_compute. reflexivity.
  - split; [exact Hout |]. exists r'. split; [exact Hr' |]. split; assumption.
Defined.

End ScenarioProofs.

(* ===================================================================== *)
(** * Further properties of the code *)
(* ===================================================================== *)

(** ** More on the slot matcher *)

Section MatcherMore.
Context (py : Python).

Lemma recruiter_loop_filter (rs : list slot) (cs : json) (d : Z)
    (overlapping : list slot) :
  recruiter_loop py rs cs d overlapping
  = recruiter_loop py (List.filter (parses py) rs) cs d overlapping.
Proof.
  revert overlapping. induction rs as [| r rs IH]; intros overlapping; [reflexivity |].
  cbn [List.filter]. unfold parses at 1, offered_interval.
  cbn [recruiter_loop].
  destruct (_parse_dt py (s_start r)) as [a |] eqn:Ea;
    [destruct (_parse_dt py (s_end r)) as [b |] eqn:Eb |]; try apply IH.
  cbn [recruiter_loop]. rewrite Ea, Eb.
  destruct (py_iter cs) as [cands |]; [| reflexivity].
  destruct (candidate_loop py a b cands d overlapping); [apply IH | reflexivity].
Qed.

(** X1. Offered slots whose start or end does not parse never change what
    the matcher returns and never make it raise: the result on any offered
    list is the result on the offered slots that parse. *)
Theorem find_overlap_skips_unparseable_offers (rs : list slot) (cs : json) (d : Z) :
  _find_overlap py rs cs d = _find_overlap py (List.filter (parses py) rs) cs d.
Proof. unfold _find_overlap. now rewrite recruiter_loop_filter. Qed.

Lemma unique_loop_NoDup (l : list slot) (seen : gset string) (unique : list slot) :
  NoDup (map s_start unique) ->
  (forall x, x ∈ map s_start unique -> x ∈ seen) ->
  NoDup (map s_start (unique_loop seen unique l)).
Proof.
  revert seen unique. induction l as [| s l IH]; intros seen unique Hnd Hseen; cbn.
  - exact Hnd.
  - destruct (decide (s_start s ∈ seen)) as [Hin | Hout]; [now apply IH |].
    apply IH.
    + rewrite map_app. cbn. apply NoDup_app. split; [exact Hnd |].
      split; [| apply NoDup_singleton].
      intros x Hx Hx'. apply list_elem_of_singleton in Hx'. subst x.
      apply Hout, Hseen, Hx.
    + intros x. rewrite map_app, elem_of_app. cbn.
      rewrite list_elem_of_singleton, elem_of_union, elem_of_singleton.
      intros [Hx | ->]; [right; now apply Hseen | now left].
Qed.

(** X2. Whatever the offered and respondent slots, the slots the matcher
    returns have pairwise distinct start strings: no slot is proposed
    twice. *)
Theorem find_overlap_starts_distinct (rs : list slot) (cs : json) (d : Z)
    (out : list slot) :
  _find_overlap py rs cs d = Ok out -> NoDup (map s_start out).
Proof.
  unfold _find_overlap.
  destruct (recruiter_loop py rs cs d []) as [overlapping | e]; [| discriminate].
  intros [= <-]. apply unique_loop_NoDup; [constructor |].
  intros x Hx. cbn in Hx. now apply elem_of_nil in Hx.
Qed.

Lemma recruiter_loop_not_iterable (rs : list slot) (cs : json) (d : Z)
    (overlapping : list slot) :
  py_iter cs = None ->
  recruiter_loop py rs cs d overlapping
  = if existsb (parses py) rs then Raise TypeError else Ok overlapping.
Proof.
  intros Hit. induction rs as [| r rs IH]; [reflexivity |].
  cbn [recruiter_loop existsb]. unfold parses at 1, offered_interval.
  destruct (_parse_dt py (s_start r)) as [a |];
    [destruct (_parse_dt py (s_end r)) as [b |] |]; try exact IH.
  now rewrite Hit.
Qed.

Lemma find_overlap_without_iteration (rs : list slot) (cs : json) (d : Z) :
  py_iter cs = None ->
  _find_overlap py rs cs d
  = if existsb (parses py) rs then Raise TypeError else Ok [].
Proof.
  intros Hit. unfold _find_overlap. rewrite (recruiter_loop_not_iterable _ _ _ _ Hit).
  now destruct (existsb (parses py) rs).
Qed.

(** X3. A respondent slot list that cannot be iterated (a number, a
    boolean, null) makes the matcher raise [TypeError] as soon as one offered
    slot parses; when none parses the inner loop is never reached and the
    result is the empty list. *)
Theorem find_overlap_not_iterable (rs : list slot) (cs : json) (d : Z) :
  py_iter cs = None ->
  _find_overlap py rs cs d
  = if existsb (parses py) rs then Raise TypeError else Ok [].
Proof. apply find_overlap_without_iteration. Qed.

Ltac unfold_units :=
  unfold US_PER_DAY, US_PER_HOUR, US_PER_MINUTE, US_PER_SECOND in *.

Lemma hour_by_hours (t : Z) : hour t = (t / US_PER_HOUR) mod 24.
Proof.
  unfold hour, US_PER_DAY.
  rewrite (Z.mul_comm 24), Z.rem_mul_r by (unfold_units; lia).
  rewrite (Z.mul_comm US_PER_HOUR), Z.div_add by (unfold_units; lia).
  rewrite Z.mod_div by (unfold_units; lia). lia.
Qed.

Lemma toordinal_by_hours (t : Z) : toordinal t = t / US_PER_HOUR / 24 + 1.
Proof.
  unfold toordinal, US_PER_DAY. rewrite (Z.mul_comm 24).
  rewrite Z.div_div by (unfold_units; lia). reflexivity.
Qed.

Lemma hours_shift (t weeks delta : Z) :
  0 <= t mod US_PER_HOUR + delta < US_PER_HOUR ->
  (t + weeks * (7 * US_PER_DAY) + delta) / US_PER_HOUR
  = t / US_PER_HOUR + 168 * weeks.
Proof.
  intros H. unfold US_PER_DAY.
  assert (Hpos : 0 < US_PER_HOUR) by (unfold_units; lia).
  generalize dependent US_PER_HOUR. intros h H Hpos.
  symmetry. apply (Z.div_unique _ _ _ (t mod h + delta)); [lia |].
  pose proof (Z.div_mod t h ltac:(lia)). lia.
Qed.

Lemma hour_shift (t weeks delta : Z) :
  0 <= t mod US_PER_HOUR + delta < US_PER_HOUR ->
  hour (t + weeks * (7 * US_PER_DAY) + delta) = hour t.
Proof.
  intros H. rewrite !hour_by_hours, (hours_shift _ _ _ H).
  Z.div_mod_to_equations. lia.
Qed.

Lemma weekday_shift (t weeks delta : Z) :
  0 <= t mod US_PER_HOUR + delta < US_PER_HOUR ->
  weekday (t + weeks * (7 * US_PER_DAY) + delta) = weekday t.
Proof.
  intros H. unfold weekday. rewrite !toordinal_by_hours, (hours_shift _ _ _ H).
  Z.div_mod_to_equations. lia.
Qed.

(** X4. A respondent slot that starts in the same clock hour of the same
    weekday as an offered slot is accepted in any week, earlier or later,
    whatever its end and whatever the duration: the first two tiers look at
    the date, the weekday and the hour only. *)
Theorem same_weekday_hour_matches_any_week
    (rs_start rs_end cs_end d weeks delta : Z) :
  0 <= rs_start mod US_PER_HOUR + delta < US_PER_HOUR ->
  match_pair rs_start rs_end (rs_start + weeks * (7 * US_PER_DAY) + delta) cs_end d
  = Ok true.
Proof.
  intros H. unfold match_pair.
  rewrite (hour_shift _ _ _ H), (weekday_shift _ _ _ H), !Z.eqb_refl.
  now destruct (date rs_start =? _).
Qed.

End MatcherMore.

Lemma same_weekday_hour_matches_any_week_witness :
  let monday := mk_datetime 2025 3 10 10 0 0 in
  match_pair monday (mk_datetime 2025 3 10 11 0 0)
    (mk_datetime 2025 3 31 10 45 0) (mk_datetime 2025 3 31 10 50 0) 60 = Ok true.
Proof.
  intros monday.
  assert (H : 0 <= monday mod US_PER_HOUR + 45 * US_PER_MINUTE < US_PER_HOUR)
    by (vm_compute; split; [discriminate | reflexivity]).
  exact (same_weekday_hour_matches_any_week monday (mk_datetime 2025 3 10 11 0 0)
           (mk_datetime 2025 3 31 10 50 0) 60 3 (45 * US_PER_MINUTE) H).
Defined.

(** ** More on the negotiation steps *)

Section AgentMore.
Context (py : Python) (W : World).
Hypothesis Hdelivers : delivers W.

Lemma py_len_iter (v : json) : py_len v = None -> py_iter v = None.
Proof. destruct v; cbn; congruence. Qed.

(** X5. When the availability that reaches the matcher is truthy but has
    no length (a non-zero number, [true]), [_process_candidate_availability]
    raises [TypeError], out of the matcher or out of the progress message
    that takes its length, after the request's respondent slots were
    overwritten with it; no collaborator is called. *)
Theorem unsized_availability_raises (rid : string) (r : InterviewRequest)
    (slots : json) (a : Agent) :
  active_requests a !! rid = Some r ->
  truthy slots = true ->
  py_len slots = None ->
  _process_candidate_availability py W rid slots a
  = (put rid (set_candidate_slots slots r) a, Raise TypeError).
Proof.
  intros Hr Ht Hlen. unfold _process_candidate_availability.
  erewrite bind_ok by (apply update_request_at; exact Hr).
  rewrite Ht. cbn [negb].
  rewrite (bind_ok _ _ _ _ _ (get_request_put _ _ _)).
  cbn [recruiter_slots duration_minutes set_candidate_slots].
  rewrite (find_overlap_without_iteration py _ _ _ (py_len_iter _ Hlen)).
  unfold bind, lift. destruct (existsb _ _); [reflexivity |].
  now rewrite Hlen.
Qed.

Lemma dispatch_decline (rid : string) (kv : dict) (r : InterviewRequest) (a : Agent) :
  dict_get kv "action" = Some (JStr "decline") ->
  dispatch py W rid (JObj kv) (put rid r a)
  = (put rid (set_status cancelled r) (logged [cancellation_message r] a),
     Ok Out_cancelled).
Proof using Hdelivers.
  intros Ha. unfold dispatch. rewrite Ha. cbn [json_eq_str].
  change (String.eqb "decline" "provide_availability") with false.
  change (String.eqb "decline" "confirm") with false.
  change (String.eqb "decline" "decline") with true. cbv iota.
  rewrite (bind_ok _ _ _ _ _ (update_request_put _ _ _ _)).
  rewrite (bind_ok _ _ _ _ _ (get_request_put _ _ _)).
  erewrite bind_ok by apply (_send_cancellation_notice_at W Hdelivers).
  unfold ret. now rewrite put_logged.
Qed.

(** X6. A reply read as a decline sets [status] to [cancelled] and sends
    one notice, to the recruiter; the calendar is not called, so an event
    booked earlier is not deleted, and [confirmed_slot] and the offered slots
    stay as they were. *)
Theorem decline_cancels_without_calendar (rid sender body : string)
    (r : InterviewRequest) (kv : dict) (a : Agent) :
  active_requests a !! rid = Some r ->
  extracted py W a body (heard_request sender body r) = Ok (JObj kv) ->
  dict_get kv "action" = Some (JStr "decline") ->
  let c := extraction_call py W a body (heard_request sender body r) in
  let a' := fst (handle_email_reply py W rid sender body a) in
  snd (handle_email_reply py W rid sender body a) = Ok Out_cancelled
  /\ calls a' = calls a ++ [c; cancellation_message r]
  /\ exists r',
       active_requests a' !! rid = Some r'
       /\ status r' = cancelled
       /\ confirmed_slot r' = confirmed_slot r
       /\ recruiter_slots r' = recruiter_slots r.
Proof using Hdelivers.
  intros Hr Hex Hact c a'. subst a'.
  rewrite (handle_email_reply_at py W _ _ _ _ _ Hr), Hex. unfold heard.
  rewrite (dispatch_decline _ _ _ _ Hact). cbn [fst snd].
  split; [reflexivity |]. split.
  - unfold logged. cbn [calls put]. now rewrite <- app_assoc.
  - eexists. split; [apply lookup_put |]. repeat split; reflexivity.
Qed.

Lemma dispatch_confirm (rid : string) (kv : dict) (a : Agent) :
  dict_get kv "action" = Some (JStr "confirm") ->
  dispatch py W rid (JObj kv) a = _confirm_booking py W rid a.
Proof.
  intros Ha. unfold dispatch. rewrite Ha. cbn [json_eq_str].
  change (String.eqb "confirm" "provide_availability") with false.
  change (String.eqb "confirm" "confirm") with true. reflexivity.
Qed.

(** X7. A reply read as a confirmation when no slot is held returns the
    error outcome: the reply is in the history, nothing else changed, and
    nothing was sent or booked. *)
Theorem confirm_without_slot_is_an_error (rid sender body : string)
    (r : InterviewRequest) (kv : dict) (a : Agent) :
  active_requests a !! rid = Some r ->
  extracted py W a body (heard_request sender body r) = Ok (JObj kv) ->
  dict_get kv "action" = Some (JStr "confirm") ->
  confirmed_slot r = None ->
  handle_email_reply py W rid sender body a
  = (put rid (heard_request sender body r)
       (logged [extraction_call py W a body (heard_request sender body r)] a),
     Ok (Out_error "No slot to confirm")).
Proof.
  intros Hr Hex Hact Hnone.
  rewrite (handle_email_reply_at py W _ _ _ _ _ Hr), Hex. unfold heard.
  rewrite (dispatch_confirm _ _ _ Hact). unfold _confirm_booking.
  rewrite (bind_ok _ _ _ _ _ (get_request_put _ _ _)).
  cbn [confirmed_slot heard_request append_history]. now rewrite Hnone.
Qed.

(** X8. A reply read as a confirmation when a slot is held (left by an
    earlier match, whatever the status became since) books it: an event is
    created for that slot with an empty description, and when that returns
    [status] becomes [confirmed], both confirmation messages are sent and the
    outcome carries the slot but not the event.  [confirmed_slot] is not
    changed. *)
Theorem confirm_books_held_slot (rid sender body : string)
    (r : InterviewRequest) (kv : dict) (slot_ : slot) (event : dict) (a : Agent) :
  active_requests a !! rid = Some r ->
  extracted py W a body (heard_request sender body r) = Ok (JObj kv) ->
  dict_get kv "action" = Some (JStr "confirm") ->
  confirmed_slot r = Some slot_ ->
  let c := extraction_call py W a body (heard_request sender body r) in
  let booking :=
    CreateEvent ("Interview: " ++ job_title r) (s_start slot_) (s_end slot_)
      [recruiter_email r; candidate_email r] "" in
  calendar_create_event W (calls a ++ [c]) ("Interview: " ++ job_title r)
    (s_start slot_) (s_end slot_) [recruiter_email r; candidate_email r] ""
  = Ok event ->
  let a' := fst (handle_email_reply py W rid sender body a) in
  snd (handle_email_reply py W rid sender body a) = Ok (Out_confirmed slot_ None)
  /\ calls a' = calls a ++ c :: booking :: confirmation_messages py r slot_ (Some event)
  /\ exists r',
       active_requests a' !! rid = Some r'
       /\ status r' = confirmed
       /\ confirmed_slot r' = Some slot_.
Proof using Hdelivers.
  intros Hr Hex Hact Hslot c booking Hev a'. subst a'.
  assert (E : handle_email_reply py W rid sender body a
              = (put rid (set_status confirmed (heard_request sender body r))
                   (logged (c :: booking
                            :: confirmation_messages py r slot_ (Some event)) a),
                 Ok (Out_confirmed slot_ None))).
  { rewrite (handle_email_reply_at py W _ _ _ _ _ Hr), Hex. unfold heard. fold c.
    rewrite (dispatch_confirm _ _ _ Hact). unfold _confirm_booking.
    rewrite (bind_ok _ _ _ _ _ (get_request_put _ _ _)).
    change (confirmed_slot (heard_request sender body r)) with (confirmed_slot r).
    rewrite Hslot.
    unfold bind at 1. unfold calendar_create_event_ at 1.
    change (calls (put rid (heard_request sender body r) (logged [c] a)))
      with (calls a ++ [c]).
    change (job_title (heard_request sender body r)) with (job_title r).
    change (recruiter_email (heard_request sender body r)) with (recruiter_email r).
    change (candidate_email (heard_request sender body r)) with (candidate_email r).
    rewrite Hev. fold booking. rewrite log_call_logged, put_logged, logged_logged.
    rewrite (bind_ok _ _ _ _ _ (update_request_put _ _ _ _)).
    rewrite (bind_ok _ _ _ _ _ (get_request_put _ _ _)).
    erewrite bind_ok by apply (_send_confirmation_at py W Hdelivers).
    unfold ret. rewrite put_logged, logged_logged. reflexivity. }
  rewrite E. cbn [fst snd]. split; [reflexivity |]. split; [reflexivity |].
  eexists. split; [apply lookup_put |]. split; [reflexivity |]. exact Hslot.
Qed.

End AgentMore.

(** ** What a reply can do to the agent *)

Section Flow.
Context (py : Python) (W : World) (rid : string) (P Q : Agent -> Prop).
Hypothesis P_log : forall a c, P a -> P (log_call c a).
Hypothesis Q_log : forall a c, Q a -> Q (log_call c a).
Hypothesis Q_P : forall a, Q a -> P a.
Hypothesis P_assign :
  forall a f, plain_assignment f -> P a -> P (fst (update_request rid f a)).
Hypothesis P_hold :
  forall a s, P a -> Q (fst (update_request rid (set_confirmed_slot (Some s)) a)).
Hypothesis P_held :
  forall a r, P a -> active_requests a !! rid = Some r ->
    is_Some (confirmed_slot r) -> Q a.
Hypothesis Q_confirm :
  forall a, Q a -> P (fst (update_request rid (set_status confirmed) a)).

Lemma leads_ret {A} (R : Agent -> Prop) (x : A) : leads R (ret x) R.
Proof. intros a H. exact H. Qed.

Lemma leads_raise {A} (R : Agent -> Prop) (e : exn) : leads R (@raise A e) R.
Proof. intros a H. exact H. Qed.

Lemma leads_lift {A} (R : Agent -> Prop) (r : result A) : leads R (lift r) R.
Proof. intros a H. exact H. Qed.

Lemma leads_bind {A B} (R S T : Agent -> Prop) (m : M A) (k : A -> M B) :
  leads R m S -> (forall a, S a -> T a) -> (forall x, leads S (k x) T) ->
  leads R (bind m k) T.
Proof.
  intros Hm Hst Hk a H. unfold bind. specialize (Hm a H).
  destruct (m a) as [a1 [x | e]]; cbn [fst] in *; [| now apply Hst].
  now apply Hk.
Qed.

Lemma keeps_bind {A B} (R : Agent -> Prop) (m : M A) (k : A -> M B) :
  leads R m R -> (forall x, leads R (k x) R) -> leads R (bind m k) R.
Proof. intros Hm Hk. apply (leads_bind R R R); auto. Qed.

Lemma leads_pre {A} (R R' S : Agent -> Prop) (m : M A) :
  (forall a, R' a -> R a) -> leads R m S -> leads R' m S.
Proof. intros H Hm a Ha. apply Hm, H, Ha. Qed.

Lemma leads_get_request {B} (R T : Agent -> Prop) (k : InterviewRequest -> M B) :
  (forall a, R a -> T a) ->
  (forall r, leads (fun a => R a /\ active_requests a !! rid = Some r) (k r) T) ->
  leads R (bind (get_request rid) k) T.
Proof.
  intros HRT Hk a H. unfold bind, get_request.
  destruct (active_requests a !! rid) as [r |] eqn:E; [| now apply HRT].
  now apply Hk.
Qed.

Lemma keeps_get_request (R : Agent -> Prop) : leads R (get_request rid) R.
Proof. intros a H. unfold get_request. now destruct (active_requests a !! rid). Qed.

Lemma keeps_now (R : Agent -> Prop) : leads R (now_ W) R.
Proof. intros a H. exact H. Qed.

Section Logged.
Context (R : Agent -> Prop).
Hypothesis R_log : forall a c, R a -> R (log_call c a).

Lemma keeps_email_send to subject body : leads R (email_send_ W to subject body) R.
Proof using R_log. intros a H. now apply R_log. Qed.

Lemma keeps_create_event t s e at_ d :
  leads R (calendar_create_event_ W t s e at_ d) R.
Proof using R_log. intros a H. now apply R_log. Qed.

Lemma keeps_get_available_slots e d n x :
  leads R (calendar_get_available_slots_ W e d n x) R.
Proof using R_log. intros a H. now apply R_log. Qed.

Lemma keeps_llm_complete p : leads R (llm_complete_ W p) R.
Proof using R_log. intros a H. now apply R_log. Qed.

Ltac logs :=
  repeat first
    [ apply leads_ret
    | apply leads_raise
    | apply leads_lift
    | apply keeps_get_request
    | apply keeps_email_send
    | apply keeps_create_event
    | apply keeps_get_available_slots
    | apply keeps_llm_complete
    | apply keeps_now
    | apply keeps_bind; [| intros ?] ].

Lemma keeps_send_availability_request rid' r slots retry :
  leads R (_send_availability_request py W rid' r slots retry) R.
Proof using R_log. unfold _send_availability_request. logs. Qed.

Lemma keeps_send_confirmation r slot_ event :
  leads R (_send_confirmation py W r slot_ event) R.
Proof using R_log. unfold _send_confirmation. logs. Qed.

Lemma keeps_send_cancellation_notice r : leads R (_send_cancellation_notice W r) R.
Proof using R_log. unfold _send_cancellation_notice. logs. Qed.

Lemma keeps_escalate_to_recruiter r : leads R (_escalate_to_recruiter W r) R.
Proof using R_log. unfold _escalate_to_recruiter. logs. Qed.

Lemma keeps_extract body r : leads R (_extract_availability_with_llm py W body r) R.
Proof using R_log. unfold _extract_availability_with_llm. logs. Qed.

End Logged.

Lemma keeps_assign (f : InterviewRequest -> InterviewRequest) :
  plain_assignment f -> leads P (update_request rid f) P.
Proof using P_assign. intros Hf a H. now apply P_assign. Qed.

Ltac keep :=
  repeat first
    [ apply leads_ret
    | apply leads_raise
    | apply leads_lift
    | apply keeps_get_request
    | apply keeps_email_send; assumption
    | apply keeps_create_event; assumption
    | apply keeps_get_available_slots; assumption
    | apply keeps_llm_complete; assumption
    | apply keeps_now
    | apply keeps_send_availability_request; assumption
    | apply keeps_send_confirmation; assumption
    | apply keeps_send_cancellation_notice; assumption
    | apply keeps_escalate_to_recruiter; assumption
    | apply keeps_extract; assumption
    | apply keeps_assign; constructor
    | apply keeps_bind; [| intros ?] ].

Lemma keeps_handle_no_overlap : leads P (_handle_no_overlap py W rid) P.
Proof using P_log P_assign.
  unfold _handle_no_overlap.
  apply keeps_bind; [keep | intros r].
  apply keeps_bind; [keep | intros new_slots].
  destruct new_slots as [| s new_slots]; keep.
Qed.

(** Once a slot is held: the calendar call, the status, the messages. *)
Lemma leads_book {B} t s e at_ d (k : dict -> InterviewRequest -> M B) :
  (forall event r, leads P (k event r) P) ->
  leads Q
    (event <- calendar_create_event_ W t s e at_ d ;;
     update_request rid (set_status confirmed) ;;;
     request <- get_request rid ;;
     k event request) P.
Proof using Q_log Q_P Q_confirm.
  intros Hk.
  apply (leads_bind Q Q P); [apply keeps_create_event, Q_log | apply Q_P | intros event].
  apply (leads_bind Q P P); [intros a; apply Q_confirm | auto | intros _].
  apply keeps_bind; [apply keeps_get_request | intros r]. apply Hk.
Qed.

Lemma keeps_confirm_booking : leads P (_confirm_booking py W rid) P.
Proof using P_log Q_log Q_P P_held Q_confirm.
  unfold _confirm_booking. apply leads_get_request; [auto | intros r].
  destruct (confirmed_slot r) as [slot_ |] eqn:Eslot.
  - apply (leads_pre Q).
    { intros a [Ha Hr]. apply (P_held a r Ha Hr). rewrite Eslot. eauto. }
    apply (leads_book _ _ _ _ _ (fun event request =>
             _send_confirmation py W request slot_ (Some event) ;;;
             ret (Out_confirmed slot_ None))).
    intros event r'. keep.
  - intros a [Ha _]. exact Ha.
Qed.

Lemma keeps_process slots :
  leads P (_process_candidate_availability py W rid slots) P.
Proof using P_log Q_log Q_P P_assign P_hold Q_confirm.
  unfold _process_candidate_availability.
  apply keeps_bind; [keep | intros _].
  destruct (negb (truthy slots)); [apply keeps_handle_no_overlap |].
  apply keeps_bind; [keep | intros r].
  apply keeps_bind; [keep | intros overlap].
  destruct (py_len slots); [| keep].
  destruct overlap as [| best rest]; [apply keeps_handle_no_overlap |].
  apply (leads_bind P Q P); [intros a; apply P_hold | apply Q_P | intros _].
  apply (leads_book _ _ _ _ _ (fun event request =>
           _send_confirmation py W request best (Some event) ;;;
           ret (Out_confirmed best (Some event)))).
  intros event r'. keep.
Qed.

Lemma keeps_dispatch v : leads P (dispatch py W rid v) P.
Proof using P_log Q_log Q_P P_assign P_hold P_held Q_confirm.
  unfold dispatch. destruct v; try apply leads_raise.
  destruct (dict_get kv "action") as [action |]; [| apply leads_raise].
  destruct (json_eq_str action "provide_availability").
  { destruct (dict_get kv "slots"); [apply keeps_process | apply leads_raise]. }
  destruct (json_eq_str action "confirm"); [apply keeps_confirm_booking |].
  destruct (json_eq_str action "decline"); [keep |].
  destruct (json_eq_str action "request_other_times");
    [apply keeps_handle_no_overlap |].
  destruct (dict_get kv "slots") as [slots |]; [| apply leads_ret].
  destruct (truthy slots); [apply keeps_process | apply leads_ret].
Qed.

Lemma keeps_handle_email_reply (sender body : string) :
  leads P (handle_email_reply py W rid sender body) P.
Proof using P_log Q_log Q_P P_assign P_hold P_held Q_confirm.
  intros a H. unfold handle_email_reply.
  destruct (active_requests a !! rid); [| exact H].
  revert a H. change (leads P
    (update_request rid (append_history (sender, body)) ;;;
     request <- get_request rid ;;
     extracted <- _extract_availability_with_llm py W body request ;;
     dispatch py W rid extracted) P).
  apply keeps_bind; [keep | intros _].
  apply keeps_bind; [keep | intros r].
  apply keeps_bind; [keep | intros v].
  apply keeps_dispatch.
Qed.

End Flow.

Lemma invariant_reply (py : Python) (W : World) (rid : string) (P : Agent -> Prop)
    (sender body : string) :
  invariant_under rid P -> leads P (handle_email_reply py W rid sender body) P.
Proof.
  intros [Hlog Hassign].
  apply (keeps_handle_email_reply py W rid P P); auto.
  all: intros; apply Hassign; auto; constructor; assumption.
Qed.

(** X9. [handle_email_reply] changes the agent in two ways only: it logs
    collaborator calls, and it assigns to the request it was called for, by
    appending to its history, replacing its respondent slots, extending its
    offered slots, setting [confirmed_slot] to a slot, or setting [status] to
    [confirmed], [cancelled] or [needs_human].  Hence a property of the agent
    that survives these survives a reply, in any world and whether the reply
    returns or raises. *)
Theorem reply_only_logs_and_assigns (py : Python) (W : World) (rid : string)
    (P : Agent -> Prop) (sender body : string) (a : Agent) :
  invariant_under rid P ->
  P a -> P (fst (handle_email_reply py W rid sender body a)).
Proof. intros HP. now apply invariant_reply. Qed.

(** X10. A reply touches no request but the one it names: every other
    request is left as it was, and the set of request ids is unchanged (a
    reply neither registers nor forgets a request). *)
Theorem reply_leaves_other_requests (py : Python) (W : World)
    (rid sender body : string) (a : Agent) :
  (forall rid', rid' <> rid ->
     active_requests (fst (handle_email_reply py W rid sender body a)) !! rid'
     = active_requests a !! rid')
  /\ dom (active_requests (fst (handle_email_reply py W rid sender body a)))
     = dom (active_requests a).
Proof.
  split.
  - intros rid' Hne.
    apply (invariant_reply py W rid
             (fun a' => active_requests a' !! rid' = active_requests a !! rid'));
      [| reflexivity].
    split; [intros a' c H; exact H |].
    intros a' f _ H. cbn. now rewrite lookup_alter_ne.
  - apply (invariant_reply py W rid
             (fun a' => dom (active_requests a') = dom (active_requests a)));
      [| reflexivity].
    split; [intros a' c H; exact H |].
    intros a' f _ H. cbn. now rewrite dom_alter_L.
Qed.

Lemma assignment_keeps_slot (f : InterviewRequest -> InterviewRequest)
    (r : InterviewRequest) :
  assignment f -> is_Some (confirmed_slot r) -> is_Some (confirmed_slot (f r)).
Proof. intros [f' [] | s |] H; cbn; eauto. Qed.

(** X11. No reply releases a held slot: a request whose [confirmed_slot] is
    set before a reply, to it or to another request, has it set afterwards,
    also when the reply cancels or escalates. *)
Theorem reply_never_clears_confirmed_slot (py : Python) (W : World)
    (rid sender body : string) (a : Agent) (rid0 : string) :
  holds_slot rid0 a ->
  holds_slot rid0 (fst (handle_email_reply py W rid sender body a)).
Proof.
  apply (invariant_reply py W rid (holds_slot rid0)).
  split; [intros a' c H; exact H |].
  intros a' f Hf (r & Hr & Hs). unfold holds_slot. cbn.
  destruct (decide (rid0 = rid)) as [-> | Hne].
  - exists (f r). rewrite lookup_alter_eq, Hr. split; [reflexivity |].
    now apply assignment_keeps_slot.
  - exists r. now rewrite lookup_alter_ne by congruence.
Qed.

(** *** A confirmed request has a slot *)

Lemma inv_log (a : Agent) (c : call) :
  all_confirmed_have_slot a -> all_confirmed_have_slot (log_call c a).
Proof. intros H. exact H. Qed.

Lemma inv_update (rid : string) (f : InterviewRequest -> InterviewRequest) :
  (forall r, confirmed_has_slot r -> confirmed_has_slot (f r)) ->
  leads all_confirmed_have_slot (update_request rid f) all_confirmed_have_slot.
Proof.
  intros Hf a H rid0 r0. cbn.
  destruct (decide (rid0 = rid)) as [-> | Hne].
  - rewrite lookup_alter_eq. destruct (active_requests a !! rid) as [r |] eqn:E;
      cbn; [| discriminate].
    intros [= <-]. apply Hf. now apply (H rid).
  - rewrite lookup_alter_ne by congruence. apply H.
Qed.

Lemma plain_assignment_safe (f : InterviewRequest -> InterviewRequest)
    (r : InterviewRequest) :
  plain_assignment f -> confirmed_has_slot r -> confirmed_has_slot (f r).
Proof. intros [] H; unfold confirmed_has_slot in *; cbn; auto; discriminate. Qed.

Lemma inv_reply (py : Python) (W : World) (rid sender body : string) :
  leads all_confirmed_have_slot (handle_email_reply py W rid sender body)
    all_confirmed_have_slot.
Proof.
  apply (keeps_handle_email_reply py W rid all_confirmed_have_slot
           (fun a => all_confirmed_have_slot a
                     /\ forall r, active_requests a !! rid = Some r ->
                                  is_Some (confirmed_slot r))).
  - apply inv_log.
  - intros a c H. exact H.
  - now intros a [H _].
  - intros a f Hf. apply inv_update. intros r. now apply plain_assignment_safe.
  - intros a s H. split.
    + revert H. apply inv_update. intros r Hr Hst. cbn. eauto.
    + intros r. cbn. rewrite lookup_alter_eq.
      destruct (active_requests a !! rid); cbn; [| discriminate].
      intros [= <-]. cbn. eauto.
  - intros a r H Hr Hs. split; [exact H |]. intros r0. rewrite Hr. now intros [= <-].
  - intros a [H Hheld] rid0 r0. cbn.
    destruct (decide (rid0 = rid)) as [-> | Hne].
    + rewrite lookup_alter_eq. destruct (active_requests a !! rid) as [r |] eqn:E;
        cbn; [| discriminate].
      intros [= <-] _. cbn. now apply Hheld.
    + rewrite lookup_alter_ne by congruence. apply H.
Qed.

Lemma inv_initiate (py : Python) (W : World) (recruiter candidate title : string)
    (duration : Z) :
  leads all_confirmed_have_slot
    (initiate_scheduling py W recruiter candidate title duration)
    all_confirmed_have_slot.
Proof.
  unfold initiate_scheduling.
  apply keeps_bind; [apply keeps_now | intros now]. cbv zeta.
  apply keeps_bind; [| intros _].
  { intros a H rid0 r0. cbn.
    destruct (decide (rid0 = make_request_id now candidate)) as [-> | Hne].
    - rewrite lookup_insert_eq. intros [= <-]. discriminate.
    - rewrite lookup_insert_ne by congruence. apply H. }
  apply keeps_bind; [apply keeps_get_available_slots, inv_log | intros slots].
  apply keeps_bind; [apply inv_update; intros r Hr; exact Hr | intros _].
  apply keeps_bind; [apply keeps_get_request | intros r].
  apply keeps_bind; [apply keeps_send_availability_request, inv_log | intros _].
  apply keeps_bind; [apply inv_update; intros r' _; discriminate | intros _].
  apply keeps_bind; [apply keeps_get_request | intros r'].
  apply leads_ret.
Qed.

Lemma inv_run_commands (py : Python) (W : World) (cs : list command) (a : Agent) :
  all_confirmed_have_slot a -> all_confirmed_have_slot (run_commands py W cs a).
Proof.
  revert a. induction cs as [| c cs IH]; intros a H; cbn; [exact H |].
  apply IH. destruct c; cbn.
  - exact (inv_initiate py W _ _ _ _ a H).
  - exact (inv_reply py W _ _ _ a H).
Qed.

(** X12. In every state the agent reaches from its initial state by
    [initiate_scheduling] and [handle_email_reply] calls, in any order, with
    any arguments and any collaborators (failing ones included), every
    request whose status is [confirmed] has its [confirmed_slot] set. *)
Theorem confirmed_requests_have_slot (py : Python) (W : World) (cs : list command)
    (rid : string) (r : InterviewRequest) :
  active_requests (run_commands py W cs new_agent) !! rid = Some r ->
  status r = confirmed ->
  exists s, confirmed_slot r = Some s.
Proof.
  intros Hr Hst.
  assert (H : all_confirmed_have_slot (run_commands py W cs new_agent)).
  { apply inv_run_commands. intros rid0 r0. cbn. now rewrite lookup_empty. }
  exact (H rid r Hr Hst).
Qed.

(** ** Request tokens *)

Lemma strftime_token (t : datetime) :
  strftime t "%Y%m%d%H%M%S"
  = (pad 4 (year t) ++ pad 2 (month t) ++ pad 2 (day t) ++ pad 2 (hour t)
     ++ pad 2 (minute t) ++ pad 2 (second t) ++ "")%string.
Proof. reflexivity. Qed.

(** The whole second of an instant is its date and its clock fields. *)
Lemma second_fields (t : datetime) :
  t / US_PER_SECOND
  = (toordinal t - 1) * 86400 + hour t * 3600 + minute t * 60 + second t.
Proof.
  unfold toordinal, hour, minute, second, US_PER_DAY, US_PER_HOUR,
    US_PER_MINUTE, US_PER_SECOND.
  Z.div_mod_to_equations. lia.
Qed.

Lemma fields_of_second (t : datetime) :
  toordinal t = t / US_PER_SECOND / 86400 + 1
  /\ hour t = (t / US_PER_SECOND / 3600) mod 24
  /\ minute t = (t / US_PER_SECOND / 60) mod 60
  /\ second t = (t / US_PER_SECOND) mod 60.
Proof.
  unfold toordinal, hour, minute, second, US_PER_DAY, US_PER_HOUR,
    US_PER_MINUTE, US_PER_SECOND.
  repeat split; Z.div_mod_to_equations; lia.
Qed.

Lemma token_of_second (t1 t2 : datetime) :
  t1 / US_PER_SECOND = t2 / US_PER_SECOND ->
  strftime t1 "%Y%m%d%H%M%S" = strftime t2 "%Y%m%d%H%M%S".
Proof.
  intros H. rewrite !strftime_token.
  destruct (fields_of_second t1) as (Eo & Eh & Em & Es).
  destruct (fields_of_second t2) as (Eo' & Eh' & Em' & Es').
  unfold year, month, day. rewrite Eo, Eo', Eh, Eh', Em, Em', Es, Es', H.
  reflexivity.
Qed.

(** X13. Two request tokens are equal exactly when they were made in the
    same second for addresses with the same part before ["@"]: the token
    tells neither the domain, nor the recruiter, nor the job apart. *)
Theorem request_tokens_collide_iff (t1 t2 : datetime) (c1 c2 : string) :
  dt_valid t1 -> dt_valid t2 ->
  make_request_id t1 c1 = make_request_id t2 c2
  <-> t1 / US_PER_SECOND = t2 / US_PER_SECOND
      /\ split_head "@" c1 = split_head "@" c2.
Proof.
  intros Ht1 Ht2. unfold make_request_id. split.
  - intros H.
    destruct (date_fields_range t1 Ht1) as (Hy & Hm & Hd & Hord).
    destruct (date_fields_range t2 Ht2) as (Hy' & Hm' & Hd' & Hord').
    destruct (time_fields_range t1) as (Hh & Hmi & Hs & _).
    destruct (time_fields_range t2) as (Hh' & Hmi' & Hs' & _).
    rewrite !strftime_token in H.
    rewrite <- !string_app_assoc in H.
    apply append_inj_length in H.
    2:{ rewrite !length_append, !pad_length. reflexivity. }
    destruct H as [H Hlocal]. split; [| exact Hlocal].
    apply append_inj_length in H.
    2:{ rewrite !length_append, !pad_length. reflexivity. }
    destruct H as [H _].
    rewrite !string_app_assoc in H.
    apply append_inj_length in H; [| reflexivity]. destruct H as [_ H].
    repeat match type of H with
      | (pad ?w ?a ++ _ = pad ?w ?b ++ _)%string =>
          apply append_inj_length in H; [| now rewrite !pad_length];
          let E := fresh "E" in destruct H as [E H];
          apply pad_inj in E; [| cbn; lia | cbn; lia]
      end.
    rewrite !second_fields. congruence.
  - intros [H ->]. now rewrite (token_of_second t1 t2 H).
Qed.

Lemma just_initiated_slots (recruiter candidate title : string) (d : Z)
    (slots : list slot) (r : InterviewRequest) :
  just_initiated recruiter candidate title d r ->
  just_initiated recruiter candidate title d (set_recruiter_slots slots r).
Proof. intros H. exact H. Qed.

Lemma just_initiated_awaiting (recruiter candidate title : string) (d : Z)
    (r : InterviewRequest) :
  just_initiated recruiter candidate title d r ->
  just_initiated recruiter candidate title d (set_status awaiting_candidate r).
Proof.
  intros (H1 & H2 & H3 & H4 & H5 & H6 & H7 & _).
  repeat split; try assumption. now right.
Qed.

Lemma leads_alter (rid : string) (f : InterviewRequest -> InterviewRequest)
    (keys : gset string) (good : InterviewRequest -> Prop) :
  (forall r, good r -> good (f r)) ->
  let P := fun a => dom (active_requests a) = keys
                    /\ exists r, active_requests a !! rid = Some r /\ good r in
  leads P (update_request rid f) P.
Proof.
  intros Hf P a [Hdom (r & Hr & Hgood)]. split; cbn.
  - now rewrite dom_alter_L.
  - exists (f r). rewrite lookup_alter_eq, Hr. split; [reflexivity | now apply Hf].
Qed.

(** X14. [initiate_scheduling] does not look whether its token is taken: when
    a request is already registered under the token (same second, same part
    before ["@"]), no new request is added and the registered one is replaced
    by a fresh one, whatever its status was; its history, its respondent
    slots and its confirmed slot are gone. *)
Theorem initiation_replaces_request_with_same_token (py : Python) (W : World)
    (recruiter candidate title : string) (d : Z) (a : Agent)
    (r0 : InterviewRequest) :
  let rid := make_request_id (datetime_now W (calls a)) candidate in
  let a' := fst (initiate_scheduling py W recruiter candidate title d a) in
  active_requests a !! rid = Some r0 ->
  dom (active_requests a') = dom (active_requests a)
  /\ exists r, active_requests a' !! rid = Some r
               /\ just_initiated recruiter candidate title d r.
Proof.
  intros rid a' Hr0. subst a'. unfold initiate_scheduling.
  unfold bind at 1. unfold now_ at 1. fold rid. cbv zeta.
  set (P := fun s : Agent =>
              dom (active_requests s) = dom (active_requests a)
              /\ exists r, active_requests s !! rid = Some r
                           /\ just_initiated recruiter candidate title d r).
  assert (Plog : forall s c, P s -> P (log_call c s)) by (intros s c H; exact H).
  refine (leads_bind (fun s => s = a) P P _ _ _ _ _ a eq_refl); [| auto | intros _].
  { intros s ->. split; cbn.
    - apply dom_insert_lookup_L. eauto.
    - eexists. rewrite lookup_insert_eq. split; [reflexivity |].
      repeat split. now left. }
  apply keeps_bind; [apply keeps_get_available_slots, Plog | intros slots].
  apply keeps_bind; [apply leads_alter; auto using just_initiated_slots | intros _].
  apply keeps_bind; [apply keeps_get_request | intros r].
  apply keeps_bind; [apply keeps_send_availability_request, Plog | intros _].
  apply keeps_bind; [apply leads_alter; auto using just_initiated_awaiting | intros _].
  apply keeps_bind; [apply keeps_get_request | intros r'].
  apply leads_ret.
Qed.

(** ** [_parse_dt] and UTC offsets *)

Lemma sign_not_digit (c : ascii) : Re.sign c = true -> is_digit c = false.
Proof. destruct c as [[] [] [] [] [] [] [] []]; vm_compute; congruence. Qed.

Lemma sign_not_space (c : ascii) : Re.sign c = true -> is_space c = false.
Proof. destruct c as [[] [] [] [] [] [] [] []]; vm_compute; congruence. Qed.

Lemma digit_not_space (c : ascii) : is_digit c = true -> is_space c = false.
Proof. destruct c as [[] [] [] [] [] [] [] []]; vm_compute; congruence. Qed.

Lemma lstrip_app (s : string) (c : ascii) (t : string) :
  is_space c = false -> lstrip (s ++ String c t) = (lstrip s ++ String c t)%string.
Proof.
  intros Hc. induction s as [| x s IH].
  - change (lstrip (String c t) = String c t). cbn. now rewrite Hc.
  - rewrite append_cons. cbn [lstrip]. destruct (is_space x); [exact IH |].
    now rewrite append_cons.
Qed.

Lemma rstrip_app (x : string) (c : ascii) (t : string) :
  rstrip (String c t) = String c t ->
  rstrip (x ++ String c t) = (x ++ String c t)%string.
Proof.
  intros Ht. induction x as [| y x IH]; [exact Ht |].
  rewrite append_cons. cbn [rstrip]. rewrite IH.
  destruct x; [change (EmptyString ++ String c t)%string with (String c t) |
               rewrite append_cons]; reflexivity.
Qed.

Lemma rstrip_utc_offset (sg h1 h2 m1 m2 : ascii) :
  is_digit m2 = true ->
  rstrip (utc_offset sg h1 h2 m1 m2) = utc_offset sg h1 h2 m1 m2.
Proof.
  intros H. unfold utc_offset. cbn [rstrip]. now rewrite (digit_not_space _ H).
Qed.

Section Offset.
Context (sg h1 h2 m1 m2 : ascii).
Hypothesis Hsg : Re.sign sg = true.
Hypothesis Hh1 : is_digit h1 = true.
Hypothesis Hh2 : is_digit h2 = true.
Hypothesis Hm1 : is_digit m1 = true.
Hypothesis Hm2 : is_digit m2 = true.

Lemma tz_match (prev : option ascii) :
  Re.match_here false tz_suffix prev (utc_offset sg h1 h2 m1 m2)
  = Some {| Re.before := ""; Re.group0 := utc_offset sg h1 h2 m1 m2;
            Re.group1 := None; Re.after := "" |}.
Proof using Hsg Hh1 Hh2 Hm1 Hm2.
  unfold Re.match_here, tz_suffix, utc_offset. cbn [Re.run].
  rewrite Hsg, Hh1, Hh2, Hm1, Hm2. reflexivity.
Qed.

Lemma tz_no_match_before (prev : option ascii) (c : ascii) :
  Re.match_here false tz_suffix prev (String c (utc_offset sg h1 h2 m1 m2)) = None.
Proof using Hsg.
  unfold Re.match_here, tz_suffix, utc_offset. cbn [Re.run].
  rewrite (sign_not_digit _ Hsg). now destruct (Re.sign c).
Qed.

Lemma tz_no_match_long (prev : option ascii) (s : string) :
  (8 <= String.length s)%nat -> Re.match_here false tz_suffix prev s = None.
Proof.
  intros H.
  destruct s as [| c1 [| c2 [| c3 [| c4 [| c5 [| c6 [| c7 [| c8 s]]]]]]]];
    cbn in H; try lia.
  unfold Re.match_here, tz_suffix. cbn [Re.run].
  destruct (Re.sign c1); [| reflexivity].
  destruct (is_digit c2); [| reflexivity].
  destruct (is_digit c3); [| reflexivity].
  destruct (Ascii.eqb ":" c4); [| reflexivity].
  destruct (is_digit c5); [| reflexivity].
  destruct (is_digit c6); [| reflexivity].
  cbn. now destruct (Ascii.eqb c7 "010").
Qed.

Lemma tz_search (prev : option ascii) (x : string) :
  Re.search_from false tz_suffix prev (x ++ utc_offset sg h1 h2 m1 m2)
  = Some {| Re.before := x; Re.group0 := utc_offset sg h1 h2 m1 m2;
            Re.group1 := None; Re.after := "" |}.
Proof using Hsg Hh1 Hh2 Hm1 Hm2.
  revert prev. induction x as [| c x IH]; intros prev.
  - change (EmptyString ++ utc_offset sg h1 h2 m1 m2)%string
      with (String sg (String h1 (String h2 (String ":" (String m1 (String m2 ""))))))
      at 1.
    cbn [Re.search_from]. fold (utc_offset sg h1 h2 m1 m2). now rewrite tz_match.
  - rewrite append_cons. cbn [Re.search_from].
    assert (E : Re.match_here false tz_suffix prev
                  (String c (x ++ utc_offset sg h1 h2 m1 m2)) = None).
    { destruct x as [| c' x]; [apply tz_no_match_before |].
      apply tz_no_match_long. cbn [String.length]. rewrite length_append. cbn. lia. }
    rewrite E, IH. reflexivity.
Qed.

End Offset.

Lemma append_empty_r (s : string) : (s ++ "")%string = s.
Proof. induction s as [| c s IH]; [reflexivity |]. now rewrite append_cons, IH. Qed.

(** X15. [_parse_dt] discards a trailing UTC offset instead of applying it:
    a text that ends in [+hh:mm] or [-hh:mm] parses as the text before the
    offset does (leading blanks and every ["Z"] removed), so the same clock
    time with two different offsets is the same instant to the matcher. *)
Theorem parse_dt_discards_utc_offset (py : Python) (s : string)
    (sg h1 h2 m1 m2 : ascii) :
  Re.sign sg = true -> is_digit h1 = true -> is_digit h2 = true ->
  is_digit m1 = true -> is_digit m2 = true ->
  _parse_dt py (s ++ utc_offset sg h1 h2 m1 m2)
  = try_formats py (str_replace "Z" "" (lstrip s)) _parse_dt_formats.
Proof.
  intros Hsg Hh1 Hh2 Hm1 Hm2. unfold _parse_dt. cbv zeta. unfold strip.
  unfold utc_offset at 1. rewrite lstrip_app by now apply sign_not_space.
  fold (utc_offset sg h1 h2 m1 m2).
  unfold utc_offset at 1. rewrite rstrip_app by now apply rstrip_utc_offset.
  fold (utc_offset sg h1 h2 m1 m2).
  unfold Re.sub_at_end, Re.search. rewrite tz_search by assumption.
  cbn [Re.before Re.after]. now rewrite !append_empty_r.
Qed.

(** ** Reading a request token back *)

Lemma star_all {R : Type} (p : ascii -> bool) (w rest : string)
    (k : option ascii -> string -> option R) (r : R) (prev : option ascii) :
  all_chars p w = true -> Re.head_is p rest = false ->
  (forall pv, k pv rest = Some r) ->
  Re.star p prev (w ++ rest) k = Some r.
Proof.
  intros Hw Hrest Hk. revert prev. induction w as [| c w IH]; intros prev.
  - change (EmptyString ++ rest)%string with rest.
    destruct rest as [| c rest]; cbn [Re.star]; [apply Hk |].
    cbn in Hrest. rewrite Hrest. apply Hk.
  - rewrite append_cons. cbn [Re.star]. cbn [all_chars] in Hw.
    apply andb_prop in Hw as [Hc Hw]. rewrite Hc, (IH Hw). reflexivity.
Qed.

Lemma str_take_app (a b : string) :
  str_take (String.length (a ++ b) - String.length b) (a ++ b) = a.
Proof.
  rewrite length_append.
  replace (String.length a + String.length b - String.length b)%nat
    with (String.length a) by lia.
  induction a as [| c a IH]; [now destruct b |].
  rewrite append_cons. cbn [String.length str_take]. now rewrite IH.
Qed.

Lemma all_chars_app (p : ascii -> bool) (a b : string) :
  all_chars p (a ++ b) = all_chars p a && all_chars p b.
Proof.
  induction a as [| c a IH]; [reflexivity |].
  rewrite append_cons. cbn [all_chars]. now rewrite IH, andb_assoc.
Qed.

Lemma digit_word (n : Z) : Re.word_or_hyphen (digit (n mod 10)) = true.
Proof.
  pose proof (Z.mod_pos_bound n 10 ltac:(lia)) as H.
  assert (E : n mod 10 = 0 \/ n mod 10 = 1 \/ n mod 10 = 2 \/ n mod 10 = 3
              \/ n mod 10 = 4 \/ n mod 10 = 5 \/ n mod 10 = 6 \/ n mod 10 = 7
              \/ n mod 10 = 8 \/ n mod 10 = 9) by lia.
  repeat destruct E as [E | E]; rewrite E; reflexivity.
Qed.

Lemma pad_word (w : nat) (n : Z) : all_chars Re.word_or_hyphen (pad w n) = true.
Proof.
  revert n. induction w as [| w IH]; intros n; [reflexivity |].
  cbn [pad]. rewrite all_chars_app, IH. cbn [all_chars]. now rewrite digit_word.
Qed.

Lemma bracket_lower (c : ascii) :
  not_bracket c = true -> Ascii.eqb (lower "[") (lower c) = false.
Proof. destruct c as [[] [] [] [] [] [] [] []]; vm_compute; congruence. Qed.

Lemma run_lit {R : Type} (ic : bool) (s rest : string) (prev : option ascii)
    (cap : option string)
    (k : option ascii -> string -> option string -> option R) (r : R) :
  (forall pv, k pv rest cap = Some r) ->
  Re.run ic (Re.lit s) prev (s ++ rest) cap k = Some r.
Proof.
  intros Hk. revert prev. induction s as [| c s IH]; intros prev.
  - apply Hk.
  - rewrite append_cons. cbn [Re.lit Re.run].
    assert (E : (if ic then Ascii.eqb (lower c) (lower c) else Ascii.eqb c c) = true)
      by (destruct ic; apply Ascii.eqb_refl).
    rewrite E. apply IH.
Qed.

Section Tagged.
Context {R : Type} (w post : string) (c0 : ascii).
Hypothesis Hc0 : Re.word_or_hyphen c0 = true.
Hypothesis Hw : all_chars Re.word_or_hyphen w = true.

(** The tagged line with the token ["req_" ++ c0 w], and what follows. *)
Lemma pattern1_run (prev : option ascii) (cap : option string)
    (k : option ascii -> string -> option string -> option R) (r : R) :
  (forall pv, k pv post (Some ("req_" ++ String c0 w)%string) = Some r) ->
  Re.run true EmailClient.pattern1 prev
    ("[Request" ++ " " ++ "ID:" ++ " " ++ "req_" ++ String c0 w ++ "]" ++ post)
    cap k
  = Some r.
Proof using Hc0 Hw.
  intros Hk. unfold EmailClient.pattern1.
  cbn [Re.run].
  apply run_lit. intros pv0.
  change (" " ++ "ID:" ++ " " ++ "req_" ++ String c0 w ++ "]" ++ post)%string
    with (String " " ("" ++ "ID:" ++ " " ++ "req_" ++ String c0 w ++ "]" ++ post)).
  change (is_space " ") with true. cbv iota.
  apply star_all; [reflexivity | reflexivity |]. intros pv1.
  apply run_lit. intros pv2.
  apply (star_all is_space " " ("req_" ++ String c0 w ++ "]" ++ post));
    [reflexivity | reflexivity |]. intros pv3.
  apply run_lit. intros pv4.
  rewrite append_cons. rewrite Hc0.
  apply star_all; [exact Hw | reflexivity |]. intros pv5.
  replace (str_take
             (String.length ("req_" ++ String c0 (w ++ "]" ++ post))
              - String.length ("]" ++ post))
             ("req_" ++ String c0 (w ++ "]" ++ post)))
    with ("req_" ++ String c0 w)%string.
  2:{ symmetry.
      replace ("req_" ++ String c0 (w ++ "]" ++ post))%string
        with (("req_" ++ String c0 w) ++ ("]" ++ post))%string.
      - apply str_take_app.
      - now rewrite string_app_assoc, append_cons. }
  apply run_lit. intros pv6. apply Hk.
Qed.

End Tagged.

Lemma search_from_here (ic : bool) (r : Re.regex) (prev : option ascii)
    (s : string) (m : Re.rmatch) :
  Re.match_here ic r prev s = Some m -> Re.search_from ic r prev s = Some m.
Proof. intros H. destruct s; cbn [Re.search_from]; now rewrite H. Qed.

Lemma pattern1_search (w post pre : string) (c0 : ascii) (prev : option ascii) :
  Re.word_or_hyphen c0 = true -> all_chars Re.word_or_hyphen w = true ->
  all_chars not_bracket pre = true ->
  exists m,
    Re.search_from true EmailClient.pattern1 prev
      (pre ++ "[Request" ++ " " ++ "ID:" ++ " " ++ "req_" ++ String c0 w ++ "]" ++ post)
    = Some m
    /\ Re.group1 m = Some ("req_" ++ String c0 w)%string.
Proof.
  intros Hc0 Hw Hpre. revert prev. induction pre as [| c pre IH]; intros prev.
  - change (EmptyString ++ ?x)%string with x.
    eexists. split.
    + apply search_from_here. unfold Re.match_here.
      apply (pattern1_run w post c0 Hc0 Hw). intros pv. reflexivity.
    + reflexivity.
  - cbn [all_chars] in Hpre. apply andb_prop in Hpre as [Hc Hpre].
    destruct (IH Hpre (Some c)) as (m & Em & Hm).
    rewrite append_cons. cbn [Re.search_from].
    assert (E : Re.match_here true EmailClient.pattern1 prev
                  (String c (pre ++ "[Request" ++ " " ++ "ID:" ++ " " ++ "req_"
                             ++ String c0 w ++ "]" ++ post)) = None).
    { unfold Re.match_here, EmailClient.pattern1. cbn [Re.run Re.lit].
      now rewrite (bracket_lower c Hc). }
    rewrite E, Em. eexists. split; [reflexivity | exact Hm].
Qed.

(** X16. A token made by [initiate_scheduling] for an address whose part
    before ["@"] has only letters, digits, underscores and hyphens is read
    back by [_extract_request_id] from any text that carries the tagged line
    [[Request ID: token]] after a text without ["["], whatever follows the
    line. *)
Theorem request_token_read_back (t : datetime) (candidate pre post : string) :
  all_chars not_bracket pre = true ->
  all_chars Re.word_or_hyphen (split_head "@" candidate) = true ->
  EmailClient._extract_request_id
    (pre ++ request_id_line (make_request_id t candidate) ++ post)
  = Some (make_request_id t candidate).
Proof.
  intros Hpre Hlocal. unfold make_request_id, request_id_line.
  destruct (strftime t "%Y%m%d%H%M%S" ++ "_" ++ split_head "@" candidate)%string
    as [| c0 w] eqn:E.
  { apply (f_equal String.length) in E. rewrite strftime_token in E.
    rewrite !length_append, !pad_length in E. cbn in E. lia. }
  assert (Hall : all_chars Re.word_or_hyphen (String c0 w) = true).
  { rewrite <- E, strftime_token, !all_chars_app, !pad_word, Hlocal. reflexivity. }
  cbn [all_chars] in Hall. apply andb_prop in Hall as [Hc0 Hw].
  replace (pre ++ ("[Request ID: " ++ ("req_" ++ String c0 w) ++ "]") ++ post)%string
    with (pre ++ "[Request" ++ " " ++ "ID:" ++ " " ++ "req_" ++ String c0 w
          ++ "]" ++ post)%string.
  2:{ f_equal. rewrite !string_app_assoc. reflexivity. }
  destruct (pattern1_search w post pre c0 None Hc0 Hw Hpre) as (m & Em & Hm).
  unfold EmailClient._extract_request_id, Re.search. rewrite Em.
  cbn [EmailClient.group1_of]. rewrite Hm.
  destruct pre; reflexivity.
Qed.

(** ** [CalendarClient.get_available_slots] *)

Section Slots.
Import CalendarClient.
Context (time_max : datetime) (busy : list (datetime * datetime))
  (duration_minutes : Z) (excluded : list slot).

Lemma slots_loop_returns (fuel : nat) (current : datetime) (slots : list slot) :
  time_max - current <= Z.of_nat fuel * half_hour ->
  (exists out,
     slots_loop fuel time_max duration_minutes busy excluded current slots
     = Some (Ok out))
  \/ slots_loop fuel time_max duration_minutes busy excluded current slots
     = Some (Raise OverflowError).
Proof.
  revert current slots. induction fuel as [| fuel IH]; intros current slots Hfuel.
  - cbn [slots_loop]. destruct (Z.ltb_spec current time_max) as [Hlt | Hge].
    + cbn in Hfuel. lia.
    + cbn. eauto.
  - cbn [slots_loop].
    destruct ((current <? time_max) && (length slots <? 10)%nat); [| eauto].
    assert (Hnext : forall slots',
               (exists out,
                  match dt_add current half_hour with
                  | Some current' =>
                      slots_loop fuel time_max duration_minutes busy excluded
                        current' slots'
                  | None => Some (Raise OverflowError)
                  end = Some (Ok out))
               \/ match dt_add current half_hour with
                  | Some current' =>
                      slots_loop fuel time_max duration_minutes busy excluded
                        current' slots'
                  | None => Some (Raise OverflowError)
                  end = Some (Raise OverflowError)).
    { intros slots'. unfold dt_add.
      destruct (dt_in_range (current + half_hour)); [| eauto].
      apply IH. unfold half_hour, US_PER_MINUTE, US_PER_SECOND in *. lia. }
    cbv zeta.
    destruct (existsb (Z.eqb (weekday current)) working_days
              && (working_hours_start <=? dt_time current)
              && (dt_time current <? working_hours_end)); [| apply Hnext].
    destruct (timedelta_minutes duration_minutes) as [td |]; [| eauto].
    destruct (dt_add current td) as [slot_end |]; [| eauto].
    destruct (dt_time slot_end <=? working_hours_end); [| apply Hnext].
    destruct (negb (_overlaps_busy current slot_end busy)); [| apply Hnext].
    destruct (negb (_in_excluded _ excluded)); apply Hnext.
Qed.

End Slots.

(** X17. Once the clock is read and the busy periods are parsed, the slot
    search of [get_available_slots] always ends: for every clock, busy list,
    duration, horizon and exclusion list it returns a list of slots or raises
    [OverflowError]; the [while] loop needs no more rounds than there are
    half hours before [now + days_ahead], and one. *)
Theorem get_available_slots_terminates (now : datetime)
    (busy : list (datetime * datetime)) (duration_minutes days_ahead : Z)
    (exclude_slots : option (list slot)) :
  (exists slots,
     CalendarClient.get_available_slots now busy duration_minutes days_ahead
       exclude_slots = Some (Ok slots))
  \/ CalendarClient.get_available_slots now busy duration_minutes days_ahead
       exclude_slots = Some (Raise OverflowError).
Proof.
  unfold CalendarClient.get_available_slots.
  destruct (timedelta_days days_ahead) as [days |] eqn:Edays; [| eauto].
  unfold dt_add.
  destruct (dt_in_range (now + days)); [| eauto].
  destruct (dt_in_range (replace_to_hour now + 2 * US_PER_HOUR)); [| eauto].
  unfold timedelta_days in Edays.
  destruct ((-999999999 <=? days_ahead) && (days_ahead <=? 999999999));
    [| discriminate].
  injection Edays as <-.
  apply slots_loop_returns.
  set (span := now + days_ahead * US_PER_DAY
               - (replace_to_hour now + 2 * US_PER_HOUR)).
  pose proof (Z.mod_pos_bound span CalendarClient.half_hour ltac:(reflexivity)) as Hb.
  pose proof (Z.div_mod span CalendarClient.half_hour ltac:(discriminate)) as Hd.
  fold span. unfold CalendarClient.half_hour, US_PER_MINUTE, US_PER_SECOND in *.
  lia.
Qed.

Lemma working_day_In (wd : Z) :
  existsb (Z.eqb wd) CalendarClient.working_days = true
  <-> In wd CalendarClient.working_days.
Proof.
  rewrite existsb_exists. split.
  - intros (x & Hx & E). apply Z.eqb_eq in E. now subst.
  - intros H. exists wd. split; [exact H | apply Z.eqb_refl].
Qed.

Lemma overlaps_busy_false (start end_ : datetime) (busy : list (datetime * datetime)) :
  CalendarClient._overlaps_busy start end_ busy = false
  <-> forall b_start b_end, In (b_start, b_end) busy ->
        ~ (start < b_end /\ b_start < end_).
Proof.
  unfold CalendarClient._overlaps_busy. split.
  - intros H b_start b_end Hin [H1 H2].
    assert (E : existsb (fun b => (start <? snd b) && (fst b <? end_)) busy = true).
    { apply existsb_exists. exists (b_start, b_end). split; [exact Hin |]. cbn.
      apply andb_true_intro. split; now apply Z.ltb_lt. }
    congruence.
  - intros H.
    destruct (existsb (fun b => (start <? snd b) && (fst b <? end_)) busy) eqn:E;
      [| reflexivity].
    apply existsb_exists in E as ([b_start b_end] & Hin & Hb). cbn in Hb.
    apply andb_prop in Hb as [H1 H2]. apply Z.ltb_lt in H1, H2.
    destruct (H b_start b_end Hin). now split.
Qed.

Lemma in_excluded_false (s0 : slot) (excluded : list slot) :
  CalendarClient._in_excluded s0 excluded = false
  <-> forall s, In s excluded -> s_start s <> s_start s0.
Proof.
  unfold CalendarClient._in_excluded. split.
  - intros H s Hin E.
    assert (E' : existsb (fun s => String.eqb (s_start s) (s_start s0)) excluded
                 = true).
    { apply existsb_exists. exists s. split; [exact Hin | now apply String.eqb_eq]. }
    congruence.
  - intros H.
    destruct (existsb (fun s => String.eqb (s_start s) (s_start s0)) excluded) eqn:E;
      [| reflexivity].
    apply existsb_exists in E as (s & Hin & Hs). apply String.eqb_eq in Hs.
    now destruct (H s Hin).
Qed.

Lemma timedelta_minutes_value (m : Z) (td : timedelta) :
  timedelta_minutes m = Some td -> td = m * US_PER_MINUTE.
Proof.
  unfold timedelta_minutes.
  destruct ((-999999999 <=? m / 1440) && (m / 1440 <=? 999999999)); congruence.
Qed.

Lemma dt_add_value (t : datetime) (d : timedelta) (t' : datetime) :
  dt_add t d = Some t' -> t' = t + d.
Proof. unfold dt_add. destruct (dt_in_range (t + d)); congruence. Qed.

Section SlotsSpec.
Import CalendarClient.
Context (now : datetime) (busy : list (datetime * datetime))
  (duration_minutes days_ahead : Z) (excluded : list slot).

Abbreviation time_max := (horizon now days_ahead).
Abbreviation first := (first_instant now).
Abbreviation offer := (on_offer now busy duration_minutes days_ahead excluded).
Abbreviation reached := (loop_reached offer).
Abbreviation returned := (loop_returned offer duration_minutes).

Lemma grid_next (n : Z) (c : datetime) :
  offer c -> c < first + (n + 1) * half_hour ->
  c < first + n * half_hour \/ c = first + n * half_hour.
Proof.
  intros ((k & Hk & ->) & _) H.
  unfold half_hour, US_PER_MINUTE, US_PER_SECOND in *. lia.
Qed.

Lemma reached_skip (n : Z) (cs : list datetime) :
  ~ offer (first + n * half_hour) ->
  reached (first + n * half_hour) cs -> reached (first + (n + 1) * half_hour) cs.
Proof.
  intros Hno (Hall & Hsort & Hlt & Hlen & Hfull).
  repeat split; try assumption.
  - eapply Forall_impl; [exact Hlt |]. cbn. intros c Hc.
    unfold half_hour, US_PER_MINUTE, US_PER_SECOND in *. lia.
  - intros c Hc Hnext. destruct (grid_next n c Hc Hnext) as [H | ->]; [auto |].
    contradiction.
Qed.

Lemma reached_add (n : Z) (cs : list datetime) :
  0 <= n -> offer (first + n * half_hour) -> (length cs < 10)%nat ->
  reached (first + n * half_hour) cs ->
  reached (first + (n + 1) * half_hour) (cs ++ [first + n * half_hour]).
Proof.
  intros Hn Hyes Hroom (Hall & Hsort & Hlt & Hlen & Hfull).
  repeat split.
  - apply Forall_app. split; [exact Hall | now constructor].
  - clear Hall Hfull Hlen Hroom. induction cs as [| c cs IH]; cbn.
    + constructor; constructor.
    + inversion Hsort; subst. inversion Hlt; subst.
      constructor; [now apply IH |].
      apply Forall_app. split; [assumption |]. now constructor.
  - apply Forall_app. split.
    + eapply Forall_impl; [exact Hlt |]. cbn. intros c Hc.
      unfold half_hour, US_PER_MINUTE, US_PER_SECOND in *. lia.
    + constructor; [| constructor].
      unfold half_hour, US_PER_MINUTE, US_PER_SECOND. lia.
  - rewrite length_app. cbn. lia.
  - intros c Hc Hnext. apply in_or_app.
    destruct (grid_next n c Hc Hnext) as [H | ->]; [left; auto | right; now left].
Qed.

Lemma reached_returned (current : datetime) (cs : list datetime) :
  (current <? time_max) && (length (map (slot_at duration_minutes) cs) <? 10)%nat
  = false ->
  reached current cs -> returned (map (slot_at duration_minutes) cs).
Proof.
  intros Hcond (Hall & Hsort & Hlt & Hlen & Hfull).
  exists cs. repeat split; try assumption.
  intros c Hc Hcase. apply Hfull; [exact Hc |].
  destruct Hcase as [Hroom | (c' & Hin & Hle)].
  - rewrite length_map in Hcond. apply andb_false_iff in Hcond as [H | H].
    + apply Z.ltb_ge in H. destruct Hc as (_ & Hmax & _). lia.
    + apply Nat.ltb_ge in H. lia.
  - rewrite List.Forall_forall in Hlt. specialize (Hlt c' Hin). cbn in Hlt. lia.
Qed.

Lemma slots_loop_spec (fuel : nat) (n : Z) (cs : list datetime) (out : list slot) :
  0 <= n ->
  reached (first + n * half_hour) cs ->
  slots_loop fuel time_max duration_minutes busy excluded (first + n * half_hour)
    (map (slot_at duration_minutes) cs) = Some (Ok out) ->
  returned out.
Proof.
  revert n cs. induction fuel as [| fuel IH]; intros n cs Hn Hreached Hrun.
  - cbn [slots_loop] in Hrun.
    destruct ((first + n * half_hour <? time_max)
              && (length (map (slot_at duration_minutes) cs) <? 10)%nat) eqn:Hcond;
      [discriminate |].
    injection Hrun as <-. eapply reached_returned; eassumption.
  - cbn [slots_loop] in Hrun.
    destruct ((first + n * half_hour <? time_max)
              && (length (map (slot_at duration_minutes) cs) <? 10)%nat) eqn:Hcond.
    2:{ injection Hrun as <-. eapply reached_returned; eassumption. }
    apply andb_prop in Hcond as [Hmax Hroom].
    apply Z.ltb_lt in Hmax. apply Nat.ltb_lt in Hroom. rewrite length_map in Hroom.
    set (current := first + n * half_hour) in *.
    assert (Hnext : forall cs',
               reached (first + (n + 1) * half_hour) cs' ->
               match dt_add current half_hour with
               | Some current' =>
                   slots_loop fuel time_max duration_minutes busy excluded current'
                     (map (slot_at duration_minutes) cs')
               | None => Some (Raise OverflowError)
               end = Some (Ok out) ->
               returned out).
    { intros cs' Hcs' H. destruct (dt_add current half_hour) as [current' |] eqn:E;
        [| discriminate].
      apply dt_add_value in E. subst current'.
      replace (current + half_hour) with (first + (n + 1) * half_hour) in H
        by (subst current; lia).
      apply (IH (n + 1) cs'); [lia | exact Hcs' | exact H]. }
    cbv zeta in Hrun.
    destruct (existsb (Z.eqb (weekday current)) working_days
              && (working_hours_start <=? dt_time current)
              && (dt_time current <? working_hours_end)) eqn:Hwork.
    2:{ apply (Hnext cs); [| exact Hrun]. apply reached_skip; [| exact Hreached].
        intros (_ & _ & Hday & Hhours & _).
        apply working_day_In in Hday. fold current in Hday, Hhours.
        rewrite Hday in Hwork. cbn in Hwork.
        apply andb_false_iff in Hwork as [H | H];
          [apply Z.leb_gt in H | apply Z.ltb_ge in H]; lia. }
    apply andb_prop in Hwork as [Hwork Hend]. apply andb_prop in Hwork as [Hday Hstart].
    apply working_day_In in Hday. apply Z.leb_le in Hstart. apply Z.ltb_lt in Hend.
    destruct (timedelta_minutes duration_minutes) as [td |] eqn:Etd; [| discriminate].
    apply timedelta_minutes_value in Etd. subst td.
    destruct (dt_add current (duration_minutes * US_PER_MINUTE)) as [slot_end |] eqn:Ee;
      [| discriminate].
    apply dt_add_value in Ee. subst slot_end.
    destruct (dt_time (current + duration_minutes * US_PER_MINUTE)
              <=? working_hours_end) eqn:Hclose.
    2:{ apply (Hnext cs); [| exact Hrun]. apply reached_skip; [| exact Hreached].
        intros (_ & _ & _ & _ & H & _). fold current in H.
        apply Z.leb_gt in Hclose. lia. }
    apply Z.leb_le in Hclose.
    destruct (_overlaps_busy current (current + duration_minutes * US_PER_MINUTE) busy)
      eqn:Hbusy; cbn [negb] in Hrun.
    { apply (Hnext cs); [| exact Hrun]. apply reached_skip; [| exact Hreached].
      intros (_ & _ & _ & _ & _ & H & _). fold current in H.
      apply overlaps_busy_false in H. congruence. }
    destruct (_in_excluded
                {| s_start := isoformat current;
                   s_end := isoformat (current + duration_minutes * US_PER_MINUTE);
                   s_display := None |} excluded) eqn:Hex; cbn [negb] in Hrun.
    { apply (Hnext cs); [| exact Hrun]. apply reached_skip; [| exact Hreached].
      intros (_ & _ & _ & _ & _ & _ & H). fold current in H.
      assert (E : _in_excluded (slot_at duration_minutes current) excluded = false)
        by (apply in_excluded_false; exact H).
      unfold slot_at in E. congruence. }
    apply (Hnext (cs ++ [current])).
    + apply reached_add; try assumption.
      repeat split; try assumption.
      * exists n. split; [exact Hn | reflexivity].
      * now apply overlaps_busy_false.
      * exact (proj1 (in_excluded_false _ _) Hex).
    + rewrite map_app. exact Hrun.
Qed.

End SlotsSpec.

Lemma get_available_slots_spec (now : datetime) (busy : list (datetime * datetime))
    (duration_minutes days_ahead : Z) (exclude_slots : option (list slot))
    (out : list slot) :
  CalendarClient.get_available_slots now busy duration_minutes days_ahead
    exclude_slots = Some (Ok out) ->
  let offer :=
    on_offer now busy duration_minutes days_ahead
      (match exclude_slots with Some l => l | None => [] end) in
  exists cs,
    out = map (slot_at duration_minutes) cs
    /\ Forall offer cs /\ StronglySorted Z.lt cs /\ (length cs <= 10)%nat
    /\ (forall c, offer c ->
          (length cs < 10)%nat \/ (exists c', In c' cs /\ c <= c') -> In c cs).
Proof.
  intros Hrun offer. unfold CalendarClient.get_available_slots in Hrun.
  destruct (timedelta_days days_ahead) as [days |] eqn:Edays; [| discriminate].
  unfold timedelta_days in Edays.
  destruct ((-999999999 <=? days_ahead) && (days_ahead <=? 999999999));
    [| discriminate].
  injection Edays as <-.
  destruct (dt_add now (days_ahead * US_PER_DAY)) as [time_max |] eqn:Emax;
    [| discriminate].
  apply dt_add_value in Emax. subst time_max.
  destruct (dt_add (replace_to_hour now) (2 * US_PER_HOUR)) as [current |] eqn:Ec;
    [| discriminate].
  apply dt_add_value in Ec. subst current.
  change (now + days_ahead * US_PER_DAY) with (horizon now days_ahead) in Hrun.
  change (replace_to_hour now + 2 * US_PER_HOUR) with (first_instant now) in Hrun.
  replace (first_instant now)
    with (first_instant now + 0 * CalendarClient.half_hour) in Hrun at 2 by lia.
  change (@nil slot) with (map (slot_at duration_minutes) []) in Hrun.
  eapply (slots_loop_spec now busy duration_minutes days_ahead _ _ 0 []);
    [lia | | exact Hrun].
  split; [constructor |]. split; [constructor |]. split; [constructor |].
  split; [cbn; lia |]. intros c Hc Hlt. exfalso.
  destruct Hc as ((k & Hk & ->) & _).
  unfold CalendarClient.half_hour, US_PER_MINUTE, US_PER_SECOND in Hlt. lia.
Qed.

(** X18. The slots [get_available_slots] returns are at most ten, in
    strictly increasing order of start, and each starts at an instant that
    is on offer: on the half-hour grid that begins two hours after the hour
    of the clock, before the horizon, Monday to Friday, from 9:00 and before
    18:00, with an end ([duration_minutes] later) whose clock time is not
    after 18:00, clear of every busy period and with a start text that no
    excluded slot has. *)
Theorem get_available_slots_offers (now : datetime)
    (busy : list (datetime * datetime)) (duration_minutes days_ahead : Z)
    (exclude_slots : option (list slot)) (out : list slot) :
  CalendarClient.get_available_slots now busy duration_minutes days_ahead
    exclude_slots = Some (Ok out) ->
  exists cs,
    out = map (slot_at duration_minutes) cs
    /\ Forall (on_offer now busy duration_minutes days_ahead
                 (match exclude_slots with Some l => l | None => [] end)) cs
    /\ StronglySorted Z.lt cs
    /\ (length out <= 10)%nat.
Proof.
  intros Hrun.
  destruct (get_available_slots_spec _ _ _ _ _ _ Hrun)
    as (cs & -> & Hall & Hsort & Hlen & _).
  exists cs. rewrite length_map. auto.
Qed.

(** X19. [get_available_slots] takes the earliest instants on offer: an
    instant on offer is among the starts returned whenever fewer than ten
    slots are returned, or a slot that starts no earlier is returned. *)
Theorem get_available_slots_first_fit (now : datetime)
    (busy : list (datetime * datetime)) (duration_minutes days_ahead : Z)
    (exclude_slots : option (list slot)) (out : list slot) :
  CalendarClient.get_available_slots now busy duration_minutes days_ahead
    exclude_slots = Some (Ok out) ->
  exists cs,
    out = map (slot_at duration_minutes) cs
    /\ forall c,
         on_offer now busy duration_minutes days_ahead
           (match exclude_slots with Some l => l | None => [] end) c ->
         (length out < 10)%nat \/ (exists c', In c' cs /\ c <= c') ->
         In c cs.
Proof.
  intros Hrun.
  destruct (get_available_slots_spec _ _ _ _ _ _ Hrun)
    as (cs & -> & _ & _ & _ & Hfirst).
  exists cs. split; [reflexivity |]. rewrite length_map. exact Hfirst.
Qed.

(** ** [create_event] *)

Lemma pad_chars (p : ascii -> bool) (w : nat) (n : Z) :
  (forall k, p (digit (k mod 10)) = true) -> all_chars p (pad w n) = true.
Proof.
  intros Hp. revert n. induction w as [| w IH]; intros n; [reflexivity |].
  cbn [pad]. rewrite all_chars_app, IH. cbn [all_chars]. now rewrite Hp.
Qed.

Lemma digit_iso (k : Z) : iso_char (digit (k mod 10)) = true.
Proof.
  pose proof (Z.mod_pos_bound k 10 ltac:(lia)) as H.
  assert (E : k mod 10 = 0 \/ k mod 10 = 1 \/ k mod 10 = 2 \/ k mod 10 = 3
              \/ k mod 10 = 4 \/ k mod 10 = 5 \/ k mod 10 = 6 \/ k mod 10 = 7
              \/ k mod 10 = 8 \/ k mod 10 = 9) by lia.
  repeat destruct E as [E | E]; rewrite E; reflexivity.
Qed.

Lemma isoformat_chars (t : datetime) : all_chars iso_char (isoformat t) = true.
Proof.
  unfold isoformat.
  rewrite !all_chars_app, !(pad_chars iso_char) by apply digit_iso.
  destruct (microsecond t =? 0); [reflexivity |].
  rewrite all_chars_app, (pad_chars iso_char) by apply digit_iso. reflexivity.
Qed.

Lemma contains_char (p : ascii -> bool) (x : ascii) (s : string) :
  p x = false -> all_chars p s = true -> contains (String x "") s = false.
Proof.
  intros Hx. induction s as [| c s IH]; intros Hs; [reflexivity |].
  cbn [all_chars] in Hs. apply andb_prop in Hs as [Hc Hs].
  cbn [contains String.prefix]. rewrite (IH Hs).
  destruct (ascii_dec x c) as [-> | Hne]; [congruence |].
  now destruct s.
Qed.

Lemma event_date_time_isoformat (t : datetime) :
  CalendarClient.event_date_time (isoformat t) = (isoformat t ++ ":00")%string.
Proof.
  unfold CalendarClient.event_date_time.
  rewrite !(contains_char iso_char) by (reflexivity || apply isoformat_chars).
  reflexivity.
Qed.

(** X20. For a slot that [get_available_slots] returned, [create_event]
    sends a [dateTime] with [":00"] appended to the start and to the end,
    which are complete ISO texts already: they have neither ["Z"] nor
    ["+"]. *)
Theorem created_event_times_get_extra_field (now : datetime)
    (busy : list (datetime * datetime)) (duration_minutes days_ahead : Z)
    (exclude_slots : option (list slot)) (out : list slot) (s : slot) :
  CalendarClient.get_available_slots now busy duration_minutes days_ahead
    exclude_slots = Some (Ok out) ->
  In s out ->
  CalendarClient.event_date_time (s_start s) = (s_start s ++ ":00")%string
  /\ CalendarClient.event_date_time (s_end s) = (s_end s ++ ":00")%string.
Proof.
  intros Hrun Hin.
  destruct (get_available_slots_spec _ _ _ _ _ _ Hrun) as (cs & -> & _).
  apply in_map_iff in Hin as (c & <- & _). cbn [slot_at s_start s_end].
  split; apply event_date_time_isoformat.
Qed.

(** ** [MockCalendarClient.get_available_slots] *)

Lemma weekday_add_days (t k : Z) :
  weekday (t + k * US_PER_DAY) = (weekday t + k) mod 7.
Proof.
  unfold weekday, toordinal. rewrite Z.div_add by discriminate.
  rewrite Zplus_mod_idemp_l. f_equal. lia.
Qed.

Lemma day_slots_length (now : datetime) (d k : Z) (slots slots' : list slot) :
  MockCalendarClient.day_slots now d k slots = Ok slots' ->
  length slots'
  = (length slots + (if ((weekday now + k) mod 7 <? 5)%Z then 2 else 0))%nat.
Proof.
  unfold MockCalendarClient.day_slots, timedelta_days.
  destruct ((-999999999 <=? k) && (k <=? 999999999)); [| discriminate].
  destruct (dt_add now (k * US_PER_DAY)) as [base |] eqn:E; [| discriminate].
  apply dt_add_value in E. subst base. rewrite weekday_add_days.
  destruct ((weekday now + k) mod 7 <? 5).
  - destruct (timedelta_minutes d); [| discriminate].
    destruct (dt_add _ _); [| discriminate].
    destruct (dt_add _ _); [| discriminate].
    intros [= <-]. rewrite length_app. reflexivity.
  - intros [= <-]. lia.
Qed.

Lemma mock_calendar_length (utcnow : datetime) (email : string)
    (duration_minutes days_ahead : Z) (exclude_slots : option (list slot))
    (out : list slot) :
  MockCalendarClient.get_available_slots utcnow email duration_minutes days_ahead
    exclude_slots = Ok out ->
  (4 <= length out <= 6)%nat.
Proof.
  unfold MockCalendarClient.get_available_slots. cbv zeta.
  set (now := replace_to_hour_of_day utcnow 10).
  cbn [MockCalendarClient.days_loop].
  destruct (MockCalendarClient.day_slots now duration_minutes 1 [])
    as [s1 |] eqn:E1; [| discriminate].
  destruct (MockCalendarClient.day_slots now duration_minutes 2 s1)
    as [s2 |] eqn:E2; [| discriminate].
  destruct (MockCalendarClient.day_slots now duration_minutes 3 s2)
    as [s3 |] eqn:E3; [| discriminate].
  destruct (MockCalendarClient.day_slots now duration_minutes 4 s3)
    as [s4 |] eqn:E4; [| discriminate].
  intros [= <-].
  apply day_slots_length in E1, E2, E3, E4. cbn [length] in E1.
  rewrite length_firstn.
  assert (Hw : 0 <= weekday now < 7) by (unfold weekday; apply Z.mod_pos_bound; lia).
  assert (Hcase : weekday now = 0 \/ weekday now = 1 \/ weekday now = 2
                  \/ weekday now = 3 \/ weekday now = 4 \/ weekday now = 5
                  \/ weekday now = 6) by lia.
  repeat destruct Hcase as [Hcase | Hcase]; rewrite Hcase in *;
    repeat match goal with
      | H : context [((?a + ?b) mod 7 <? 5)] |- _ =>
          let v := eval vm_compute in ((a + b) mod 7 <? 5) in
          change ((a + b) mod 7 <? 5) with v in H
      end;
    cbv iota in *; lia.
Qed.

(** X21. The mock calendar never comes back empty-handed: whenever it
    returns, it returns between four and six slots, for every clock,
    duration, horizon and exclusion list; it looks neither at the horizon
    nor at the slots it is asked to leave out. *)
Theorem mock_calendar_offers_four_to_six (utcnow : datetime) (email : string)
    (duration_minutes days_ahead : Z) (exclude_slots : option (list slot))
    (out : list slot) :
  MockCalendarClient.get_available_slots utcnow email duration_minutes days_ahead
    exclude_slots = Ok out ->
  (4 <= length out <= 6)%nat
  /\ MockCalendarClient.get_available_slots utcnow email duration_minutes 14 None
     = Ok out.
Proof.
  intros H. split; [eapply mock_calendar_length; exact H | exact H].
Qed.

Lemma mock_calendar_raises (utcnow : datetime) (email : string)
    (duration_minutes days_ahead : Z) (exclude_slots : option (list slot)) (e : exn) :
  MockCalendarClient.get_available_slots utcnow email duration_minutes days_ahead
    exclude_slots = Raise e ->
  e = OverflowError.
Proof.
  assert (Hday : forall now k slots e',
             MockCalendarClient.day_slots now duration_minutes k slots = Raise e' ->
             e' = OverflowError).
  { intros now k slots e'. unfold MockCalendarClient.day_slots.
    repeat match goal with
      | |- context [match ?x with _ => _ end] => destruct x
      end; congruence. }
  unfold MockCalendarClient.get_available_slots. cbv zeta.
  cbn [MockCalendarClient.days_loop].
  repeat match goal with
    | |- context [MockCalendarClient.day_slots ?n ?d ?k ?s] =>
        let E := fresh "E" in
        destruct (MockCalendarClient.day_slots n d k s) eqn:E;
        [| apply Hday in E; congruence]
    end.
  discriminate.
Qed.

(** X22. With the mock calendar behind it, the agent never escalates: when no
    time matches, [_handle_no_overlap] gets between four and six slots from
    the mock whatever was offered before, adds them to the offered slots and
    answers that alternative times were sent; the status is left as it was.
    The only other outcome is an [OverflowError] from the mock, with the
    request untouched. *)
Theorem mock_calendar_never_escalates (py : Python) (W : World)
    (utcnow : list call -> datetime) (rid : string) (r : InterviewRequest)
    (a : Agent) :
  delivers W ->
  (forall log email d n ex,
     calendar_get_available_slots W log email d n ex
     = MockCalendarClient.get_available_slots (utcnow log) email d n ex) ->
  active_requests a !! rid = Some r ->
  let a' := fst (_handle_no_overlap py W rid a) in
  (snd (_handle_no_overlap py W rid a)
   = Ok (Out_awaiting_candidate "Sent alternative times")
   /\ exists batch,
        (4 <= length batch <= 6)%nat
        /\ active_requests a' !! rid
           = Some (set_recruiter_slots (recruiter_slots r ++ batch) r))
  \/ (snd (_handle_no_overlap py W rid a) = Raise OverflowError
      /\ active_requests a' !! rid = Some r).
Proof.
  intros Hdelivers Hmock Hr a'. subst a'.
  destruct (calendar_get_available_slots W (calls a) (recruiter_email r)
              (duration_minutes r) 21 (Some (recruiter_slots r)))
    as [batch | e] eqn:Hfetch.
  - left. rewrite (_handle_no_overlap_at py W Hdelivers rid r batch a Hr Hfetch).
    rewrite Hmock in Hfetch.
    apply mock_calendar_length in Hfetch.
    destruct batch as [| s batch]; [cbn in Hfetch; lia |].
    cbn [no_overlap_result fst snd]. split; [reflexivity |].
    exists (s :: batch). split; [exact Hfetch | apply lookup_put].
  - right. rewrite Hmock in Hfetch. pose proof Hfetch as He.
    apply mock_calendar_raises in He. subst e. rewrite <- Hmock in Hfetch.
    unfold _handle_no_overlap.
    rewrite (bind_ok _ _ _ _ _ (get_request_at _ _ _ Hr)).
    unfold bind, calendar_get_available_slots_. rewrite Hfetch. cbn [fst snd].
    split; [reflexivity | exact Hr].
Qed.

(** ** The agent on the mock language model *)

Lemma str_lower_app (a b : string) :
  str_lower (a ++ b) = (str_lower a ++ str_lower b)%string.
Proof.
  induction a as [| c a IH]; [reflexivity |].
  rewrite append_cons. cbn [str_lower]. now rewrite IH, append_cons.
Qed.

Lemma prefix_app (p a b : string) :
  String.prefix p a = true -> String.prefix p (a ++ b) = true.
Proof.
  revert p. induction a as [| c a IH]; intros p H.
  - destruct p; [| discriminate]. now destruct b.
  - rewrite append_cons. destruct p as [| x p]; [reflexivity |].
    cbn [String.prefix] in *.
    destruct (ascii_dec x c); [now apply IH | discriminate].
Qed.

Lemma contains_app_l (sub a b : string) :
  contains sub a = true -> contains sub (a ++ b) = true.
Proof.
  induction a as [| c a IH].
  - destruct sub; [destruct b; reflexivity | discriminate].
  - rewrite append_cons. cbn [contains]. intros H.
    apply orb_prop in H as [H | H].
    + change (String c (a ++ b)) with (String c a ++ b)%string.
      now rewrite (prefix_app _ _ _ H).
    + rewrite (IH H). apply orb_true_r.
Qed.

Lemma contains_app_r (sub a b : string) :
  contains sub b = true -> contains sub (a ++ b) = true.
Proof.
  intros H. induction a as [| c a IH]; [exact H |].
  rewrite append_cons. cbn [contains]. rewrite IH. apply orb_true_r.
Qed.

Lemma contains_line (sub ln body : string) :
  has_line ln body -> contains sub (str_lower ln) = true ->
  contains sub (str_lower body) = true.
Proof.
  intros (before & after & ->) H.
  rewrite !str_lower_app. apply contains_app_r, contains_app_r.
  now apply contains_app_l.
Qed.

Lemma prompt_says_monday (py : Python) (today : datetime) (body : string)
    (r : InterviewRequest) :
  contains "monday" (str_lower (extraction_prompt py today body r)) = true.
Proof.
  eapply contains_line.
  - unfold extraction_prompt.
    match goal with
    | |- has_line _ (join nl (?a1 :: ?a2 :: ?a3 :: ?a4 :: ?a5 :: ?a6 :: ?a7 :: ?a8
                               :: ?a9 :: ?a10 :: ?a11 :: ?a12 :: ?a13 :: ?a14
                               :: ?a15 :: ?a16 :: ?a17 :: ?a18 :: ?a19 :: ?a20
                               :: ?a21 :: ?a22 :: ?a23 :: ?a24 :: ?a25 :: ?a26
                               :: ?a27 :: ?a28 :: ?a29 :: ?a30 :: ?a31 :: ?ln
                               :: ?rest)) =>
        apply (join_has_line
                 [a1; a2; a3; a4; a5; a6; a7; a8; a9; a10; a11; a12; a13; a14; a15;
                  a16; a17; a18; a19; a20; a21; a22; a23; a24; a25; a26; a27; a28;
                  a29; a30; a31]
                 rest ln); discriminate
    end.
  - vm_compute. reflexivity.
Qed.

(** X23. Without an API key the language model reads every reply the same
    way: the prompt the agent builds always has the word "Monday" in its
    rules, so [_mock_complete] answers with availability on 10 March 2025 at
    10:00 and on 11 March 2025 at 14:00, whatever the reply, the date and
    the request are. *)
Theorem mock_llm_answers_monday_and_tuesday (py : Python) (today : datetime)
    (body : string) (r : InterviewRequest) :
  LLMClient._mock_complete (extraction_prompt py today body r)
  = Ascii_runtime.dumps
      (LLMClient.mock_answer "provide_availability" LLMClient.monday_tuesday
         "Candidate provided availability").
Proof.
  unfold LLMClient._mock_complete. cbv zeta.
  now rewrite prompt_says_monday.
Qed.

(** X24. With the mock language model, what a reply says does not reach the
    agent's decision: [handle_email_reply] records the reply and then
    processes the mock's two slots as the respondent's availability, for a
    reply that accepts as for one that declines. *)
Theorem mock_llm_reply_is_availability (py : Python) (W : World)
    (rid sender body : string) (r : InterviewRequest) (a : Agent) :
  (forall log prompt, llm_complete W log prompt = Ok (LLMClient._mock_complete prompt)) ->
  parse_response py
    (Ascii_runtime.dumps
       (LLMClient.mock_answer "provide_availability" LLMClient.monday_tuesday
          "Candidate provided availability"))
  = LLMClient.mock_answer "provide_availability" LLMClient.monday_tuesday
      "Candidate provided availability" ->
  active_requests a !! rid = Some r ->
  handle_email_reply py W rid sender body a
  = _process_candidate_availability py W rid (JArr LLMClient.monday_tuesday)
      (heard py W rid sender body r a).
Proof.
  intros Hllm Hloads Hr. rewrite (handle_email_reply_at py W _ _ _ _ _ Hr).
  unfold extracted. rewrite Hllm. unfold LLMClient._mock_complete. cbv zeta.
  rewrite prompt_says_monday. cbn [orb]. rewrite Hloads.
  apply dispatch_provide_availability; reflexivity.
Qed.

(** ** Failures at initiation *)

(** [initiate_scheduling], by what the calendar and the mail do. *)
Lemma initiate_scheduling_cases (py : Python) (W : World)
    (recruiter candidate title : string) (d : Z) (a : Agent) :
  let rid := make_request_id (datetime_now W (calls a)) candidate in
  let r0 := new_request recruiter candidate title d in
  let fetch := GetAvailableSlots recruiter d 14 None in
  initiate_scheduling py W recruiter candidate title d a
  = match calendar_get_available_slots W (calls a) recruiter d 14 None with
    | Raise e => (put rid r0 (logged [fetch] a), Raise e)
    | Ok slots =>
        let r := set_recruiter_slots slots r0 in
        match email_send W (calls a ++ [fetch]) candidate
                ("Interview Scheduling – " ++ title)
                (availability_body py rid r slots false) with
        | Raise e =>
            (put rid r (logged [fetch; offer_message py rid r slots false] a),
             Raise e)
        | Ok _ =>
            (put rid (set_status awaiting_candidate r)
               (logged [fetch; offer_message py rid r slots false] a),
             Ok (rid, set_status awaiting_candidate r))
        end
    end.
Proof.
  intros rid r0 fetch. unfold initiate_scheduling.
  unfold bind at 1. unfold now_ at 1. fold rid. cbv zeta.
  unfold bind at 1.
  match goal with
  | |- context [bind (calendar_get_available_slots_ W _ _ _ _) _ ?s] =>
      change s with (put rid r0 a)
  end.
  unfold bind at 1. unfold calendar_get_available_slots_ at 1.
  cbn [calls put]. fold fetch.
  destruct (calendar_get_available_slots W (calls a) recruiter d 14 None)
    as [slots | e']; [| reflexivity].
  rewrite log_call_logged, put_logged.
  rewrite (bind_ok _ _ _ _ _ (update_request_put _ _ _ _)).
  rewrite (bind_ok _ _ _ _ _ (get_request_put _ _ _)).
  unfold bind at 1. unfold _send_availability_request, bind at 1, email_send_ at 1.
  cbn [calls put logged].
  change (candidate_email (set_recruiter_slots slots r0)) with candidate.
  change (job_title (set_recruiter_slots slots r0)) with title.
  unfold offer_message.
  change (candidate_email (set_recruiter_slots slots r0)) with candidate.
  change (job_title (set_recruiter_slots slots r0)) with title.
  destruct (email_send W (calls a ++ [fetch]) candidate _ _) as [sent | e'].
  - unfold ret at 1. rewrite log_call_logged, put_logged, logged_logged.
    rewrite (bind_ok _ _ _ _ _ (update_request_put _ _ _ _)).
    rewrite (bind_ok _ _ _ _ _ (get_request_put _ _ _)).
    reflexivity.
  - rewrite log_call_logged, put_logged, logged_logged. reflexivity.
Qed.

(** X25. When [initiate_scheduling] raises, out of the availability query or
    out of the send, the request it registered stays in [active_requests]
    with status [pending] and an empty history: nothing removes it. *)
Theorem failed_initiation_leaves_pending_request (py : Python) (W : World)
    (recruiter candidate title : string) (d : Z) (a : Agent) (e : exn) :
  snd (initiate_scheduling py W recruiter candidate title d a) = Raise e ->
  exists r,
    active_requests (fst (initiate_scheduling py W recruiter candidate title d a))
      !! make_request_id (datetime_now W (calls a)) candidate = Some r
    /\ status r = pending
    /\ candidate_email r = candidate
    /\ conversation_history r = [].
Proof.
  rewrite initiate_scheduling_cases. cbv zeta.
  destruct (calendar_get_available_slots W (calls a) recruiter d 14 None)
    as [slots | e'].
  - destruct (email_send W _ _ _ _) as [sent | e'']; [discriminate |].
    intros _. cbn [fst]. eexists. split; [apply lookup_put |]. now repeat split.
  - intros _. cbn [fst]. eexists. split; [apply lookup_put |]. now repeat split.
Qed.

(** X26. [initiate_scheduling] does not look at what [send] returns: when the
    availability query returns and the send returns, with [True] or with
    [False] (the mail server refused the message), the request becomes
    [awaiting_candidate] all the same. *)
Theorem unsent_offer_still_awaits (py : Python) (W : World)
    (recruiter candidate title : string) (d : Z) (slots : list slot) (sent : bool)
    (a : Agent) :
  let rid := make_request_id (datetime_now W (calls a)) candidate in
  let r := set_recruiter_slots slots (new_request recruiter candidate title d) in
  calendar_get_available_slots W (calls a) recruiter d 14 None = Ok slots ->
  email_send W (calls a ++ [GetAvailableSlots recruiter d 14 None]) candidate
    ("Interview Scheduling – " ++ title) (availability_body py rid r slots false)
  = Ok sent ->
  snd (initiate_scheduling py W recruiter candidate title d a)
  = Ok (rid, set_status awaiting_candidate r)
  /\ active_requests (fst (initiate_scheduling py W recruiter candidate title d a))
       !! rid = Some (set_status awaiting_candidate r).
Proof.
  intros rid r Hfetch Hsend. rewrite initiate_scheduling_cases. cbv zeta.
  rewrite Hfetch. fold rid r. rewrite Hsend. cbn [fst snd].
  split; [reflexivity | apply lookup_put].
Qed.

(** ** The polling service *)

Lemma route_app (py : Python) (W : World) (l1 l2 : list Main.FakeEmail)
    (a a1 : Agent) :
  Main.route py W l1 a = (a1, Ok tt) ->
  Main.route py W (l1 ++ l2) a = Main.route py W l2 a1.
Proof.
  revert a. induction l1 as [| reply l1 IH]; intros a H.
  - cbn in H. injection H as ->. reflexivity.
  - cbn [app Main.route] in *.
    destruct (Main.request_id reply) as [[| c rid] |]; try now apply IH.
    unfold bind in *.
    destruct (handle_email_reply py W (String c rid) (Main.sender reply)
                (Main.body reply) a) as [a' [out | e]]; [now apply IH | discriminate].
Qed.

(** X27. When handling one reply of a poll raises, [_check_inbox] raises with
    it: the replies fetched after it are never handled, and they are gone,
    since the queue was emptied when the batch was fetched. *)
Theorem poll_drops_replies_after_exception (py : Python) (W : World)
    (l1 l2 : list Main.FakeEmail) (reply : Main.FakeEmail) (c : ascii)
    (rid : string) (a a1 a2 : Agent) (e : exn) :
  Main.route py W l1 a = (a1, Ok tt) ->
  Main.request_id reply = Some (String c rid) ->
  handle_email_reply py W (String c rid) (Main.sender reply) (Main.body reply) a1
  = (a2, Raise e) ->
  Main._check_inbox py W
    {| Main.agent := a; Main.pending_replies := l1 ++ reply :: l2 |}
  = ({| Main.agent := a2; Main.pending_replies := [] |}, Raise e).
Proof.
  intros H1 Hid Hraise. unfold Main._check_inbox, Main.fetch_new_replies.
  cbn [Main.pending_replies Main.agent].
  rewrite (route_app py W l1 (reply :: l2) a a1 H1).
  cbn [Main.route]. rewrite Hid. unfold bind. rewrite Hraise. reflexivity.
Qed.

(** ** The properties on the scenarios *)

Section CaseProofs.
Import Scenario Scenarios Cases.

Lemma W_retry_delivers : delivers W_retry.
Proof. intros log to subject body. exists true. reflexivity. Qed.

Lemma W_demo_delivers : delivers W_demo.
Proof. intros log to subject body. exists true. reflexivity. Qed.

Lemma find_overlap_starts_distinct_witness :
  NoDup (map s_start [monday_slot]).
Proof.
  apply (find_overlap_starts_distinct Ascii_runtime.python scenario_A_offered
           (JArr scenario_A_respondent) 60).
  vm_compute. reflexivity.
Defined.

Lemma find_overlap_not_iterable_witness :
  _find_overlap Ascii_runtime.python scenario_A_offered (JNum 5) 60 = Raise TypeError.
Proof.
  rewrite (find_overlap_not_iterable Ascii_runtime.python scenario_A_offered
             (JNum 5) 60 eq_refl).
  vm_compute. reflexivity.
Defined.

Lemma unsized_availability_raises_witness :
  snd (_process_candidate_availability Ascii_runtime.python W_A request_id (JNum 5)
         (initiated W_A))
  = Raise TypeError.
Proof.
  rewrite (unsized_availability_raises Ascii_runtime.python W_A request_id
             offered_request (JNum 5) (initiated W_A));
    [reflexivity | vm_compute; reflexivity | reflexivity | reflexivity].
Defined.

Lemma decline_cancels_without_calendar_witness :
  snd (reply W_A withdraw_reply (booked_agent W_A)) = Ok Out_cancelled
  /\ exists r',
       request_of (fst (reply W_A withdraw_reply (booked_agent W_A))) = Some r'
       /\ status r' = cancelled
       /\ confirmed_slot r' = Some monday_slot.
Proof.
  destruct (decline_cancels_without_calendar Ascii_runtime.python W_A
              (world_delivers _ _) request_id candidate withdraw_reply
              booked_request
              [("action", JStr "decline"); ("slots", JArr []); ("message", JStr "")]
              (booked_agent W_A))
    as (Hout & _ & r' & Hr' & Hst & Hslot & _).
  - vm_compute. reflexivity.
  - vm_compute. reflexivity.
  - reflexivity.
  - split; [exact Hout |]. exists r'. split; [exact Hr' |]. split; [exact Hst |].
    exact Hslot.
Defined.

Lemma confirm_without_slot_is_an_error_witness :
  snd (handle_email_reply Ascii_runtime.python W_retry request_id candidate
         confirm_reply (initiated W_retry))
  = Ok (Out_error "No slot to confirm").
Proof.
  rewrite (confirm_without_slot_is_an_error Ascii_runtime.python W_retry request_id
             candidate confirm_reply offered_request
             [("action", JStr "confirm"); ("slots", JArr []); ("message", JStr "")]
             (initiated W_retry));
    [reflexivity | vm_compute; reflexivity | vm_compute; reflexivity | reflexivity
    | reflexivity].
Defined.

Lemma confirm_books_held_slot_witness :
  let a1 :=
    fst (handle_email_reply Ascii_runtime.python W_retry request_id candidate
           monday_reply (initiated W_retry)) in
  request_of a1 = Some held_request
  /\ status held_request = awaiting_candidate
  /\ snd (handle_email_reply Ascii_runtime.python W_retry request_id candidate
            confirm_reply a1)
     = Ok (Out_confirmed monday_slot None).
Proof.
  intros a1.
  assert (Hr : request_of a1 = Some held_request) by (vm_compute; reflexivity).
  split; [exact Hr |]. split; [reflexivity |].
  destruct (confirm_books_held_slot Ascii_runtime.python W_retry W_retry_delivers
              request_id candidate confirm_reply held_request
              [("action", JStr "confirm"); ("slots", JArr []); ("message", JStr "")]
              monday_slot mock_event a1 Hr)
    as (Hout & _).
  - vm_compute. reflexivity.
  - reflexivity.
  - reflexivity.
  - vm_compute. reflexivity.
  - exact Hout.
Defined.

Lemma reply_only_logs_and_assigns_witness :
  active_requests (fst (reply W_A monday_reply (initiated W_A))) !! "req_other" = None.
Proof.
  apply (reply_only_logs_and_assigns Ascii_runtime.python W_A request_id
           (fun a => active_requests a !! "req_other" = None)).
  - split; [intros a c H; exact H |].
    intros a f _ H. cbn. rewrite lookup_alter_ne; [exact H |].
    intros E. vm_compute in E. discriminate E.
  - vm_compute. reflexivity.
Defined.

Lemma reply_never_clears_confirmed_slot_witness :
  holds_slot request_id (fst (reply W_A withdraw_reply (booked_agent W_A))).
Proof.
  apply (reply_never_clears_confirmed_slot Ascii_runtime.python W_A request_id
           candidate withdraw_reply (booked_agent W_A) request_id).
  exists booked_request. split; [vm_compute; reflexivity | cbn; eauto].
Defined.

Lemma confirmed_requests_have_slot_witness :
  exists s, confirmed_slot booked_request = Some s.
Proof.
  apply (confirmed_requests_have_slot Ascii_runtime.python W_A
           [Initiate recruiter candidate title 60;
            Reply request_id candidate monday_reply] request_id booked_request).
  - vm_compute. reflexivity.
  - reflexivity.
Defined.

Lemma now_valid : dt_valid now.
Proof. apply dt_in_range_valid. vm_compute. reflexivity. Qed.

Lemma request_tokens_collide_iff_witness :
  make_request_id now "john.doe@example.com"
  = make_request_id (now + 999999) "john.doe@other.org".
Proof.
  apply (request_tokens_collide_iff now (now + 999999) "john.doe@example.com"
           "john.doe@other.org").
  - apply dt_in_range_valid. vm_compute. reflexivity.
  - apply dt_in_range_valid. vm_compute. reflexivity.
  - split; vm_compute; reflexivity.
Defined.

Lemma initiation_replaces_request_with_same_token_witness :
  let a := booked_agent W_A in
  let a' :=
    fst (initiate_scheduling Ascii_runtime.python W_A recruiter
           "john.doe@other.org" "Product Manager" 45 a) in
  request_of a = Some booked_request
  /\ dom (active_requests a') = dom (active_requests a)
  /\ exists r, request_of a' = Some r
               /\ just_initiated recruiter "john.doe@other.org" "Product Manager" 45 r.
Proof.
  intros a a'.
  assert (Hr : request_of a = Some booked_request) by (vm_compute; reflexivity).
  split; [exact Hr |].
  exact (initiation_replaces_request_with_same_token Ascii_runtime.python W_A
           recruiter "john.doe@other.org" "Product Manager" 45 a booked_request Hr).
Defined.

Lemma parse_dt_discards_utc_offset_witness :
  _parse_dt Ascii_runtime.python "2025-03-10T10:00:00+05:30"
  = Ok (mk_datetime 2025 3 10 10 0 0)
  /\ _parse_dt Ascii_runtime.python "2025-03-10T10:00:00-08:00"
     = Ok (mk_datetime 2025 3 10 10 0 0).
Proof.
  split.
  - change "2025-03-10T10:00:00+05:30"
      with ("2025-03-10T10:00:00" ++ utc_offset "+" "0" "5" "3" "0")%string.
    rewrite (parse_dt_discards_utc_offset Ascii_runtime.python "2025-03-10T10:00:00"
               "+" "0" "5" "3" "0" eq_refl eq_refl eq_refl eq_refl eq_refl).
    vm_compute. reflexivity.
  - change "2025-03-10T10:00:00-08:00"
      with ("2025-03-10T10:00:00" ++ utc_offset "-" "0" "8" "0" "0")%string.
    rewrite (parse_dt_discards_utc_offset Ascii_runtime.python "2025-03-10T10:00:00"
               "-" "0" "8" "0" "0" eq_refl eq_refl eq_refl eq_refl eq_refl).
    vm_compute. reflexivity.
Defined.

Lemma request_token_read_back_witness :
  EmailClient._extract_request_id
    ("Monday works." ++ nl ++ nl ++ "> "
     ++ request_id_line (make_request_id now "vepadanandini123@gmail.com")
     ++ nl ++ "> Best regards")
  = Some (make_request_id now "vepadanandini123@gmail.com").
Proof.
  apply (request_token_read_back now "vepadanandini123@gmail.com"
           ("Monday works." ++ nl ++ nl ++ "> ") (nl ++ "> Best regards"));
    vm_compute; reflexivity.
Defined.

Lemma monday_offer_run :
  CalendarClient.get_available_slots now monday_busy 60 2 None = Some (Ok monday_offer).
Proof. vm_compute. reflexivity. Qed.

Lemma get_available_slots_offers_witness :
  exists cs,
    monday_offer = map (slot_at 60) cs
    /\ Forall (on_offer now monday_busy 60 2 []) cs
    /\ StronglySorted Z.lt cs
    /\ (length monday_offer <= 10)%nat.
Proof.
  exact (get_available_slots_offers now monday_busy 60 2 None monday_offer
           monday_offer_run).
Defined.

Lemma monday_edges_run :
  CalendarClient.get_available_slots now monday_meetings 60 2 None
  = Some (Ok monday_edges).
Proof. vm_compute. reflexivity. Qed.

Lemma get_available_slots_first_fit_witness :
  exists cs,
    monday_edges = map (slot_at 60) cs /\ In (mk_datetime 2025 3 10 17 0 0) cs.
Proof.
  destruct (get_available_slots_first_fit now monday_meetings 60 2 None monday_edges
              monday_edges_run) as (cs & Hcs & Hfit).
  exists cs. split; [exact Hcs |]. apply Hfit.
  - split; [exists 60; split; [lia | vm_compute; reflexivity] |].
    split; [vm_compute; reflexivity |].
    split; [vm_compute; left; reflexivity |].
    split; [vm_compute; split; [discriminate | reflexivity] |].
    split; [vm_compute; discriminate |].
    split; [| intros s []].
    intros b_start b_end [E | []] [H _]. injection E as <- <-.
    vm_compute in H. discriminate H.
  - left. cbn. lia.
Defined.

Lemma created_event_times_get_extra_field_witness :
  CalendarClient.event_date_time "2025-03-10T09:00:00" = "2025-03-10T09:00:00:00"
  /\ CalendarClient.event_date_time "2025-03-10T10:00:00" = "2025-03-10T10:00:00:00".
Proof.
  exact (created_event_times_get_extra_field now monday_meetings 60 2 None
           monday_edges (calendar_slot "2025-03-10T09:00:00" "2025-03-10T10:00:00")
           monday_edges_run (or_introl eq_refl)).
Defined.

Lemma demo_offer_run :
  MockCalendarClient.get_available_slots now recruiter 60 21 (Some demo_offer)
  = Ok demo_offer.
Proof. vm_compute. reflexivity. Qed.

Lemma mock_calendar_offers_four_to_six_witness :
  (4 <= length demo_offer <= 6)%nat
  /\ MockCalendarClient.get_available_slots now recruiter 60 14 None = Ok demo_offer.
Proof.
  exact (mock_calendar_offers_four_to_six now recruiter 60 21 (Some demo_offer)
           demo_offer demo_offer_run).
Defined.

Lemma mock_calendar_never_escalates_witness :
  let a := initiated W_demo in
  let a' := fst (_handle_no_overlap Ascii_runtime.python W_demo request_id a) in
  (snd (_handle_no_overlap Ascii_runtime.python W_demo request_id a)
   = Ok (Out_awaiting_candidate "Sent alternative times")
   /\ exists batch,
        (4 <= length batch <= 6)%nat
        /\ active_requests a' !! request_id
           = Some (set_recruiter_slots (recruiter_slots demo_request ++ batch)
                     demo_request))
  \/ (snd (_handle_no_overlap Ascii_runtime.python W_demo request_id a)
      = Raise OverflowError
      /\ active_requests a' !! request_id = Some demo_request).
Proof.
  intros a a'.
  apply (mock_calendar_never_escalates Ascii_runtime.python W_demo (fun _ => now)
           request_id demo_request a W_demo_delivers).
  - intros log email d n ex. reflexivity.
  - vm_compute. reflexivity.
Defined.

Lemma mock_llm_reply_is_availability_witness :
  exists event,
    snd (handle_email_reply Ascii_runtime.python W_demo request_id candidate
           withdraw_reply (initiated W_demo))
    = Ok (Out_confirmed
            {| s_start := "2025-03-10T10:00:00"; s_end := "2025-03-10T11:00:00";
               s_display := Some "Monday, March 10 at 10:00 AM" |} event).
Proof.
  rewrite (mock_llm_reply_is_availability Ascii_runtime.python W_demo request_id
             candidate withdraw_reply demo_request (initiated W_demo));
    [| intros log prompt; reflexivity | vm_compute; reflexivity
     | vm_compute; reflexivity].
  eexists. vm_compute. reflexivity.
Defined.

Lemma failed_initiation_leaves_pending_request_witness :
  exists r,
    request_of
      (fst (initiate_scheduling Ascii_runtime.python W_offline recruiter candidate
              title 60 empty_agent)) = Some r
    /\ status r = pending
    /\ candidate_email r = candidate
    /\ conversation_history r = [].
Proof.
  apply (failed_initiation_leaves_pending_request Ascii_runtime.python W_offline
           recruiter candidate title 60 empty_agent (CollaboratorError "calendar")).
  vm_compute. reflexivity.
Defined.

Lemma unsent_offer_still_awaits_witness :
  snd (initiate_scheduling Ascii_runtime.python W_undelivered recruiter candidate
         title 60 empty_agent)
  = Ok (request_id, offered_request)
  /\ request_of
       (fst (initiate_scheduling Ascii_runtime.python W_undelivered recruiter
               candidate title 60 empty_agent))
     = Some offered_request.
Proof.
  exact (unsent_offer_still_awaits Ascii_runtime.python W_undelivered recruiter
           candidate title 60 scenario_A_offered false empty_agent eq_refl eq_refl).
Defined.

Lemma poll_drops_replies_after_exception_witness :
  let polled :=
    Main._check_inbox Ascii_runtime.python W_A
      {| Main.agent := initiated W_A; Main.pending_replies := two_replies |} in
  snd polled = Raise (KeyError "action")
  /\ Main.pending_replies (fst polled) = []
  /\ exists r, request_of (Main.agent (fst polled)) = Some r
               /\ status r = awaiting_candidate.
Proof.
  intros polled.
  pose (first_reply :=
          {| Main.sender := candidate; Main.subject := "Re: Interview Scheduling";
             Main.body := shapeless_reply ++ nl ++ nl ++ "[Request ID: "
                          ++ request_id ++ "]";
             Main.request_id := Some request_id; Main.received_at := now |}).
  pose (run := handle_email_reply Ascii_runtime.python W_A request_id candidate
                 (Main.body first_reply) (initiated W_A)).
  assert (Hrun : run = (fst run, Raise (KeyError "action"))).
  { rewrite (surjective_pairing run) at 1.
    apply f_equal2; [reflexivity | vm_compute; reflexivity]. }
  assert (E : polled
              = ({| Main.agent := fst run; Main.pending_replies := [] |},
                 Raise (KeyError "action"))).
  { subst polled.
    apply (poll_drops_replies_after_exception Ascii_runtime.python W_A []
             (Main.simulate_reply now candidate monday_reply request_id [])
             first_reply "r" "eq_20250309090000_john.doe" (initiated W_A)
             (initiated W_A));
      [reflexivity | vm_compute; reflexivity | exact Hrun]. }
  rewrite E. cbn [fst snd Main.pending_replies Main.agent].
  split; [reflexivity |]. split; [reflexivity |].
  eexists. split; vm_compute; reflexivity.
Defined.

End CaseProofs.
